(** * Intuis Connect: a shallow embedding of the integration's Python code

    The development follows the source files of [intuis_connect]:
    - [api.py]: the HTTP client with its OAuth2 token lifecycle
      ([IntuisHttpClient]) and the home discovery ([IntuisApi]);
    - [coordinator.py]: the polling function of [IntuisCoordinator];
    - [climate.py], [sensor.py], [binary_sensor.py], [select.py]: the platform
      set-up functions, the entities' property getters and their commands;
    - [config_flow.py]: the error the sign-in form shows.

    Python values are the JSON-shaped values the code handles.  A [str] is a
    Rocq [string] whose characters are code points below 256; floats are
    IEEE binary64 numbers ([spec_float] with precision 53 and [emax] 1024).
    Exceptions are results ([Raise]); their messages are modelled only where
    the sign-in form reads them.
    The network and the wall clock are oracles held in the run's [World]. *)

From Stdlib Require Import ZArith List String Ascii Bool Lia Arith.
From Stdlib Require Import DecimalString SpecFloat.
Import ListNotations.
Local Open Scope string_scope.
Local Open Scope Z_scope.

Set Warnings "-register-all".

(* ===================================================================== *)
(** * Python values *)
(* ===================================================================== *)

Definition float : Type := spec_float.

Inductive pyval : Type :=
| PNone
| PBool (b : bool)
| PInt (z : Z)
| PFloat (f : float)
| PStr (s : string)
| PList (items : list pyval)
| PDict (entries : list (string * pyval)).

(** Exceptions raised by libraries outside the repository (aiohttp, json). *)
Inductive ext_exn : Type :=
| ClientError
| TimeoutError
| ClientPayloadError
| ContentTypeError
| UnicodeDecodeError
| JSONDecodeError.

Inductive exn : Type :=
| IntuisApiError
| UpdateFailed
| AttributeError
| TypeError
| ValueError
| OverflowError
| IndexError
| KeyError
| External (e : ext_exn)
| FuelExhausted.   (* the model's own: a loop bound that is proved unreachable *)

Inductive result (A : Type) : Type :=
| Ok (a : A)
| Raise (e : exn).
Arguments Ok {A} a.
Arguments Raise {A} e.

Definition rbind {A B} (r : result A) (k : A -> result B) : result B :=
  match r with
  | Ok a => k a
  | Raise e => Raise e
  end.

Declare Scope res_scope.
Delimit Scope res_scope with res.
Notation "x <- c ;; k" := (rbind c (fun x => k))
  (at level 61, c at next level, right associativity) : res_scope.

(* --------------------------------------------------------------------- *)
(** ** Floats: binary64 *)

Definition f_prec : Z := 53.
Definition f_emax : Z := 1024.

Definition float_add : float -> float -> float := SFadd f_prec f_emax.
Definition float_sub : float -> float -> float := SFsub f_prec f_emax.
Definition float_mul : float -> float -> float := SFmul f_prec f_emax.
(** [a >= b] on floats. *)
Definition float_ge (a b : float) : bool := SFleb b a.

(** [float(n)] for an [int]: rounded to nearest even; Python raises
    [OverflowError] where the rounded value would be infinite. *)
Definition float_of_Z (z : Z) : result float :=
  match binary_normalize f_prec f_emax z 0 false with
  | S754_infinity _ => Raise OverflowError
  | f => Ok f
  end.

(** A float literal of the source whose value is a small integer. *)
Definition float_lit (z : Z) : float := binary_normalize f_prec f_emax z 0 false.

Arguments float_add : simpl never.
Arguments float_sub : simpl never.
Arguments float_mul : simpl never.
Arguments float_ge : simpl never.
Arguments float_of_Z : simpl never.
Arguments float_lit : simpl never.

(* --------------------------------------------------------------------- *)
(** ** Strings *)

(** [str.isspace] on a character below 256. *)
Definition is_space (c : ascii) : bool :=
  let n := nat_of_ascii c in
  (((9 <=? n) && (n <=? 13)) || ((28 <=? n) && (n <=? 32))
   || (n =? 133) || (n =? 160))%nat.

Fixpoint lstrip (s : string) : string :=
  match s with
  | EmptyString => EmptyString
  | String c r => if is_space c then lstrip r else s
  end.

Fixpoint rstrip (s : string) : string :=
  match s with
  | EmptyString => EmptyString
  | String c r =>
      match rstrip r with
      | EmptyString => if is_space c then EmptyString else String c EmptyString
      | r' => String c r'
      end
  end.

(** [s.strip()] *)
Definition strip (s : string) : string := rstrip (lstrip s).
Arguments strip : simpl never.

(** [str.lower] on a character below 256: A-Z and the Latin-1 capitals. *)
Definition lower_char (c : ascii) : ascii :=
  let n := nat_of_ascii c in
  if (((65 <=? n) && (n <=? 90))
      || ((192 <=? n) && (n <=? 222) && negb (n =? 215)))%nat
  then ascii_of_nat (n + 32) else c.

Fixpoint lower (s : string) : string :=
  match s with
  | EmptyString => EmptyString
  | String c r => String (lower_char c) (lower r)
  end.

Definition str_nonempty (s : string) : bool :=
  match s with
  | EmptyString => false
  | String _ _ => true
  end.

(* --------------------------------------------------------------------- *)
(** ** Built-in operations on values *)

(** [bool(v)] *)
Definition py_truthy (v : pyval) : bool :=
  match v with
  | PNone => false
  | PBool b => b
  | PInt z => negb (z =? 0)
  | PFloat (S754_zero _) => false
  | PFloat _ => true
  | PStr s => str_nonempty s
  | PList l => match l with [] => false | _ => true end
  | PDict d => match d with [] => false | _ => true end
  end.

(** [a or b] *)
Definition py_or (a b : pyval) : pyval := if py_truthy a then a else b.

Definition is_none (v : pyval) : bool :=
  match v with PNone => true | _ => false end.

(** [isinstance(v, dict)], [isinstance(v, list)], [isinstance(v, str)] *)
Definition is_dict (v : pyval) : bool :=
  match v with PDict _ => true | _ => false end.
Definition is_list (v : pyval) : bool :=
  match v with PList _ => true | _ => false end.
Definition is_str (v : pyval) : bool :=
  match v with PStr _ => true | _ => false end.
(** [isinstance(v, (dict, list))] *)
Definition is_container (v : pyval) : bool := is_dict v || is_list v.
(** [isinstance(v, (int, float))]: a [bool] is an [int] in Python. *)
Definition is_number (v : pyval) : bool :=
  match v with PBool _ | PInt _ | PFloat _ => true | _ => false end.

(** A dict keeps its entries in insertion order; a key is looked up at its
    first entry. *)
Fixpoint lookup (k : string) (d : list (string * pyval)) : option pyval :=
  match d with
  | [] => None
  | (k', v) :: r => if String.eqb k k' then Some v else lookup k r
  end.

(** [d[k] = v]: in place when the key exists, appended otherwise. *)
Fixpoint dict_set (k : string) (v : pyval) (d : list (string * pyval))
  : list (string * pyval) :=
  match d with
  | [] => [(k, v)]
  | (k', v') :: r =>
      if String.eqb k k' then (k', v) :: r else (k', v') :: dict_set k v r
  end.

(** [k in d] *)
Definition has_key (k : string) (d : list (string * pyval)) : bool :=
  match lookup k d with Some _ => true | None => false end.

(** [d.get(k, default)] and [d.get(k)] on the entries of a dict *)
Definition get_default (k : string) (default : pyval)
  (d : list (string * pyval)) : pyval :=
  match lookup k d with Some v => v | None => default end.
Definition get (k : string) (d : list (string * pyval)) : pyval :=
  get_default k PNone d.

(** [obj.get(k)] on any value: only a dict has the method. *)
Definition py_get (obj : pyval) (k : string) : result pyval :=
  match obj with
  | PDict d => Ok (get k d)
  | _ => Raise AttributeError
  end.

(** [d.values()] *)
Definition values (d : list (string * pyval)) : list pyval := map snd d.

(** [float(v)] for a value that passed [isinstance(v, (int, float))]. *)
Definition float_of_number (v : pyval) : result float :=
  match v with
  | PBool b => Ok (float_lit (if b then 1 else 0))
  | PInt z => float_of_Z z
  | PFloat f => Ok f
  | _ => Raise TypeError
  end.

(** [str(n)] for an [int] *)
Definition str_of_Z (z : Z) : string := NilZero.string_of_int (Z.to_int z).

(** [int(f)] for a float: truncation toward zero. *)
Definition int_of_float (f : float) : result Z :=
  match f with
  | S754_zero _ => Ok 0
  | S754_infinity _ => Raise OverflowError
  | S754_nan => Raise ValueError
  | S754_finite s m e =>
      let a := if 0 <=? e then Z.pos m * 2 ^ e else Z.pos m / 2 ^ (- e) in
      Ok (if s then - a else a)
  end.

(** [v > 0] for a value that passed [isinstance(v, (int, float))]. *)
Definition number_positive (v : pyval) : bool :=
  match v with
  | PBool b => b
  | PInt z => 0 <? z
  | PFloat f => SFltb (S754_zero false) f
  | _ => false
  end.

(* ===================================================================== *)
(** * The run's world: client state, network and clock *)
(* ===================================================================== *)

(** [_AuthState] *)
Record AuthState : Type := mkAuth {
  access_token : pyval;
  refresh_token : pyval;
  expires_at : option float
}.

Definition auth_init : AuthState := mkAuth PNone PNone None.

(** What [session.request] is called with. *)
Record Request : Type := mkRequest {
  rq_method : string;
  rq_url : string;
  rq_headers : list (string * string);
  rq_json : option pyval;
  rq_form : option (list (string * string))
}.

(** What a call of the response object gives: a value or a library error. *)
Inductive ext_result (A : Type) : Type :=
| Got (a : A)
| Failed (e : ext_exn).
Arguments Got {A} a.
Arguments Failed {A} e.

(** The outcome of one HTTP exchange: [session.request] raises, or gives a
    response with its [status] and the outcomes of [resp.json(content_type=None)]
    and [resp.text()]. *)
Inductive Response : Type :=
| NoResponse (e : ext_exn)
| Resp (status : Z) (body_json : ext_result pyval) (body_text : ext_result string).

Inductive Event : Type :=
| EvRequest (r : Request)
| EvSleep (milliseconds : Z).

Record World : Type := mkWorld {
  auth : AuthState;            (* IntuisHttpClient._auth *)
  home_cache : pyval;          (* IntuisApi._home_cache *)
  net : nat -> Response;       (* the n-th exchange's outcome *)
  clock : nat -> float;        (* the n-th reading of time.time() *)
  n_requests : nat;
  n_clock : nat;
  trace : list Event           (* most recent first *)
}.

Definition world_init (net : nat -> Response) (clock : nat -> float) : World :=
  mkWorld auth_init PNone net clock 0 0 [].

Definition set_auth (a : AuthState) (w : World) : World :=
  mkWorld a (home_cache w) (net w) (clock w) (n_requests w) (n_clock w) (trace w).
Definition set_home_cache (c : pyval) (w : World) : World :=
  mkWorld (auth w) c (net w) (clock w) (n_requests w) (n_clock w) (trace w).

(** The requests of a trace, oldest first. *)
Fixpoint requests_of (t : list Event) : list Request :=
  match t with
  | [] => []
  | EvRequest r :: t' => requests_of t' ++ [r]
  | EvSleep _ :: t' => requests_of t'
  end.

(** Computations: state passing with exceptions; a raise keeps the state. *)
Definition M (A : Type) : Type := World -> result A * World.

Definition ret {A} (a : A) : M A := fun w => (Ok a, w).
Definition raise {A} (e : exn) : M A := fun w => (Raise e, w).
Definition bind {A B} (c : M A) (k : A -> M B) : M B :=
  fun w => match c w with
           | (Ok a, w') => k a w'
           | (Raise e, w') => (Raise e, w')
           end.
Definition lift {A} (r : result A) : M A := fun w => (r, w).

Declare Scope m_scope.
Delimit Scope m_scope with M.
Notation "x <- c ;; k" := (bind c (fun x => k))
  (at level 61, c at next level, right associativity) : m_scope.
Notation "c ;;; k" := (bind c (fun _ => k))
  (at level 61, right associativity) : m_scope.
Local Open Scope m_scope.

(** [try: c except <handled>: h] *)
Definition try_except {A} (c : M A) (handled : exn -> bool) (h : M A) : M A :=
  fun w => match c w with
           | (Raise e, w') => if handled e then h w' else (Raise e, w')
           | r => r
           end.

Definition is_api_error (e : exn) : bool :=
  match e with IntuisApiError => true | _ => false end.
(** [except Exception] *)
Definition any_exception (e : exn) : bool := true.

Definition get_auth : M AuthState := fun w => (Ok (auth w), w).
Definition put_auth (a : AuthState) : M unit := fun w => (Ok tt, set_auth a w).

(** The world after one reading of the clock. *)
Definition tick (w : World) : World :=
  mkWorld (auth w) (home_cache w) (net w) (clock w)
          (n_requests w) (S (n_clock w)) (trace w).

(** The world after one more exchange, for the request [rq]. *)
Definition record_request (rq : Request) (w : World) : World :=
  mkWorld (auth w) (home_cache w) (net w) (clock w)
          (S (n_requests w)) (n_clock w) (EvRequest rq :: trace w).

(** [time.time()] *)
Definition time_time : M float :=
  fun w => (Ok (clock w (n_clock w)), tick w).

(** The world after a sleep. *)
Definition slept (milliseconds : Z) (w : World) : World :=
  mkWorld (auth w) (home_cache w) (net w) (clock w)
          (n_requests w) (n_clock w) (EvSleep milliseconds :: trace w).

(** [await asyncio.sleep(...)] *)
Definition sleep (milliseconds : Z) : M unit :=
  fun w => (Ok tt, slept milliseconds w).

(** [session.request(...)]: the exchange is recorded and its outcome read. *)
Definition session_request (rq : Request) : M Response :=
  fun w => (Ok (net w (n_requests w)), record_request rq w).

(** Sample stand-ins for the interpreter's text conversions, for the concrete
    runs at the end of the file; none of those runs prints a float or a
    container, parses a float or re-parses a JSON string. *)
Definition sample_repr (v : pyval) : string := "<repr>".
Definition sample_float_of_str (s : string) : option float := None.
Definition sample_json_loads (s : string) : option pyval := None.

Section Intuis.

Set Default Proof Using "Type".

(** The interpreter's text conversions, left abstract: [repr] of a float, a
    list or a dict; [float(s)] of a string ([None]: [ValueError]);
    [json.loads(s)] ([None]: it raises). *)
Variable py_repr : pyval -> string.
Variable float_of_str : string -> option float.
Variable json_loads : string -> option pyval.
(** [const.DOMAIN]: the module [const.py] is not among the sources. *)
Variable DOMAIN : string.

(** Drops the parameters a statement does not depend on, so that a proof
    search cannot pick them up. *)
Ltac clear_vars :=
  try clear DOMAIN; try clear json_loads; try clear float_of_str;
  try clear py_repr.

(** [str(v)] *)
Definition py_str (v : pyval) : string :=
  match v with
  | PNone => "None"
  | PBool true => "True"
  | PBool false => "False"
  | PInt z => str_of_Z z
  | PStr s => s
  | PFloat _ | PList _ | PDict _ => py_repr v
  end.

(** [float(v)] on any value. *)
Definition py_float (v : pyval) : result float :=
  match v with
  | PBool _ | PInt _ | PFloat _ => float_of_number v
  | PStr s => match float_of_str s with
              | Some f => Ok f
              | None => Raise ValueError
              end
  | PNone | PList _ | PDict _ => Raise TypeError
  end.

(* ===================================================================== *)
(** * api.py: IntuisHttpClient *)
(* ===================================================================== *)

Definition BASE_HOST : string := "https://app.muller-intuitiv.net".

(** [_auth_headers] *)
Definition _auth_headers (a : AuthState) : list (string * string) :=
  if py_truthy (access_token a)
  then [("Authorization", "Bearer " ++ py_str (access_token a))]
  else [].

(** The fields of [aiohttp.FormData] built from [form]: [None] values are
    skipped, the others added as [str(v)]. *)
Fixpoint form_fields (form : list (string * pyval)) : list (string * string) :=
  match form with
  | [] => []
  | (k, v) :: r =>
      if is_none v then form_fields r else (k, py_str v) :: form_fields r
  end.

Definition form_ct : option string := Some "application/x-www-form-urlencoded".

(** The request [_request_json] hands to [session.request]: its headers and
    its form data. *)
Definition build_request (a : AuthState) (method url : string)
    (json : option pyval) (form : option (list (string * pyval)))
    (content_type : option string) (with_auth : bool) : Request :=
  let headers :=
    ((if with_auth then _auth_headers a else [])
     ++ match content_type with
        | Some ct => if str_nonempty ct then [("Content-Type", ct)] else []
        | None => []
        end)%list in
  mkRequest method url headers json (option_map form_fields form).

(** [_request_json] *)
Definition _request_json (method url : string) (json : option pyval)
    (form : option (list (string * pyval))) (content_type : option string)
    (with_auth : bool) : M pyval :=
  a <- get_auth ;;
  resp <- session_request (build_request a method url json form content_type with_auth) ;;
  match resp with
  | NoResponse e => raise (External e)
  | Resp status body_json body_text =>
      if 400 <=? status then
        (* resp.text() is read under its own try/except here *)
        raise IntuisApiError
      else
        match body_json with
        | Got v => ret v
        | Failed _ =>
            match body_text with
            | Got _ => raise IntuisApiError
            | Failed e' => raise (External e')
            end
        end
  end.

(** [_token_expiring] *)
Definition _token_expiring : M bool :=
  a <- get_auth ;;
  match expires_at a with
  | None => ret true
  | Some (S754_zero _) => ret true
  | Some e =>
      now <- time_time ;;
      ret (float_ge now (float_sub e (float_lit 60)))
  end.

(** [_store_tokens] *)
Definition _store_tokens (data : pyval) : M unit :=
  tok <- lift (py_get data "access_token") ;;
  a <- get_auth ;;
  put_auth (mkAuth tok (refresh_token a) (expires_at a)) ;;;
  a <- get_auth ;;
  match data with
  | PDict d =>
      put_auth (mkAuth (access_token a)
                       (get_default "refresh_token" (refresh_token a) d)
                       (expires_at a)) ;;;
      let expires_in := get "expires_in" d in
      a <- get_auth ;;
      if is_number expires_in then
        now <- time_time ;;
        delta <- lift (float_of_number expires_in) ;;
        put_auth (mkAuth (access_token a) (refresh_token a)
                         (Some (float_add now delta)))
      else
        now <- time_time ;;
        put_auth (mkAuth (access_token a) (refresh_token a)
                         (Some (float_add now (float_lit 3600))))
  | _ => raise AttributeError
  end.

Definition token_url : string := BASE_HOST ++ "/oauth2/token".

Section Credentials.

Variables client_id client_secret scope user_prefix username password : string.

Definition login_payload : list (string * pyval) :=
  [("client_id", PStr client_id); ("user_prefix", PStr user_prefix);
   ("client_secret", PStr client_secret); ("grant_type", PStr "password");
   ("scope", PStr scope); ("password", PStr password);
   ("username", PStr username)].

Definition refresh_payload (rt : pyval) : list (string * pyval) :=
  [("client_id", PStr client_id); ("user_prefix", PStr user_prefix);
   ("client_secret", PStr client_secret); ("grant_type", PStr "refresh_token");
   ("refresh_token", rt)].

(** The two token requests. *)
Definition login_request (a : AuthState) : Request :=
  build_request a "POST" token_url None (Some login_payload) form_ct false.
Definition refresh_request (a : AuthState) : Request :=
  build_request a "POST" token_url None
    (Some (refresh_payload (refresh_token a))) form_ct false.

(** One turn of [login]'s loop body under [try]. *)
Definition login_once : M pyval :=
  data <- _request_json "POST" token_url None (Some login_payload) form_ct false ;;
  _store_tokens data ;;;
  ret data.

(** [login]: the loop [for attempt in range(1, 4)]. *)
Fixpoint login_loop (attempts : list Z) : M pyval :=
  match attempts with
  | [] => raise IntuisApiError
  | attempt :: rest =>
      try_except login_once is_api_error
        (sleep (1500 * attempt) ;;; login_loop rest)
  end.

Definition login : M pyval := login_loop [1; 2; 3].

(** [_refresh] *)
Definition _refresh : M pyval :=
  a <- get_auth ;;
  if negb (py_truthy (refresh_token a)) then raise IntuisApiError
  else
    data <- _request_json "POST" token_url None
              (Some (refresh_payload (refresh_token a))) form_ct false ;;
    _store_tokens data ;;;
    ret data.

(** [self._auth.access_token and not self._token_expiring()] *)
Definition token_valid : M bool :=
  a <- get_auth ;;
  if py_truthy (access_token a)
  then (expiring <- _token_expiring ;; ret (negb expiring))
  else ret false.

(** [ensure_token] *)
Definition ensure_token : M unit :=
  valid <- token_valid ;;
  if valid then ret tt
  else
    a <- get_auth ;;
    if py_truthy (refresh_token a) then
      try_except (_refresh ;;; ret tt) is_api_error (login ;;; ret tt)
    else
      login ;;; ret tt.

(** [get_homesdata] *)
Definition get_homesdata : M pyval :=
  ensure_token ;;;
  raw <- _request_json "GET" (BASE_HOST ++ "/api/homesdata") None None None true ;;
  raw <- match raw with
         | PStr s => match json_loads s with
                     | Some v => ret v
                     | None => raise IntuisApiError
                     end
         | _ => ret raw
         end ;;
  if is_container raw then ret raw else raise IntuisApiError.

(** [post_homestatus] *)
Definition post_homestatus (home_id : pyval) : M pyval :=
  ensure_token ;;;
  _request_json "POST" (BASE_HOST ++ "/syncapi/v1/homestatus") None
    (Some [("home_id", home_id)]) form_ct true.

(** [post_getconfigs] *)
Definition post_getconfigs : M pyval :=
  ensure_token ;;;
  _request_json "POST" (BASE_HOST ++ "/syncapi/v1/getconfigs") None
    (Some []) form_ct true.

(** [post_gethomemeasure] *)
Definition post_gethomemeasure (home_id scale offset limit rtype : pyval)
  : M pyval :=
  ensure_token ;;;
  let form := ([("home_id", home_id); ("scale", scale);
                ("offset", offset); ("limit", limit)]
               ++ (if py_truthy rtype then [("type", rtype)] else []))%list in
  _request_json "POST" (BASE_HOST ++ "/api/gethomemeasure") None
    (Some form) form_ct true.

(** [int(v)] for a value that passed [isinstance(v, (int, float))]. *)
Definition int_of_number (v : pyval) : result Z :=
  match v with
  | PBool b => Ok (if b then 1 else 0)
  | PInt z => Ok z
  | PFloat f => int_of_float f
  | _ => Raise TypeError
  end.

(** The optional [temp] and [endtime] entries of a room command. *)
Definition temp_entry (key : string) (temp : pyval)
  : result (list (string * pyval)) :=
  if is_number temp
  then (f <- float_of_number temp ;; Ok [(key, PFloat f)])%res
  else Ok [].
Definition endtime_entry (key : string) (endtime : pyval)
  : result (list (string * pyval)) :=
  if is_number endtime
  then (z <- int_of_number endtime ;; Ok [(key, PInt z)])%res
  else Ok [].

(** [post_setroomthermpoint] *)
Definition post_setroomthermpoint (home_id room_id mode temp endtime : pyval)
  : M pyval :=
  ensure_token ;;;
  t <- lift (temp_entry "temp" temp) ;;
  e <- lift (endtime_entry "endtime" endtime) ;;
  let form := ([("home_id", home_id); ("room_id", room_id); ("mode", mode)]
               ++ t ++ e)%list in
  _request_json "POST" (BASE_HOST ++ "/api/setroomthermpoint") None
    (Some form) form_ct true.

(** [post_setstate_rooms] *)
Definition post_setstate_rooms (home_id room_id mode temp endtime : pyval)
  : M pyval :=
  ensure_token ;;;
  t <- lift (temp_entry "therm_setpoint_temperature" temp) ;;
  e <- lift (endtime_entry "therm_setpoint_end_time" endtime) ;;
  let room :=
    PDict ([("id", room_id); ("therm_setpoint_mode", mode)] ++ t ++ e)%list in
  let body := PDict [("home", PDict [("id", home_id); ("rooms", PList [room])])] in
  _request_json "POST" (BASE_HOST ++ "/syncapi/v1/setstate") (Some body)
    None None true.

(** [post_switchhomeschedule] *)
Definition post_switchhomeschedule (home_id schedule_id : pyval) : M pyval :=
  ensure_token ;;;
  _request_json "POST" (BASE_HOST ++ "/api/switchhomeschedule") None
    (Some [("home_id", home_id); ("schedule_id", schedule_id)]) form_ct true.

(* ===================================================================== *)
(** * api.py: IntuisApi *)
(* ===================================================================== *)

(** ** [_extract_home_from_homesdata] *)

(** [obj.get("id") or obj.get("_id") or obj.get("home_id")] *)
Definition id_candidate (d : list (string * pyval)) : pyval :=
  py_or (py_or (get "id" d) (get "_id" d)) (get "home_id" d).

(** [candidate is not None] and [str(candidate).strip()] is not empty. *)
Definition has_id (d : list (string * pyval)) : bool :=
  let candidate := id_candidate d in
  negb (is_none candidate) && str_nonempty (strip (py_str candidate)).

Definition hints : list (string * Z) :=
  [("rooms", 4); ("modules", 3); ("therm_schedules", 3); ("schedules", 3);
   ("modules_bridged", 2); ("capabilities", 2); ("timezone", 1); ("city", 1);
   ("name", 1)].

(** [value not in (None, "")] *)
Definition not_none_or_empty (v : pyval) : bool :=
  match v with
  | PNone => false
  | PStr EmptyString => false
  | _ => true
  end.

(** What one entry of [hints] adds to the score of [obj]. *)
Definition hint_gain (obj : list (string * pyval)) (hint : string * Z) : Z :=
  match lookup (fst hint) obj with
  | None => 0
  | Some value =>
      if is_container value
      then (if py_truthy value then snd hint else 0)
      else (if not_none_or_empty value then snd hint else 0)
  end.

(** [_score_candidate] *)
Definition _score_candidate (obj : list (string * pyval)) : Z :=
  let score := fold_left (fun score hint => score + hint_gain obj hint) hints 0 in
  match lookup "rooms" obj with
  | Some (PList _) => score + 5
  | _ => score
  end.

(** The identity [id(current)] of a container of a JSON tree is its position:
    the indices from the root, entry by entry. *)
Definition path : Type := list nat.

Fixpoint path_eqb (p q : path) : bool :=
  match p, q with
  | [], [] => true
  | a :: p', b :: q' => Nat.eqb a b && path_eqb p' q'
  | _, _ => false
  end.

Definition path_mem (p : path) (seen : list path) : bool :=
  existsb (path_eqb p) seen.

(** The search state: the deque, the set [seen], [best] and [best_score]. *)
Record bfs_state : Type := mkBfs {
  bq : list (path * pyval);
  bseen : list path;
  bbest : option pyval;
  bscore : Z
}.

(** [key in best] for the dict [best] *)
Definition key_in (key : string) (v : pyval) : bool :=
  match v with
  | PDict d => has_key key d
  | _ => false
  end.

(** The comparison of the dict [current] with the best so far. *)
Definition consider (current : list (string * pyval)) (best : option pyval)
    (best_score : Z) : option pyval * Z :=
  if has_id current then
    let score := _score_candidate current in
    let better :=
      (best_score <? score)
      || match best with
         | Some b => (score =? best_score)
                     && (has_key "rooms" current && negb (key_in "rooms" b))
         | None => false
         end in
    if better then (Some (PDict current), score) else (best, best_score)
  else (best, best_score).

(** The first entry under [k], with its index. *)
Fixpoint find_entry (k : string) (i : nat) (d : list (string * pyval))
  : option (nat * pyval) :=
  match d with
  | [] => None
  | (k', v) :: r =>
      if String.eqb k k' then Some (i, v) else find_entry k (S i) r
  end.

Definition wrapper_keys : list string := ["home"; "body"; "data"; "result"; "homes"].

(** [for key in (...): value = current.get(key); ... queue.appendleft(value)] *)
Definition push_wrappers (p : path) (d : list (string * pyval))
    (q : list (path * pyval)) : list (path * pyval) :=
  fold_left
    (fun q key =>
       match find_entry key 0 d with
       | Some (i, v) => if is_container v then (p ++ [i]%list, v) :: q else q
       | None => q
       end)%list
    wrapper_keys q.

(** The containers among [items], each with its position under [p]. *)
Fixpoint children_from (p : path) (i : nat) (items : list pyval)
  : list (path * pyval) :=
  match items with
  | [] => []
  | v :: r =>
      if is_container v
      then ((p ++ [i])%list, v) :: children_from p (S i) r
      else children_from p (S i) r
  end.

(** The body of the [while] loop for a [current] not seen before. *)
Definition bfs_visit (p : path) (current : pyval) (st : bfs_state) : bfs_state :=
  match current with
  | PDict d =>
      let (best, score) := consider d (bbest st) (bscore st) in
      mkBfs (push_wrappers p d (bq st) ++ children_from p 0 (values d))%list
            (p :: bseen st) best score
  | PList l =>
      mkBfs (bq st ++ children_from p 0 l)%list (p :: bseen st)
            (bbest st) (bscore st)
  | _ => st
  end.

(** [while queue: ...], bounded by [fuel] iterations. *)
Fixpoint bfs_loop (fuel : nat) (st : bfs_state) : option bfs_state :=
  match bq st with
  | [] => Some st
  | (p, current) :: q =>
      match fuel with
      | O => None
      | S fuel' =>
          let st' := mkBfs q (bseen st) (bbest st) (bscore st) in
          if is_container current && path_mem p (bseen st)
          then bfs_loop fuel' st'
          else bfs_loop fuel' (bfs_visit p current st')
      end
  end.

(** A bound on the iterations the loop makes on a payload: a container is
    pushed at most once per wrapper key and once as a value. *)
Fixpoint weight (v : pyval) : nat :=
  match v with
  | PList l => S (6 * list_sum (map weight l))
  | PDict d => S (6 * list_sum (map (fun kv => weight (snd kv)) d))
  | _ => 1%nat
  end.

(** [_looks_like_home] *)
Definition _looks_like_home (d : list (string * pyval)) : bool :=
  if negb (existsb (fun key => has_key key d)
             ["rooms"; "modules"; "capabilities"; "timezone"; "city"])
  then false
  else
    let candidate := id_candidate d in
    if is_none candidate then false
    else str_nonempty (strip (py_str candidate)).

(** A [for] loop that returns the first truthy [found]. *)
Fixpoint first_found (search : pyval -> option pyval) (l : list pyval)
  : option pyval :=
  match l with
  | [] => None
  | x :: r =>
      match search x with
      | Some found => if py_truthy found then Some found else first_found search r
      | None => first_found search r
      end
  end.

(** [obj[key]] for the keys of [keys] that are in [obj] *)
Definition present_values (keys : list string) (d : list (string * pyval))
  : list pyval :=
  flat_map (fun key => match lookup key d with Some v => [v] | None => [] end) keys.

(** [_search_home]: [levels] is 33 - [depth], so that [depth > 32] is
    [levels = 0]. *)
Fixpoint _search_home (levels : nat) (obj : pyval) : option pyval :=
  match levels with
  | O => None
  | S levels' =>
      match obj with
      | PDict d =>
          if _looks_like_home d then Some obj
          else
            match first_found (_search_home levels')
                    (present_values ["home"; "data"; "result"; "body"] d) with
            | Some found => Some found
            | None =>
                match first_found (_search_home levels')
                        (match get "homes" d with PList l => l | _ => [] end) with
                | Some found => Some found
                | None => first_found (_search_home levels') (values d)
                end
            end
      | PList l => first_found (_search_home levels') l
      | _ => None
      end
  end.

Definition bfs_init (payload : pyval) : bfs_state :=
  mkBfs [([], payload)] [] None (-1).

Definition _extract_home_from_homesdata (payload : pyval) : result pyval :=
  match bfs_loop (weight payload) (bfs_init payload) with
  | None => Raise FuelExhausted
  | Some st =>
      match bbest st with
      | Some best => Ok best
      | None =>
          match _search_home 33 payload with
          | Some home => Ok home
          | None => Raise IntuisApiError
          end
      end
  end.

(** ** The cached home and the calls of the integration *)

Definition get_cache : M pyval := fun w => (Ok (home_cache w), w).
Definition put_cache (c : pyval) : M unit := fun w => (Ok tt, set_home_cache c w).

(** [str(d.get("id") or d.get("_id") or d.get("home_id") or "").strip()] *)
Definition home_id_of (d : list (string * pyval)) : string :=
  strip (py_str (py_or (id_candidate d) (PStr ""))).

(** [async_authenticate] *)
Definition async_authenticate : M unit := ensure_token.

(** [IntuisApi.login] *)
Definition api_login : M pyval := login.

(** The tail of [get_home]: the extracted [home] is normalised and cached. *)
Definition cache_home (home : pyval) : M pyval :=
  match home with
  | PDict d =>
      let hid := home_id_of d in
      if negb (str_nonempty hid) then raise IntuisApiError
      else
        let normalized := PDict (dict_set "id" (PStr hid) d) in
        put_cache normalized ;;;
        ret normalized
  | _ => raise IntuisApiError
  end.

(** [get_home] past the cache check. *)
Definition fetch_home : M pyval :=
  payload <- get_homesdata ;;
  home <- lift (_extract_home_from_homesdata payload) ;;
  cache_home home.

(** [get_home] *)
Definition get_home : M pyval :=
  cached <- get_cache ;;
  if match cached with
     | PDict d => str_nonempty (strip (py_str (get_default "id" (PStr "") d)))
     | _ => false
     end
  then ret cached
  else fetch_home.

(** [get_home_id] *)
Definition get_home_id : M string :=
  cached <- get_cache ;;
  from_cache <- (if py_truthy cached
                 then match cached with
                      | PDict d => ret (home_id_of d)
                      | _ => raise AttributeError
                      end
                 else ret "") ;;
  if str_nonempty from_cache then ret from_cache
  else
    home <- get_home ;;
    match home with
    | PDict d =>
        let hid := home_id_of d in
        if negb (str_nonempty hid) then raise IntuisApiError else ret hid
    | _ => raise AttributeError
    end.

(** [home_id or await self.get_home_id()] *)
Definition home_id_or_cached (home_id : pyval) : M pyval :=
  if py_truthy home_id then ret home_id
  else (hid <- get_home_id ;; ret (PStr hid)).

(** [homestatus] *)
Definition homestatus (home_id : pyval) : M pyval :=
  hid <- home_id_or_cached home_id ;;
  post_homestatus hid.

(** [gethomemeasure] *)
Definition gethomemeasure (home_id scale offset limit rtype : pyval) : M pyval :=
  hid <- home_id_or_cached home_id ;;
  post_gethomemeasure hid scale offset limit rtype.

(** [set_room_setpoint] *)
Definition set_room_setpoint (home_id room_id temp duration : pyval) : M pyval :=
  endtime <- (if is_number duration && number_positive duration
              then
                now <- time_time ;;
                minutes <- lift (float_of_number duration) ;;
                z <- lift (int_of_float
                             (float_add now (float_mul minutes (float_lit 60)))) ;;
                ret (PInt z)
              else ret PNone) ;;
  t <- lift (py_float temp) ;;
  post_setroomthermpoint home_id room_id (PStr "manual") (PFloat t) endtime.

(** [set_room_mode] *)
Definition set_room_mode (home_id room_id mode temp endtime : pyval)
    (use_setstate : bool) : M pyval :=
  if use_setstate
  then post_setstate_rooms home_id room_id mode temp endtime
  else post_setroomthermpoint home_id room_id mode temp endtime.

(** [switch_home_schedule] *)
Definition switch_home_schedule (home_id schedule_id : pyval) : M pyval :=
  post_switchhomeschedule home_id schedule_id.

(* ===================================================================== *)
(** * coordinator.py *)
(* ===================================================================== *)

(** The body of [_async_update_data] under its [try]. *)
Definition update_body : M pyval :=
  async_authenticate ;;;
  home_id <- get_home_id ;;
  status <- homestatus (PStr home_id) ;;
  measures <- try_except
                (gethomemeasure (PStr home_id) (PStr "day") (PInt 0) (PInt 30)
                   (PStr "energy"))
                is_api_error
                (gethomemeasure (PStr home_id) (PStr "day") (PInt 0) (PInt 30)
                   PNone) ;;
  ret (PDict [("home_id", PStr home_id); ("status", status);
              ("measures", measures)]).

(** [_async_update_data]: both [except] clauses raise [UpdateFailed]. *)
Definition _async_update_data : M pyval :=
  try_except update_body any_exception (raise UpdateFailed).

Local Close Scope m_scope.
Local Open Scope res_scope.

(* ===================================================================== *)
(** * Helpers shared by the platform modules *)
(* ===================================================================== *)

(** [obj.get(k, default)] on any value *)
Definition py_get_default (obj : pyval) (k : string) (default : pyval)
  : result pyval :=
  match obj with
  | PDict d => Ok (get_default k default d)
  | _ => Raise AttributeError
  end.

(** The items a [for] loop over [v] visits. *)
Definition py_iter (v : pyval) : result (list pyval) :=
  match v with
  | PList l => Ok l
  | PDict d => Ok (map (fun kv => PStr (fst kv)) d)
  | PStr s => Ok (map (fun c => PStr (String c EmptyString)) (list_ascii_of_string s))
  | _ => Raise TypeError
  end.

(** [len(v)] *)
Definition py_len (v : pyval) : result Z :=
  match v with
  | PList l => Ok (Z.of_nat (List.length l))
  | PDict d => Ok (Z.of_nat (List.length d))
  | PStr s => Ok (Z.of_nat (String.length s))
  | _ => Raise TypeError
  end.

(** [v[0]] *)
Definition py_index0 (v : pyval) : result pyval :=
  match v with
  | PList (x :: _) => Ok x
  | PList [] => Raise IndexError
  | PStr (String c _) => Ok (PStr (String c EmptyString))
  | PStr EmptyString => Raise IndexError
  | PDict _ => Raise KeyError
  | _ => Raise TypeError
  end.

(** [s.lower()] on any value *)
Definition py_lower (v : pyval) : result string :=
  match v with
  | PStr s => Ok (lower s)
  | _ => Raise AttributeError
  end.

(** A [for] loop whose body may [return]: the first returned value. *)
Fixpoint for_first {X A} (body : X -> result (option A)) (l : list X)
  : result (option A) :=
  match l with
  | [] => Ok None
  | x :: r =>
      match body x with
      | Raise e => Raise e
      | Ok (Some a) => Ok (Some a)
      | Ok None => for_first body r
      end
  end.

(** A [for] loop that appends to a list. *)
Fixpoint for_collect {X A} (body : X -> result (list A)) (l : list X)
  : result (list A) :=
  match l with
  | [] => Ok []
  | x :: r =>
      here <- body x ;;
      rest <- for_collect body r ;;
      Ok (here ++ rest)%list
  end.

Definition opt_val (o : option pyval) : pyval :=
  match o with Some v => v | None => PNone end.
Definition opt_float (o : option float) : pyval :=
  match o with Some f => PFloat f | None => PNone end.

(** [float(v) if isinstance(v, (int, float)) else None] *)
Definition float_if_number (v : pyval) : result pyval :=
  if is_number v then (f <- float_of_number v ;; Ok (PFloat f)) else Ok PNone.

(* ===================================================================== *)
(** * climate.py *)
(* ===================================================================== *)

Inductive HVACMode : Type := HVAC_OFF | HVAC_HEAT | HVAC_AUTO.

Definition PRESET_AWAY : string := "away".
Definition PRESET_HOME : string := "home".
Definition PRESET_HG : string := "hg".

(** [climate._find_room_in_payload] *)
Definition climate_room_matches (room_id r : pyval) : result (option pyval) :=
  rid <- py_get r "id" ;;
  Ok (if String.eqb (py_str rid) (py_str room_id) then Some r else None).

Definition climate_find_room_in_payload (payload room_id : pyval)
  : result pyval :=
  match payload with
  | PDict p =>
      nested <- match get "body" p with
                | PDict body =>
                    match get "home" body with
                    | PDict home =>
                        l <- py_iter (get_default "rooms" (PList []) home) ;;
                        for_first (climate_room_matches room_id) l
                    | _ => Ok None
                    end
                | _ => Ok None
                end ;;
      match nested with
      | Some r => Ok r
      | None =>
          l <- py_iter (py_or (get_default "rooms" (PList []) p) (PList [])) ;;
          found <- for_first (climate_room_matches room_id) l ;;
          Ok (opt_val found)
      end
  | _ => Ok PNone
  end.

(** [try: return float(v) except (TypeError, ValueError): pass] *)
Definition try_float (v : pyval) : result (option float) :=
  match py_float v with
  | Ok f => Ok (Some f)
  | Raise TypeError => Ok None
  | Raise ValueError => Ok None
  | Raise e => Raise e
  end.

(** [next((s for s in schedules if s.get("selected")), default)] *)
Fixpoint next_selected (l : list pyval) (default : pyval) : result pyval :=
  match l with
  | [] => Ok default
  | s :: r =>
      sel <- py_get s "selected" ;;
      if py_truthy sel then Ok s else next_selected r default
  end.

(** [climate._get_room_setpoint_from_configs] *)
Definition climate_get_room_setpoint_from_configs (configs room_id : pyval)
  : result pyval :=
  match configs with
  | PDict c =>
      home <- py_get_default (get_default "body" (PDict []) c) "home" (PDict []) ;;
      ts <- py_get home "therm_schedules" ;;
      schedules <- (if py_truthy ts then Ok ts
                    else (ss <- py_get home "schedules" ;; Ok (py_or ss (PList [])))) ;;
      items <- py_iter schedules ;;
      default <- (if py_truthy schedules then py_index0 schedules else Ok PNone) ;;
      selected <- next_selected items default ;;
      match selected with
      | PDict sel =>
          zones <- py_iter (get_default "zones" (PList []) sel) ;;
          from_zones <-
            for_first
              (fun zone =>
                 rts <- py_get_default zone "rooms_temp" (PList []) ;;
                 l <- py_iter rts ;;
                 for_first
                   (fun rt =>
                      rid <- py_get rt "room_id" ;;
                      if String.eqb (py_str rid) (py_str room_id)
                      then (t <- py_get rt "temp" ;; try_float t)
                      else Ok None) l)
              zones ;;
          match from_zones with
          | Some f => Ok (PFloat f)
          | None =>
              rooms <- py_iter (get_default "rooms" (PList []) sel) ;;
              from_rooms <-
                for_first
                  (fun r =>
                     rid <- py_get r "id" ;;
                     if String.eqb (py_str rid) (py_str room_id)
                     then (t <- py_get r "therm_setpoint_temperature" ;; try_float t)
                     else Ok None) rooms ;;
              Ok (opt_float from_rooms)
          end
      | _ => Ok PNone
      end
  | _ => Ok PNone
  end.

(** [_extract_home_mode_from_status] *)
Definition _extract_home_mode_from_status (payload : pyval) : result pyval :=
  match payload with
  | PDict p =>
      let body := py_or (get "body" p) (PDict []) in
      bh <- py_get body "home" ;;
      let home := py_or (py_or bh (get "home" p)) (PDict []) in
      mode <- py_get home "therm_mode" ;;
      match mode with
      | PStr s =>
          let m := lower s in
          if String.eqb m "home" || String.eqb m "away" || String.eqb m "hg"
          then Ok (PStr m) else Ok PNone
      | _ => Ok PNone
      end
  | _ => Ok PNone
  end.

(** [room_mode_to_hvac_and_preset] *)
Definition room_mode_to_hvac_and_preset (room_mode home_mode : pyval)
  : result (HVACMode * option string) :=
  rm <- py_lower (py_or room_mode (PStr "")) ;;
  hm <- (if py_truthy home_mode
         then (h <- py_lower (py_or home_mode (PStr "")) ;; Ok (Some h))
         else Ok None) ;;
  if String.eqb rm "off" then Ok (HVAC_OFF, None)
  else if String.eqb rm "manual" then Ok (HVAC_HEAT, None)
  else if String.eqb rm "away" then Ok (HVAC_AUTO, Some PRESET_AWAY)
  else if String.eqb rm "hg" then Ok (HVAC_HEAT, Some PRESET_HG)
  else if String.eqb rm "home" then
    match hm with
    | Some h =>
        if String.eqb h "hg" then Ok (HVAC_HEAT, Some PRESET_HG)
        else if String.eqb h "away" then Ok (HVAC_AUTO, Some PRESET_AWAY)
        else Ok (HVAC_AUTO, Some PRESET_HOME)
    | None => Ok (HVAC_AUTO, Some PRESET_HOME)
    end
  else Ok (HVAC_AUTO, None).

(** [IntuisRoomClimate]: what [__init__] stores. *)
Record IntuisRoomClimate : Type := mkClimate {
  c_home_id : string;
  c_room_id : string;
  c_room_name : pyval;
  c_name : string;
  c_unique_id : string;
  c_preset_mode : option string
}.

(** [IntuisRoomClimate.__init__] *)
Definition new_climate (home_id room_id room_name : pyval) : IntuisRoomClimate :=
  mkClimate (py_str home_id) (py_str room_id) room_name
    (py_str room_name ++ " Climate")
    ("intuis_" ++ py_str home_id ++ "_" ++ py_str room_id ++ "_climate")
    None.

(** [climate.async_setup_entry], from the coordinator's data once refreshed:
    the entities handed to [async_add_entities]. *)
Definition climate_async_setup_entry (data : pyval)
  : result (list IntuisRoomClimate) :=
  let payload := py_or data (PDict []) in
  h <- py_get payload "home" ;;
  let home := py_or h (PDict []) in
  home_id <- py_get payload "home_id" ;;
  let rooms := match home with
               | PDict hd => get_default "rooms" (PList []) hd
               | _ => PList []
               end in
  l <- py_iter rooms ;;
  for_collect
    (fun room =>
       rid <- py_get room "id" ;;
       let room_id := py_str (py_or rid (PStr "")) in
       if negb (str_nonempty room_id) then Ok []
       else
         name <- py_get room "name" ;;
         let room_name := py_or name (PStr ("Room " ++ room_id)) in
         Ok [new_climate home_id (PStr room_id) room_name])
    l.

(** [(self.coordinator.data or {}).get("status") or {}] *)
Definition data_status (data : pyval) : result pyval :=
  s <- py_get (py_or data (PDict [])) "status" ;;
  Ok (py_or s (PDict [])).

(** [room.get(field) if isinstance(room, dict) else None] *)
Definition room_field (room : pyval) (field : string) : pyval :=
  match room with
  | PDict r => get field r
  | _ => PNone
  end.

(** [IntuisRoomClimate.current_temperature], read with the coordinator's
    current [data]. *)
Definition current_temperature (e : IntuisRoomClimate) (data : pyval)
  : result pyval :=
  status <- data_status data ;;
  room <- climate_find_room_in_payload status (PStr (c_room_id e)) ;;
  float_if_number (room_field room "therm_measured_temperature").

(** [IntuisRoomClimate.target_temperature] *)
Definition target_temperature (e : IntuisRoomClimate) (data : pyval)
  : result pyval :=
  status <- data_status data ;;
  room <- climate_find_room_in_payload status (PStr (c_room_id e)) ;;
  let v := room_field room "therm_setpoint_temperature" in
  if is_number v then (f <- float_of_number v ;; Ok (PFloat f))
  else
    c <- py_get (py_or data (PDict [])) "configs" ;;
    climate_get_room_setpoint_from_configs (py_or c (PDict [])) (PStr (c_room_id e)).

(** [IntuisRoomClimate.hvac_mode]: the mode, and the entity with its
    [_preset_mode] updated. *)
Definition hvac_mode (e : IntuisRoomClimate) (data : pyval)
  : result (HVACMode * IntuisRoomClimate) :=
  status <- data_status data ;;
  room <- climate_find_room_in_payload status (PStr (c_room_id e)) ;;
  room_mode <- match room with
               | PDict r =>
                   m <- py_lower (py_or (get "therm_setpoint_mode" r) (PStr "")) ;;
                   Ok (PStr m)
               | _ => Ok (PStr "")
               end ;;
  home_mode <- _extract_home_mode_from_status status ;;
  hp <- room_mode_to_hvac_and_preset room_mode home_mode ;;
  Ok (fst hp,
      mkClimate (c_home_id e) (c_room_id e) (c_room_name e) (c_name e)
        (c_unique_id e) (snd hp)).

(** [IntuisRoomClimate.preset_mode] *)
Definition preset_mode (e : IntuisRoomClimate) : option string := c_preset_mode e.

(* ===================================================================== *)
(** * sensor.py *)
(* ===================================================================== *)

(** [DeviceInfo]: the identifier pair, the name, the model and [via_device];
    the manufacturer and the suggested area add nothing to them. *)
Record DeviceInfo : Type := mkDevice {
  dev_identifier : string * string;
  dev_name : pyval;
  dev_model : string;
  dev_via : option (string * string)
}.

Definition device_info_gateway (home_id : pyval) : DeviceInfo :=
  mkDevice (DOMAIN, "gateway_" ++ py_str home_id) (PStr "Intuis Gateway")
    "Gateway" None.

Definition device_info_room (home_id room_id room_name : pyval) : DeviceInfo :=
  mkDevice (DOMAIN, "room_" ++ py_str home_id ++ "_" ++ py_str room_id)
    room_name "Room" (Some (DOMAIN, "gateway_" ++ py_str home_id)).

(** [_extract_energy_day_value] *)
Definition energy_of_key (first : pyval) (key : string) : result (option float) :=
  v <- py_get first key ;;
  if is_number v then (f <- float_of_number v ;; Ok (Some f))
  else
    match v with
    | PList (v0 :: _) =>
        if is_number v0 then (f <- float_of_number v0 ;; Ok (Some f)) else Ok None
    | _ => Ok None
    end.

Definition _extract_energy_day_value (measures : pyval) : result pyval :=
  match measures with
  | PDict m =>
      let arr :=
        match lookup "measures" m with
        | Some (PList l) => l
        | _ =>
            match lookup "body" m with
            | Some (PDict body) =>
                match get "measures" body with
                | PList l => l
                | _ => []
                end
            | _ => []
            end
        end in
      match arr with
      | [] => Ok PNone
      | first :: _ =>
          r <- for_first (energy_of_key first)
                 ["value"; "energy"; "kwh"; "sum"; "data"] ;;
          Ok (opt_float r)
      end
  | _ => Ok PNone
  end.

(** [sensor._find_room_in_payload] *)
Definition sensor_room_matches (room_id : string) (r : pyval)
  : result (option pyval) :=
  a <- py_get r "id" ;;
  b <- py_get r "_id" ;;
  let rid := py_str (py_or (py_or a b) (PStr "")) in
  Ok (if String.eqb rid room_id then Some r else None).

Definition sensor_find_room_in_payload (payload : pyval) (room_id : string)
  : result pyval :=
  match payload with
  | PDict p =>
      nested <- match get "body" p with
                | PDict body =>
                    match get "home" body with
                    | PDict home =>
                        match get "rooms" home with
                        | PList rooms => for_first (sensor_room_matches room_id) rooms
                        | _ => Ok None
                        end
                    | _ => Ok None
                    end
                | _ => Ok None
                end ;;
      match nested with
      | Some r => Ok r
      | None =>
          match get "rooms" p with
          | PList rooms =>
              found <- for_first (sensor_room_matches room_id) rooms ;;
              Ok (opt_val found)
          | _ => Ok PNone
          end
      end
  | _ => Ok PNone
  end.

(** [_get_room_field] *)
Definition _get_room_field (payload : pyval) (room_id field : string)
  : result pyval :=
  room <- sensor_find_room_in_payload payload room_id ;;
  match room with
  | PDict r =>
      let v := get field r in
      Ok (if is_number v || is_str v then v else PNone)
  | _ => Ok PNone
  end.

(** The loop [for sch in schedules: if sch.get("selected") is True: ...] *)
Fixpoint first_selected (schedules : list pyval) : result pyval :=
  match schedules with
  | [] => Ok PNone
  | sch :: r =>
      sel <- py_get sch "selected" ;;
      match sel with
      | PBool true => Ok sch
      | _ => first_selected r
      end
  end.

(** [sensor._get_room_setpoint_from_configs] *)
Definition sensor_get_room_setpoint_from_configs (configs : pyval)
    (room_id : string) : result pyval :=
  match configs with
  | PDict c =>
      match get "body" c with
      | PDict body =>
          match get "home" body with
          | PDict home =>
              match py_or (get "therm_schedules" home) (get "schedules" home) with
              | PList schedules =>
                  sel <- first_selected schedules ;;
                  let selected :=
                    if py_truthy sel then sel
                    else match schedules with s0 :: _ => s0 | [] => PNone end in
                  match selected with
                  | PDict sd =>
                      match get "zones" sd with
                      | PList zones =>
                          from_zones <-
                            for_first
                              (fun z =>
                                 rtemps <- py_get z "rooms_temp" ;;
                                 match rtemps with
                                 | PList rts =>
                                     for_first
                                       (fun rt =>
                                          rid <- py_get rt "room_id" ;;
                                          if String.eqb (py_str rid) room_id then
                                            temp <- py_get rt "temp" ;;
                                            if is_number temp
                                            then (f <- float_of_number temp ;;
                                                  Ok (Some f))
                                            else Ok None
                                          else Ok None) rts
                                 | _ => Ok None
                                 end) zones ;;
                          match from_zones with
                          | Some f => Ok (PFloat f)
                          | None =>
                              match get "rooms" sd with
                              | PList rooms =>
                                  from_rooms <-
                                    for_first
                                      (fun r =>
                                         rid <- py_get r "id" ;;
                                         if String.eqb (py_str rid) room_id then
                                           t <- py_get r "therm_setpoint_temperature" ;;
                                           if is_number t
                                           then (f <- float_of_number t ;;
                                                 Ok (Some f))
                                           else Ok None
                                         else Ok None) rooms ;;
                                  Ok (opt_float from_rooms)
                              | _ => Ok PNone
                              end
                          end
                      | _ => Ok PNone
                      end
                  | _ => Ok PNone
                  end
              | _ => Ok PNone
              end
          | _ => Ok PNone
          end
      | _ => Ok PNone
      end
  | _ => Ok PNone
  end.

(** The sensor classes of [sensor.py] and what their [__init__] stores. *)
Inductive SensorClass : Type :=
| IntuisEnergyHomeSensor
| IntuisSimpleNumberSensor
| IntuisSimpleTextSensor
| IntuisRoomTempSensor
| IntuisRoomTextSensor.

Record SensorEntity : Type := mkSensor {
  s_class : SensorClass;
  s_unique_id : string;
  s_name : string;
  s_value : pyval;
  s_device : DeviceInfo
}.

(** [native_value] of every sensor class: [return self._value], whatever the
    coordinator's current [data]. *)
Definition native_value (e : SensorEntity) (data : pyval) : pyval := s_value e.

(** The sensors of one room: the body of [for room in rooms]. *)
Definition room_sensors (home_id status configs room : pyval)
  : result (list SensorEntity) :=
  a <- py_get room "id" ;;
  b <- py_get room "_id" ;;
  let room_id := py_str (py_or (py_or a b) (PStr "")) in
  if negb (str_nonempty room_id) then Ok []
  else
    n <- py_get room "name" ;;
    let room_name := py_or n (PStr ("Room " ++ room_id)) in
    let dev := device_info_room (py_or home_id (PStr "home")) (PStr room_id)
                 room_name in
    let unique suffix := "intuis_" ++ py_str home_id ++ "_" ++ room_id ++ suffix in
    m <- _get_room_field status room_id "therm_measured_temperature" ;;
    m' <- (if is_none m then py_get room "therm_measured_temperature" else Ok m) ;;
    measured <- (if is_number m'
                 then (f <- float_of_number m' ;;
                       Ok [mkSensor IntuisRoomTempSensor (unique "_measured")
                             (py_str room_name ++ " Measured") (PFloat f) dev])
                 else Ok []) ;;
    sp <- _get_room_field status room_id "therm_setpoint_temperature" ;;
    sp' <- (if is_none sp
            then sensor_get_room_setpoint_from_configs configs room_id
            else Ok sp) ;;
    setpoint <- (if is_number sp'
                 then (f <- float_of_number sp' ;;
                       Ok [mkSensor IntuisRoomTempSensor (unique "_setpoint")
                             (py_str room_name ++ " Setpoint") (PFloat f) dev])
                 else Ok []) ;;
    mode <- _get_room_field status room_id "therm_setpoint_mode" ;;
    let mode_sensor :=
      match mode with
      | PStr md => [mkSensor IntuisRoomTextSensor (unique "_mode")
                      (py_str room_name ++ " Mode") (PStr md) dev]
      | _ => []
      end in
    Ok (measured ++ setpoint ++ mode_sensor)%list.

(** [sensor.async_setup_entry], from the coordinator's data once refreshed. *)
Definition sensor_async_setup_entry (data : pyval) : result (list SensorEntity) :=
  let payload := py_or data (PDict []) in
  h <- py_get payload "home" ;;
  let home := py_or h (PDict []) in
  home_id <- py_get payload "home_id" ;;
  st <- py_get payload "status" ;;
  let status := py_or st (PDict []) in
  cf <- py_get payload "configs" ;;
  let configs := py_or cf (PDict []) in
  ms <- py_get payload "measures" ;;
  let measures := py_or ms (PDict []) in
  let rooms := match home with
               | PDict hd => get_default "rooms" (PList []) hd
               | _ => PList []
               end in
  let modules := match home with
                 | PDict hd => get_default "modules" (PList []) hd
                 | _ => PList []
                 end in
  therm_mode <- py_get home "therm_mode" ;;
  let dev_gw := device_info_gateway (py_or home_id (PStr "home")) in
  let unique suffix := "intuis_" ++ py_str home_id ++ suffix in
  val <- _extract_energy_day_value measures ;;
  let energy :=
    match val with
    | PFloat f => [mkSensor IntuisEnergyHomeSensor (unique "_energy_today")
                     "Energy Today" (PFloat f) dev_gw]
    | _ => []
    end in
  n_rooms <- py_len rooms ;;
  n_modules <- py_len modules ;;
  let counts :=
    [mkSensor IntuisSimpleNumberSensor (unique "_rooms_count") "Rooms Count"
       (PInt n_rooms) dev_gw;
     mkSensor IntuisSimpleNumberSensor (unique "_modules_count") "Modules Count"
       (PInt n_modules) dev_gw] in
  let mode :=
    match therm_mode with
    | PStr tm => [mkSensor IntuisSimpleTextSensor (unique "_therm_mode")
                    "Therm Mode" (PStr tm) dev_gw]
    | _ => []
    end in
  l <- py_iter rooms ;;
  per_room <- for_collect (room_sensors home_id status configs) l ;;
  Ok (energy ++ counts ++ mode ++ per_room)%list.

(* ===================================================================== *)
(** * binary_sensor.py *)
(* ===================================================================== *)

Inductive BinarySensorClass : Type :=
| IntuisRoomWindowSensor
| IntuisRoomPresenceSensor.

Record BinarySensorEntity : Type := mkBinary {
  b_class : BinarySensorClass;
  b_room : pyval;
  b_name : string;
  b_unique_id : string
}.

(** The two [__init__]: [room] is a dict here, its fields were read before. *)
Definition new_binary (cls : BinarySensorClass) (room : pyval)
  : result BinarySensorEntity :=
  name <- py_get room "name" ;;
  rid <- py_get room "id" ;;
  Ok match cls with
     | IntuisRoomWindowSensor =>
         mkBinary cls room (py_str name ++ " Window Open")
           (DOMAIN ++ "_room_" ++ py_str rid ++ "_window")
     | IntuisRoomPresenceSensor =>
         mkBinary cls room (py_str name ++ " Presence")
           (DOMAIN ++ "_room_" ++ py_str rid ++ "_presence")
     end.

(** [binary_sensor.async_setup_entry], from the [data] of the coordinator the
    function finds at [hass.data[DOMAIN][entry.entry_id]]. *)
Definition binary_sensor_async_setup_entry (data : pyval)
  : result (list BinarySensorEntity) :=
  rooms <- py_get_default data "rooms" (PList []) ;;
  l <- py_iter rooms ;;
  for_collect
    (fun room =>
       w <- py_get room "window_open" ;;
       ws <- (if negb (is_none w)
              then (e <- new_binary IntuisRoomWindowSensor room ;; Ok [e])
              else Ok []) ;;
       p <- py_get room "presence" ;;
       ps <- (if negb (is_none p)
              then (e <- new_binary IntuisRoomPresenceSensor room ;; Ok [e])
              else Ok []) ;;
       Ok (ws ++ ps)%list)
    l.

(** [is_on] of the two classes: read from the room captured by [__init__]. *)
Definition is_on (e : BinarySensorEntity) : result bool :=
  v <- py_get (b_room e)
         match b_class e with
         | IntuisRoomWindowSensor => "window_open"
         | IntuisRoomPresenceSensor => "presence"
         end ;;
  Ok (py_truthy v).

(* ===================================================================== *)
(** * select.py *)
(* ===================================================================== *)

Record IntuisScheduleSelect : Type := mkSelect {
  sel_home_id : pyval;
  sel_schedules : pyval;
  sel_options : list pyval;
  sel_ids : list pyval
}.

(** [[s.get(key) for s in schedules if isinstance(s, dict)]] *)
Definition dict_fields (key : string) (items : list pyval) : list pyval :=
  flat_map (fun s => match s with PDict d => [get key d] | _ => [] end) items.

(** [select.async_setup_entry], from the coordinator's data once refreshed. *)
Definition select_async_setup_entry (data : pyval)
  : result (list IntuisScheduleSelect) :=
  home <- py_get_default data "home" (PDict []) ;;
  home_id <- py_get data "home_id" ;;
  ts <- py_get home "therm_schedules" ;;
  ss <- py_get home "schedules" ;;
  let schedules := py_or (py_or ts ss) (PList []) in
  items <- py_iter schedules ;;
  Ok [mkSelect home_id schedules (dict_fields "name" items) (dict_fields "id" items)].

Local Close Scope res_scope.
Local Open Scope m_scope.

(* ===================================================================== *)
(** * climate.py and select.py: the commands *)
(* ===================================================================== *)

(** [coordinator.async_request_refresh()] is Home Assistant's: what it does
    to the client is left open. *)
Variable async_request_refresh : M unit.

(** [homeassistant.const.ATTR_TEMPERATURE] *)
Definition ATTR_TEMPERATURE : string := "temperature".

(** [IntuisRoomClimate.device_info]; [climate.device_info_room] has the text
    of [sensor.device_info_room]. *)
Definition climate_device_info (e : IntuisRoomClimate) : DeviceInfo :=
  device_info_room (PStr (c_home_id e)) (PStr (c_room_id e)) (c_room_name e).

(** [api.set_room_mode(self._home_id, self._room_id, mode)] *)
Definition climate_set_room_mode (e : IntuisRoomClimate) (mode : string)
  : M pyval :=
  set_room_mode (PStr (c_home_id e)) (PStr (c_room_id e)) (PStr mode)
    PNone PNone true.

(** [async_set_hvac_mode], for the modes the entity declares. *)
Definition async_set_hvac_mode (e : IntuisRoomClimate) (hvac_mode : HVACMode)
  : M unit :=
  match hvac_mode with
  | HVAC_OFF => climate_set_room_mode e "off"
  | HVAC_HEAT => climate_set_room_mode e "manual"
  | HVAC_AUTO => climate_set_room_mode e "home"
  end ;;;
  async_request_refresh.

(** [async_set_temperature]: [kwargs] as the dict of the keyword arguments. *)
Definition async_set_temperature (e : IntuisRoomClimate)
    (kwargs : list (string * pyval)) : M unit :=
  match lookup ATTR_TEMPERATURE kwargs with
  | None => ret tt
  | Some PNone => ret tt
  | Some v =>
      temp <- lift (py_float v) ;;
      climate_set_room_mode e "manual" ;;;
      set_room_setpoint (PStr (c_home_id e)) (PStr (c_room_id e))
        (PFloat temp) PNone ;;;
      async_request_refresh
  end.

(** [async_set_preset_mode] *)
Definition async_set_preset_mode (e : IntuisRoomClimate) (preset_mode : string)
  : M unit :=
  (if String.eqb preset_mode PRESET_HOME
   then climate_set_room_mode e "home" ;;; ret tt
   else if String.eqb preset_mode PRESET_AWAY
   then climate_set_room_mode e "away" ;;; ret tt
   else if String.eqb preset_mode PRESET_HG
   then climate_set_room_mode e "hg" ;;; ret tt
   else ret tt) ;;;
  async_request_refresh.

(** [IntuisScheduleSelect.options] *)
Definition options (e : IntuisScheduleSelect) : list pyval := sel_options e.

(** [IntuisScheduleSelect.current_option] *)
Definition current_option (e : IntuisScheduleSelect) : result pyval :=
  (items <- py_iter (sel_schedules e) ;;
   found <- for_first
              (fun s =>
                 sel <- py_get s "selected" ;;
                 if py_truthy sel
                 then (name <- py_get s "name" ;; Ok (Some name))
                 else Ok None)
              items ;;
   Ok (opt_val found))%res.

(** [option == v] for the [str] [option] *)
Definition str_eq (choice : string) (v : pyval) : bool :=
  match v with
  | PStr s => String.eqb choice s
  | _ => false
  end.

(** [self._options.index(option)], [None] when [option not in self._options] *)
Fixpoint index_of (choice : string) (l : list pyval) : option nat :=
  match l with
  | [] => None
  | v :: r =>
      if str_eq choice v then Some O
      else match index_of choice r with
           | Some i => Some (S i)
           | None => None
           end
  end.

(** [async_select_option] *)
Definition async_select_option (e : IntuisScheduleSelect) (choice : string)
  : M unit :=
  match index_of choice (sel_options e) with
  | None => ret tt
  | Some idx =>
      match nth_error (sel_ids e) idx with
      | None => raise IndexError
      | Some schedule_id =>
          switch_home_schedule (sel_home_id e) schedule_id ;;;
          async_request_refresh
      end
  end.

(* ===================================================================== *)
(** * config_flow.py: the error shown for a failed sign-in *)
(* ===================================================================== *)

(** [s.startswith(p)] *)
Fixpoint starts_with (p s : string) : bool :=
  match p, s with
  | EmptyString, _ => true
  | String a p', String b s' => Ascii.eqb a b && starts_with p' s'
  | String _ _, EmptyString => false
  end.

(** [k in s] on strings *)
Fixpoint str_contains (k s : string) : bool :=
  starts_with k s
  || match s with
     | EmptyString => false
     | String _ r => str_contains k r
     end.

(** The texts of the [IntuisApiError]s of [_request_json] and [login];
    [reason], [e] and the bodies as the texts the f-strings print. *)
Definition http_error_message (method url : string) (status : Z)
    (reason err_text : string) : string :=
  method ++ " " ++ url ++ " -> " ++ str_of_Z status ++ " " ++ reason
  ++ " | body: " ++ err_text.

Definition invalid_json_message (url e text : string) : string :=
  "Invalid JSON from " ++ url ++ ": " ++ e ++ " | body: " ++ text.

Definition login_failed_message (last_exc : string) : string :=
  "Login failed: " ++ last_exc.

(** [async_step_user]: what [errors["base"]] is set to for an exception whose
    text is [exc_text]. *)
Definition error_base (exc_text : string) : string :=
  let msg := lower exc_text in
  if existsb (fun k => str_contains k msg) ["invalid_grant"; "auth"; "401"; "403"]
  then "invalid_auth"
  else "cannot_connect".

(* ===================================================================== *)
(** * Facts about strings *)
(* ===================================================================== *)

Lemma lower_char_idem : forall c, lower_char (lower_char c) = lower_char c.
Proof.
  intros [[] [] [] [] [] [] [] []]; reflexivity.
Qed.

Lemma lower_idem : forall s, lower (lower s) = lower s.
Proof.
  induction s as [|c s IH]; simpl; [reflexivity|].
  now rewrite lower_char_idem, IH.
Qed.

Lemma lstrip_head : forall s c r,
  lstrip s = String c r -> is_space c = false.
Proof.
  induction s as [|a s IH]; simpl; intros c r H; [discriminate|].
  destruct (is_space a) eqn:Ha.
  - eauto.
  - now inversion H; subst.
Qed.

Lemma rstrip_head : forall c r,
  is_space c = false -> exists r', rstrip (String c r) = String c r'.
Proof.
  intros c r Hc. simpl. destruct (rstrip r); rewrite ?Hc; eauto.
Qed.

Lemma rstrip_cons : forall c r,
  rstrip (String c r)
  = match rstrip r with
    | EmptyString => if is_space c then EmptyString else String c EmptyString
    | r' => String c r'
    end.
Proof. reflexivity. Qed.

Lemma rstrip_idem : forall s, rstrip (rstrip s) = rstrip s.
Proof.
  induction s as [|c s IH]; [reflexivity|].
  rewrite rstrip_cons.
  destruct (rstrip s) as [|c' s'] eqn:E.
  - destruct (is_space c) eqn:Hc; [reflexivity|].
    rewrite rstrip_cons. simpl. now rewrite Hc.
  - rewrite rstrip_cons, IH. reflexivity.
Qed.

Lemma lstrip_nonspace : forall c r,
  is_space c = false -> lstrip (String c r) = String c r.
Proof. intros c r H; simpl; now rewrite H. Qed.

(** [strip] is idempotent: what [get_home] stores as the id is read back
    unchanged by [get_home_id]. *)
Lemma strip_idem : forall s, strip (strip s) = strip s.
Proof.
  intro s. unfold strip.
  destruct (lstrip s) as [|c r] eqn:E; [reflexivity|].
  pose proof (lstrip_head _ _ _ E) as Hc.
  destruct (rstrip_head c r Hc) as [r' Hr]. rewrite Hr.
  rewrite (lstrip_nonspace c r' Hc), <- Hr. apply rstrip_idem.
Qed.

Lemma str_nonempty_true : forall s, str_nonempty s = true <-> s <> "".
Proof.
  destruct s; simpl; split; intro H; congruence || discriminate.
Qed.

Lemma path_eqb_eq : forall p q, path_eqb p q = true <-> p = q.
Proof.
  induction p as [|a p IH]; destruct q as [|b q]; simpl; split; intro H;
    try discriminate; try reflexivity.
  - apply andb_true_iff in H as [H1 H2].
    apply Nat.eqb_eq in H1. apply IH in H2. congruence.
  - inversion H; subst. rewrite Nat.eqb_refl. simpl. now apply IH.
Qed.

Lemma path_mem_In : forall p seen, path_mem p seen = true <-> In p seen.
Proof.
  intros p seen. unfold path_mem. rewrite existsb_exists. split.
  - intros [q [Hq Heq]]. apply path_eqb_eq in Heq. now subst.
  - intro H. exists p. split; [assumption|]. now apply path_eqb_eq.
Qed.

(* ===================================================================== *)
(** * climate.py: the mode table *)
(* ===================================================================== *)

Definition str_or_none (o : option string) : pyval :=
  match o with Some s => PStr s | None => PNone end.

Definition str_or_empty (o : option string) : string :=
  match o with Some s => s | None => "" end.

Lemma py_or_str_or_none : forall o,
  py_or (str_or_none o) (PStr "") = PStr (str_or_empty o).
Proof. now intros [[|c s]|]. Qed.

Lemma truthy_str_or_none : forall o,
  py_truthy (str_or_none o) = str_nonempty (str_or_empty o).
Proof. now intros [[|c s]|]. Qed.

Ltac case_eqb s t :=
  let E := fresh "E" in
  destruct (String.eqb s t) eqn:E;
  [apply String.eqb_eq in E | apply String.eqb_neq in E].

(** C10. [room_mode_to_hvac_and_preset] returns on every room mode and home
    mode that is a string or [None], and its result is decided by the
    lower-cased modes: off gives (OFF, no preset), manual (HEAT, no preset),
    away (AUTO, away), hg (HEAT, hg); home gives (HEAT, hg) under home mode hg,
    (AUTO, away) under home mode away and (AUTO, home) otherwise; any other
    room mode gives (AUTO, no preset). *)
Theorem room_mode_to_hvac_and_preset_table :
  forall room_mode home_mode : option string,
    let rm := lower (str_or_empty room_mode) in
    let hm := lower (str_or_empty home_mode) in
    exists r,
      room_mode_to_hvac_and_preset (str_or_none room_mode) (str_or_none home_mode)
        = Ok r
      /\ (rm = "off" -> r = (HVAC_OFF, None))
      /\ (rm = "manual" -> r = (HVAC_HEAT, None))
      /\ (rm = "away" -> r = (HVAC_AUTO, Some "away"))
      /\ (rm = "hg" -> r = (HVAC_HEAT, Some "hg"))
      /\ (rm = "home" -> hm = "hg" -> r = (HVAC_HEAT, Some "hg"))
      /\ (rm = "home" -> hm = "away" -> r = (HVAC_AUTO, Some "away"))
      /\ (rm = "home" -> hm <> "hg" -> hm <> "away" -> r = (HVAC_AUTO, Some "home"))
      /\ (rm <> "off" -> rm <> "manual" -> rm <> "away" -> rm <> "hg" ->
          rm <> "home" -> r = (HVAC_AUTO, None)).
Proof.
  intros room_mode home_mode rm hm.
  unfold room_mode_to_hvac_and_preset.
  rewrite !py_or_str_or_none, truthy_str_or_none. cbn [py_lower rbind].
  fold rm. 
  assert (Hhm : forall A (x y : A),
             (if str_nonempty (str_or_empty home_mode) then x else y) = x
             \/ hm = "").
  { intros A x y. subst hm. destruct (str_or_empty home_mode); simpl; auto. }
  case_eqb rm "off".
  { eexists; split; [destruct (str_nonempty _); reflexivity|].
    repeat split; intros; congruence. }
  case_eqb rm "manual".
  { eexists; split; [destruct (str_nonempty _); reflexivity|].
    repeat split; intros; congruence. }
  case_eqb rm "away".
  { eexists; split; [destruct (str_nonempty _); reflexivity|].
    repeat split; intros; congruence. }
  case_eqb rm "hg".
  { eexists; split; [destruct (str_nonempty _); reflexivity|].
    repeat split; intros; congruence. }
  case_eqb rm "home".
  2:{ eexists; split; [destruct (str_nonempty _); reflexivity|].
      repeat split; intros; congruence. }
  destruct (str_nonempty (str_or_empty home_mode)) eqn:Hne; cbn [rbind].
  - fold hm. case_eqb hm "hg"; [|case_eqb hm "away"];
      (eexists; split; [reflexivity|]); repeat split; intros; congruence.
  - assert (hm = "") as Hempty.
    { subst hm. destruct (str_or_empty home_mode); [reflexivity|discriminate]. }
    eexists; split; [reflexivity|]. repeat split; intros; congruence.
Qed.

(** Matching ignores case: two spellings of the same modes give one result. *)
Lemma room_mode_to_hvac_and_preset_nocase : forall s s' h h',
  lower s = lower s' -> lower h = lower h' ->
  room_mode_to_hvac_and_preset (PStr s) (PStr h)
  = room_mode_to_hvac_and_preset (PStr s') (PStr h').
Proof.
  intros s s' h h' Hs Hh. unfold room_mode_to_hvac_and_preset.
  assert (Hn : forall a b, lower a = lower b -> str_nonempty a = str_nonempty b).
  { intros [|a0 a] [|b0 b]; simpl; intro H; congruence. }
  assert (Ho : forall a, py_lower (py_or (PStr a) (PStr "")) = Ok (lower a)).
  { intros [|a0 a]; reflexivity. }
  rewrite !Ho. cbn [py_truthy rbind]. rewrite (Hn _ _ Hh), Hs, Hh. reflexivity.
Qed.

Example room_mode_upper_off :
  room_mode_to_hvac_and_preset (PStr "OFF") PNone = Ok (HVAC_OFF, None).
Proof. reflexivity. Qed.

Example room_mode_home_under_hg :
  room_mode_to_hvac_and_preset (PStr "Home") (PStr "HG")
  = Ok (HVAC_HEAT, Some "hg").
Proof. reflexivity. Qed.

Example room_mode_none :
  room_mode_to_hvac_and_preset PNone PNone = Ok (HVAC_AUTO, None).
Proof. reflexivity. Qed.

(* ===================================================================== *)
(** * api.py: the HTTP exchange *)
(* ===================================================================== *)

Lemma bind_ok_inv : forall A B (c : M A) (k : A -> M B) w b w',
  bind c k w = (Ok b, w') ->
  exists a w1, c w = (Ok a, w1) /\ k a w1 = (Ok b, w').
Proof.
  intros A B c k w b w' H. unfold bind in H.
  destruct (c w) as [[a|e] w1]; [eauto|discriminate].
Qed.

Lemma bind_ok : forall A B (c : M A) (k : A -> M B) w a w1,
  c w = (Ok a, w1) -> bind c k w = k a w1.
Proof. intros A B c k w a w1 H. unfold bind. now rewrite H. Qed.

Lemma bind_raise : forall A B (c : M A) (k : A -> M B) w e w1,
  c w = (Raise e, w1) -> bind c k w = (Raise e, w1).
Proof. intros A B c k w e w1 H. unfold bind. now rewrite H. Qed.

Lemma bind_get_auth : forall B (k : AuthState -> M B) w,
  bind get_auth k w = k (auth w) w.
Proof. reflexivity. Qed.

(** An exchange fails the way [_request_json] reports as [IntuisApiError]:
    a status of 400 or more, or a body [resp.json] rejects while [resp.text]
    can still be read. *)
Definition api_failure (r : Response) : Prop :=
  match r with
  | NoResponse _ => False
  | Resp status body_json body_text =>
      400 <= status
      \/ (exists e, body_json = Failed e) /\ (exists t, body_text = Got t)
  end.

(** What [_request_json] returns for an exchange's outcome. *)
Definition request_outcome (r : Response) : result pyval :=
  match r with
  | NoResponse e => Raise (External e)
  | Resp status body_json body_text =>
      if 400 <=? status then Raise IntuisApiError
      else match body_json with
           | Got v => Ok v
           | Failed _ => match body_text with
                         | Got _ => Raise IntuisApiError
                         | Failed e' => Raise (External e')
                         end
           end
  end.

(** [_request_json] makes exactly one exchange, whatever its outcome. *)
Lemma _request_json_run : forall method url json form ct with_auth w,
  _request_json method url json form ct with_auth w
  = (request_outcome (net w (n_requests w)),
     record_request (build_request (auth w) method url json form ct with_auth) w).
Proof.
  intros. unfold _request_json, bind, get_auth, session_request, request_outcome.
  destruct (net w (n_requests w)) as [e|status j t]; [reflexivity|].
  destruct (400 <=? status); [reflexivity|].
  destruct j; [reflexivity|]. destruct t; reflexivity.
Qed.

Lemma request_outcome_api_error : forall r,
  request_outcome r = Raise IntuisApiError <-> api_failure r.
Proof. clear_vars.
  intros [e|status j t]; simpl.
  - split; [discriminate|tauto].
  - destruct (Z.leb_spec 400 status).
    + split; auto.
    + destruct j as [v|e]; [|destruct t as [s|e']]; split;
        try discriminate; try reflexivity; eauto.
      * intros [Hs|[[e He] _]]; [lia|discriminate].
      * intros [Hs|[_ [s Hs]]]; [lia|discriminate].
Qed.

Lemma request_outcome_ok : forall status v t,
  status < 400 -> request_outcome (Resp status (Got v) t) = Ok v.
Proof.
  intros status v t H. simpl.
  destruct (Z.leb_spec 400 status); [lia|reflexivity].
Qed.

(** The exception [_request_json] raises is [IntuisApiError] exactly when the
    exchange is an [api_failure]; a status below 400 with a body [resp.json]
    accepts gives that value. *)
Lemma _request_json_api_error_iff : forall method url json form ct with_auth w,
  fst (_request_json method url json form ct with_auth w) = Raise IntuisApiError
  <-> api_failure (net w (n_requests w)).
Proof.
  intros. rewrite _request_json_run. simpl. apply request_outcome_api_error.
Qed.

(** C8, at the input where it fails: a response with status 200 whose body
    neither [resp.json] nor [resp.text] can decode.  The body cannot be parsed
    as JSON, yet what [_request_json] raises is the decoder's error, not
    [IntuisApiError]: the [resp.text()] of the JSON branch is not guarded, the
    one of the status branch is. *)
Theorem _request_json_undecodable_body :
  forall method url json form ct with_auth net0 clock0,
    let w := world_init (fun n => match n with
                                  | O => Resp 200 (Failed UnicodeDecodeError)
                                              (Failed UnicodeDecodeError)
                                  | S _ => net0 n
                                  end) clock0 in
    fst (_request_json method url json form ct with_auth w)
    = Raise (External UnicodeDecodeError)
    /\ fst (_request_json method url json form ct with_auth w)
       <> Raise IntuisApiError.
Proof.
  intros. rewrite _request_json_run. simpl. split; [reflexivity|discriminate].
Qed.

(* ===================================================================== *)
(** * api.py: the token lifecycle *)
(* ===================================================================== *)

(** The lifetime a token response grants: its numeric [expires_in], or 3600. *)
Definition expiry_delta (d : list (string * pyval)) : result float :=
  let expires_in := get "expires_in" d in
  if is_number expires_in then float_of_number expires_in
  else Ok (float_lit 3600).

(** The tokens held after the response [d] was stored at time [now]. *)
Definition tokens_after (d : list (string * pyval)) (old : AuthState)
    (now delta : float) : AuthState :=
  mkAuth (get "access_token" d)
         (get_default "refresh_token" (refresh_token old) d)
         (Some (float_add now delta)).

Lemma _store_tokens_ok : forall d w delta,
  expiry_delta d = Ok delta ->
  _store_tokens (PDict d) w
  = (Ok tt, set_auth (tokens_after d (auth w) (clock w (n_clock w)) delta) (tick w)).
Proof.
  intros d w delta H. unfold expiry_delta in H.
  unfold _store_tokens, bind, lift, get_auth, put_auth, time_time, tokens_after.
  destruct w as [a c nt ck nr nc tr]. cbn.
  destruct (is_number (get "expires_in" d)); cbn.
  - rewrite H. reflexivity.
  - inversion H; subst. reflexivity.
Qed.

Lemma _store_tokens_not_dict : forall v w,
  is_dict v = false -> fst (_store_tokens v w) = Raise AttributeError.
Proof. intros [] w H; try reflexivity; discriminate. Qed.


Lemma token_valid_true : forall w e,
  py_truthy (access_token (auth w)) = true ->
  expires_at (auth w) = Some e ->
  py_truthy (PFloat e) = true ->
  float_ge (clock w (n_clock w)) (float_sub e (float_lit 60)) = false ->
  token_valid w = (Ok true, tick w).
Proof.
  intros w e Ha He Hz Hge.
  unfold token_valid, bind, get_auth, _token_expiring, ret, time_time.
  cbn. rewrite Ha. cbn. rewrite He.
  destruct e; try discriminate; cbn; now rewrite Hge.
Qed.

Lemma token_valid_no_access : forall w,
  py_truthy (access_token (auth w)) = false -> token_valid w = (Ok false, w).
Proof.
  intros w Ha. unfold token_valid, bind, get_auth. cbn. now rewrite Ha.
Qed.

(** One attempt of [login] on a token response that parses to the dict [d]. *)
Lemma login_once_ok : forall w status d t delta,
  net w (n_requests w) = Resp status (Got (PDict d)) t ->
  status < 400 ->
  expiry_delta d = Ok delta ->
  login_once w
  = (Ok (PDict d),
     set_auth (tokens_after d (auth w) (clock w (n_clock w)) delta)
       (tick (record_request (login_request (auth w)) w))).
Proof.
  intros w status d t delta Hn Hs Hd. unfold login_once.
  erewrite bind_ok; [|rewrite _request_json_run, Hn, request_outcome_ok by assumption;
                      reflexivity].
  erewrite bind_ok; [|apply _store_tokens_ok; eassumption].
  reflexivity.
Qed.

Lemma login_once_api_failure : forall w,
  api_failure (net w (n_requests w)) ->
  login_once w = (Raise IntuisApiError, record_request (login_request (auth w)) w).
Proof.
  intros w H. unfold login_once.
  apply bind_raise. rewrite _request_json_run.
  apply request_outcome_api_error in H. now rewrite H.
Qed.

(** [login] returns on the first attempt that succeeds. *)
Lemma login_first_ok : forall w status d t delta,
  net w (n_requests w) = Resp status (Got (PDict d)) t ->
  status < 400 ->
  expiry_delta d = Ok delta ->
  login w
  = (Ok (PDict d),
     set_auth (tokens_after d (auth w) (clock w (n_clock w)) delta)
       (tick (record_request (login_request (auth w)) w))).
Proof.
  intros w status d t delta Hn Hs Hd. unfold login. cbn [login_loop].
  unfold try_except. now rewrite (login_once_ok w status d t delta Hn Hs Hd).
Qed.

(** The world after a failed attempt of [login]: the request, then the sleep. *)
Definition failed_attempt (attempt : Z) (w : World) : World :=
  slept (1500 * attempt) (record_request (login_request (auth w)) w).

Lemma login_loop_step_failure : forall attempt rest w,
  api_failure (net w (n_requests w)) ->
  login_loop (attempt :: rest) w = login_loop rest (failed_attempt attempt w).
Proof.
  intros attempt rest w H. cbn [login_loop]. unfold try_except.
  rewrite (login_once_api_failure w H). reflexivity.
Qed.

(** [login] gives up after three failed exchanges, and only then. *)
Lemma login_three_failures : forall w,
  api_failure (net w (n_requests w)) ->
  api_failure (net w (S (n_requests w))) ->
  api_failure (net w (S (S (n_requests w)))) ->
  login w
  = (Raise IntuisApiError,
     failed_attempt 3 (failed_attempt 2 (failed_attempt 1 w))).
Proof.
  intros w H0 H1 H2. unfold login.
  rewrite login_loop_step_failure by assumption.
  rewrite login_loop_step_failure by exact H1.
  rewrite login_loop_step_failure by exact H2.
  reflexivity.
Qed.

Lemma login_retry_ok : forall w status d t delta,
  api_failure (net w (n_requests w)) ->
  net w (S (n_requests w)) = Resp status (Got (PDict d)) t ->
  status < 400 ->
  expiry_delta d = Ok delta ->
  fst (login w) = Ok (PDict d)
  /\ n_requests (snd (login w)) = S (S (n_requests w)).
Proof.
  intros w status d t delta H0 H1 Hs Hd. unfold login.
  rewrite login_loop_step_failure by assumption.
  cbn [login_loop]. unfold try_except.
  rewrite (login_once_ok (failed_attempt 1 w) status d t delta H1 Hs Hd).
  split; reflexivity.
Qed.


Lemma _refresh_api_failure : forall w,
  py_truthy (refresh_token (auth w)) = true ->
  api_failure (net w (n_requests w)) ->
  _refresh w
  = (Raise IntuisApiError, record_request (refresh_request (auth w)) w).
Proof.
  intros w Hr H. unfold _refresh. rewrite bind_get_auth, Hr. cbn [negb].
  apply bind_raise. rewrite _request_json_run.
  apply request_outcome_api_error in H. now rewrite H.
Qed.

(** The four ways through [ensure_token]. *)
Lemma ensure_token_valid : forall w w1,
  token_valid w = (Ok true, w1) -> ensure_token w = (Ok tt, w1).
Proof.
  intros w w1 H. unfold ensure_token. now rewrite (bind_ok _ _ _ _ _ _ _ H).
Qed.


Lemma ensure_token_refresh_fallback : forall w w1,
  token_valid w = (Ok false, w1) ->
  py_truthy (refresh_token (auth w1)) = true ->
  api_failure (net w1 (n_requests w1)) ->
  ensure_token w
  = (login ;;; ret tt) (record_request (refresh_request (auth w1)) w1).
Proof.
  intros w w1 Hv Hr Hf. unfold ensure_token.
  rewrite (bind_ok _ _ _ _ _ _ _ Hv), bind_get_auth, Hr.
  unfold try_except.
  erewrite bind_raise; [|eapply _refresh_api_failure; eassumption]. reflexivity.
Qed.



(** Whatever is held, a client whose token is valid for every reading of the
    clock only reads the clock in [ensure_token]. *)
Definition token_fresh (w : World) : Prop :=
  exists e,
    py_truthy (access_token (auth w)) = true
    /\ expires_at (auth w) = Some e
    /\ py_truthy (PFloat e) = true
    /\ forall i, float_ge (clock w i) (float_sub e (float_lit 60)) = false.

Lemma token_fresh_tick : forall w, token_fresh w -> token_fresh (tick w).
Proof. intros w [e H]. exists e. exact H. Qed.

Lemma token_fresh_record : forall rq w,
  token_fresh w -> token_fresh (record_request rq w).
Proof. intros rq w [e H]. exists e. exact H. Qed.

Lemma ensure_token_fresh : forall w,
  token_fresh w -> ensure_token w = (Ok tt, tick w).
Proof.
  intros w [e [Ha [He [Hz Hge]]]]. apply ensure_token_valid.
  apply token_valid_true with e; auto.
Qed.

(** A call made of [ensure_token] and one [_request_json], under a fresh
    token: one exchange, and its outcome is the call's. *)
Lemma authorized_request_run : forall method url json form ct w,
  token_fresh w ->
  (ensure_token ;;; _request_json method url json form ct true) w
  = (request_outcome (net w (n_requests w)),
     record_request
       (build_request (auth w) method url json form ct true) (tick w)).
Proof.
  intros. erewrite bind_ok; [|apply ensure_token_fresh; assumption].
  now rewrite _request_json_run.
Qed.

(* ===================================================================== *)
(** * coordinator.py *)
(* ===================================================================== *)

(** Every exception of a poll leaves [_async_update_data] as [UpdateFailed]. *)
Lemma _async_update_data_raises_update_failed : forall w e w',
  _async_update_data w = (Raise e, w') -> e = UpdateFailed.
Proof.
  intros w e w' H. unfold _async_update_data, try_except in H.
  destruct (update_body w) as [[d|e0] w1]; [discriminate|].
  cbn in H. now inversion H.
Qed.

Lemma _async_update_data_surfaces : forall w e w1,
  update_body w = (Raise e, w1) ->
  _async_update_data w = (Raise UpdateFailed, w1).
Proof.
  intros w e w1 H. unfold _async_update_data, try_except. now rewrite H.
Qed.

(** The dict a successful poll returns has the three keys [home_id], [status]
    and [measures], and [home_id] is a string. *)
Lemma _async_update_data_shape : forall w d w',
  _async_update_data w = (Ok d, w') ->
  exists hid status measures,
    d = PDict [("home_id", PStr hid); ("status", status); ("measures", measures)].
Proof.
  intros w d w' H. unfold _async_update_data, try_except in H.
  destruct (update_body w) as [[d0|e0] w1] eqn:E; [|discriminate].
  inversion H; subst. unfold update_body in E.
  apply bind_ok_inv in E as [_ [w2 [_ E]]].
  apply bind_ok_inv in E as [hid [w3 [_ E]]].
  apply bind_ok_inv in E as [status [w4 [_ E]]].
  apply bind_ok_inv in E as [measures [w5 [_ E]]].
  inversion E. eauto.
Qed.

Lemma authorized_request_failure : forall method url json form ct w,
  token_fresh w ->
  api_failure (net w (n_requests w)) ->
  (ensure_token ;;; _request_json method url json form ct true) w
  = (Raise IntuisApiError,
     record_request
       (build_request (auth w) method url json form ct true) (tick w)).
Proof.
  intros. rewrite authorized_request_run by assumption.
  apply request_outcome_api_error in H0. now rewrite H0.
Qed.

Lemma get_homesdata_failure : forall w,
  token_fresh w ->
  api_failure (net w (n_requests w)) ->
  exists rq, get_homesdata w = (Raise IntuisApiError, record_request rq (tick w)).
Proof.
  intros w Hf Ha. unfold get_homesdata.
  erewrite bind_ok; [|apply ensure_token_fresh; assumption].
  eexists. apply bind_raise. rewrite _request_json_run.
  apply request_outcome_api_error in Ha. cbn. rewrite Ha. reflexivity.
Qed.

Lemma get_home_failure : forall w,
  home_cache w = PNone ->
  token_fresh w ->
  api_failure (net w (n_requests w)) ->
  exists rq, get_home w = (Raise IntuisApiError, record_request rq (tick w)).
Proof.
  intros w Hc Hf Ha. unfold get_home, bind at 1, get_cache. rewrite Hc.
  destruct (get_homesdata_failure w Hf Ha) as [rq Hrq].
  exists rq. now apply bind_raise.
Qed.

(** With a usable id in the cached home, [get_home_id] answers from it. *)
Lemma get_home_id_cached : forall w d,
  home_cache w = PDict d ->
  str_nonempty (home_id_of d) = true ->
  get_home_id w = (Ok (home_id_of d), w).
Proof.
  intros w d Hc Hid. unfold get_home_id, bind, get_cache. rewrite Hc.
  assert (py_truthy (PDict d) = true) as Ht.
  { destruct d; [|reflexivity]. discriminate. }
  rewrite Ht. cbn. now rewrite Hid.
Qed.

Definition measure_form (hid : string) (with_type : bool) : list (string * string) :=
  ([("home_id", hid); ("scale", "day"); ("offset", "0"); ("limit", "30")]
   ++ (if with_type then [("type", "energy")] else []))%list.

(** Under a fresh token, [homestatus] and [gethomemeasure] with a home id are
    one reading of the clock and one exchange. *)
Lemma homestatus_run : forall hid w,
  token_fresh w ->
  py_truthy hid = true ->
  homestatus hid w
  = (request_outcome (net w (n_requests w)),
     record_request
       (build_request (auth w) "POST" (BASE_HOST ++ "/syncapi/v1/homestatus")
          None (Some [("home_id", hid)]) form_ct true) (tick w)).
Proof.
  intros hid w Hf Hh. unfold homestatus, home_id_or_cached. rewrite Hh.
  erewrite bind_ok; [|reflexivity]. unfold post_homestatus.
  now rewrite authorized_request_run.
Qed.

Definition measure_fields (hid scale offset limit rtype : pyval)
  : list (string * pyval) :=
  ([("home_id", hid); ("scale", scale); ("offset", offset); ("limit", limit)]
   ++ (if py_truthy rtype then [("type", rtype)] else []))%list.

Lemma gethomemeasure_run : forall hid scale offset limit rtype w,
  token_fresh w ->
  py_truthy hid = true ->
  gethomemeasure hid scale offset limit rtype w
  = (request_outcome (net w (n_requests w)),
     record_request
       (build_request (auth w) "POST" (BASE_HOST ++ "/api/gethomemeasure")
          None (Some (measure_fields hid scale offset limit rtype)) form_ct true)
       (tick w)).
Proof.
  intros hid scale offset limit rtype w Hf Hh.
  unfold gethomemeasure, home_id_or_cached. rewrite Hh.
  erewrite bind_ok; [|reflexivity]. unfold post_gethomemeasure.
  now rewrite authorized_request_run.
Qed.

(** The coordinator's own recovery: when the energy measurement fails with
    [IntuisApiError], the poll asks again without the type and succeeds. *)
Lemma poll_retries_measure : forall w d status measures st1 t1 st3 t3,
  token_fresh w ->
  home_cache w = PDict d ->
  str_nonempty (home_id_of d) = true ->
  net w (n_requests w) = Resp st1 (Got status) t1 -> st1 < 400 ->
  api_failure (net w (S (n_requests w))) ->
  net w (S (S (n_requests w))) = Resp st3 (Got measures) t3 -> st3 < 400 ->
  exists w' rq1 rq2 rq3,
    _async_update_data w
    = (Ok (PDict [("home_id", PStr (home_id_of d)); ("status", status);
                  ("measures", measures)]), w')
    /\ requests_of (trace w') = (requests_of (trace w) ++ [rq1; rq2; rq3])%list
    /\ rq_form rq2 = Some (measure_form (home_id_of d) true)
    /\ rq_form rq3 = Some (measure_form (home_id_of d) false).
Proof.
  intros w d status measures st1 t1 st3 t3 Hf Hc Hid H1 Hs1 H2 H3 Hs3.
  apply request_outcome_api_error in H2.
  unfold _async_update_data, try_except at 1, update_body, async_authenticate.
  erewrite bind_ok; [|apply ensure_token_fresh; assumption].
  erewrite bind_ok; [|apply get_home_id_cached; [exact Hc|exact Hid]].
  set (w1 := tick w). assert (Hf1 : token_fresh w1) by now apply token_fresh_tick.
  erewrite bind_ok.
  2:{ rewrite homestatus_run by assumption. cbn [net n_requests w1 tick].
      rewrite H1, request_outcome_ok by assumption. reflexivity. }
  set (w2 := record_request _ (tick w1)).
  assert (Hf2 : token_fresh w2)
    by now apply token_fresh_record, token_fresh_tick.
  erewrite bind_ok.
  2:{ unfold try_except. rewrite gethomemeasure_run by assumption.
      cbn [net n_requests w2 w1 tick record_request]. rewrite H2.
      cbn [is_api_error].
      rewrite gethomemeasure_run
        by (try apply token_fresh_record; try apply token_fresh_tick; assumption).
      cbn [net n_requests w2 w1 tick record_request].
      rewrite H3, request_outcome_ok by assumption. reflexivity. }
  do 4 eexists. split; [reflexivity|].
  cbn. rewrite <- !app_assoc. cbn. repeat split; reflexivity.
Qed.

(** C4, as the code has it.  A poll's failure always leaves the coordinator as
    [UpdateFailed]; [_request_json] makes one exchange and raises
    [IntuisApiError] exactly on an [api_failure]; under a fresh token the data
    calls raise it after that one exchange, with no second try.  Three
    recoveries are the code's own: [login] tries the token request again after
    a failure and gives up only after three, [ensure_token] goes on with the
    login when the refresh grant fails, and the poll repeats the measurement
    without its type when the first one fails. *)
Theorem failure_handling : forall w,
  (forall e w', _async_update_data w = (Raise e, w') -> e = UpdateFailed)
  /\ (forall method url json form ct with_auth,
        n_requests (snd (_request_json method url json form ct with_auth w))
        = S (n_requests w)
        /\ (fst (_request_json method url json form ct with_auth w)
            = Raise IntuisApiError
            <-> api_failure (net w (n_requests w))))
  /\ (token_fresh w ->
      api_failure (net w (n_requests w)) ->
      (forall hid, py_truthy hid = true ->
         fst (homestatus hid w) = Raise IntuisApiError
         /\ n_requests (snd (homestatus hid w)) = S (n_requests w))
      /\ (forall hid scale offset limit rtype, py_truthy hid = true ->
         fst (gethomemeasure hid scale offset limit rtype w) = Raise IntuisApiError
         /\ n_requests (snd (gethomemeasure hid scale offset limit rtype w))
            = S (n_requests w))
      /\ (forall hid sid,
         fst (switch_home_schedule hid sid w) = Raise IntuisApiError
         /\ n_requests (snd (switch_home_schedule hid sid w)) = S (n_requests w))
      /\ (home_cache w = PNone ->
         fst (get_home w) = Raise IntuisApiError
         /\ n_requests (snd (get_home w)) = S (n_requests w)))
  /\ (api_failure (net w (n_requests w)) ->
      api_failure (net w (S (n_requests w))) ->
      api_failure (net w (S (S (n_requests w)))) ->
      login w
      = (Raise IntuisApiError,
         failed_attempt 3 (failed_attempt 2 (failed_attempt 1 w))))
  /\ (forall status d t delta,
        api_failure (net w (n_requests w)) ->
        net w (S (n_requests w)) = Resp status (Got (PDict d)) t ->
        status < 400 ->
        expiry_delta d = Ok delta ->
        fst (login w) = Ok (PDict d)
        /\ n_requests (snd (login w)) = S (S (n_requests w)))
  /\ (forall w1,
        token_valid w = (Ok false, w1) ->
        py_truthy (refresh_token (auth w1)) = true ->
        api_failure (net w1 (n_requests w1)) ->
        ensure_token w
        = (login ;;; ret tt) (record_request (refresh_request (auth w1)) w1))
  /\ (forall d status measures st1 t1 st3 t3,
        token_fresh w ->
        home_cache w = PDict d ->
        str_nonempty (home_id_of d) = true ->
        net w (n_requests w) = Resp st1 (Got status) t1 -> st1 < 400 ->
        api_failure (net w (S (n_requests w))) ->
        net w (S (S (n_requests w))) = Resp st3 (Got measures) t3 -> st3 < 400 ->
        exists w' rq1 rq2 rq3,
          _async_update_data w
          = (Ok (PDict [("home_id", PStr (home_id_of d)); ("status", status);
                        ("measures", measures)]), w')
          /\ requests_of (trace w') = (requests_of (trace w) ++ [rq1; rq2; rq3])%list
          /\ rq_form rq2 = Some (measure_form (home_id_of d) true)
          /\ rq_form rq3 = Some (measure_form (home_id_of d) false)).
Proof.
  intro w.
  split; [apply _async_update_data_raises_update_failed|].
  split.
  { intros. split; [now rewrite _request_json_run|].
    apply _request_json_api_error_iff. }
  split.
  { intros Hf Ha. pose proof Ha as Ha'.
    apply request_outcome_api_error in Ha'. repeat split; intros.
    - rewrite homestatus_run by assumption. now rewrite Ha'.
    - now rewrite homestatus_run by assumption.
    - rewrite gethomemeasure_run by assumption. now rewrite Ha'.
    - now rewrite gethomemeasure_run by assumption.
    - unfold switch_home_schedule, post_switchhomeschedule.
      now rewrite authorized_request_failure.
    - unfold switch_home_schedule, post_switchhomeschedule.
      now rewrite authorized_request_failure.
    - destruct (get_home_failure w H Hf Ha) as [rq Hrq]. now rewrite Hrq.
    - destruct (get_home_failure w H Hf Ha) as [rq Hrq]. now rewrite Hrq. }
  split; [apply login_three_failures|].
  split; [intros; eapply login_retry_ok; eassumption|].
  split; [intros; now apply ensure_token_refresh_fallback|].
  intros. eapply poll_retries_measure; eassumption.
Qed.

(* ===================================================================== *)
(** * api.py: the cached home *)
(* ===================================================================== *)

(** A computation that never writes [_home_cache]. *)
Definition keeps_cache {A} (c : M A) : Prop :=
  forall w, home_cache (snd (c w)) = home_cache w.

Lemma keeps_ret : forall A (a : A), keeps_cache (ret a).
Proof. intros A a w. reflexivity. Qed.
Lemma keeps_raise : forall A e, keeps_cache (@raise A e).
Proof. intros A e w. reflexivity. Qed.
Lemma keeps_lift : forall A (r : result A), keeps_cache (lift r).
Proof. intros A r w. reflexivity. Qed.
Lemma keeps_get_auth : keeps_cache get_auth.
Proof. intro w. reflexivity. Qed.
Lemma keeps_put_auth : forall a, keeps_cache (put_auth a).
Proof. intros a w. reflexivity. Qed.
Lemma keeps_time_time : keeps_cache time_time.
Proof. intro w. reflexivity. Qed.
Lemma keeps_sleep : forall ms, keeps_cache (sleep ms).
Proof. intros ms w. reflexivity. Qed.
Lemma keeps_session_request : forall rq, keeps_cache (session_request rq).
Proof. intros rq w. reflexivity. Qed.

Lemma keeps_bind : forall A B (c : M A) (k : A -> M B),
  keeps_cache c -> (forall a, keeps_cache (k a)) -> keeps_cache (bind c k).
Proof.
  intros A B c k Hc Hk w. unfold bind. specialize (Hc w).
  destruct (c w) as [[a|e] w1]; cbn in *; [|assumption].
  now rewrite Hk.
Qed.

Lemma keeps_try_except : forall A (c h : M A) handled,
  keeps_cache c -> keeps_cache h -> keeps_cache (try_except c handled h).
Proof.
  intros A c h handled Hc Hh w. unfold try_except. specialize (Hc w).
  destruct (c w) as [[a|e] w1]; cbn in *; [assumption|].
  destruct (handled e); cbn; [now rewrite Hh|assumption].
Qed.

Create HintDb keeps.
#[local] Hint Resolve keeps_ret keeps_raise keeps_lift keeps_get_auth keeps_put_auth
  keeps_time_time keeps_sleep keeps_session_request : keeps.

Ltac keeps_step :=
  first
    [ solve [auto with keeps]
    | apply keeps_bind; [|intro]
    | apply keeps_try_except
    | match goal with
      | |- keeps_cache (match ?x with _ => _ end) => destruct x
      | |- keeps_cache (if ?x then _ else _) => destruct x
      | |- keeps_cache (let _ := _ in _) => cbv zeta
      end ].
Ltac keeps := repeat keeps_step.

Lemma keeps__request_json : forall method url json form ct with_auth,
  keeps_cache (_request_json method url json form ct with_auth).
Proof. intros. unfold _request_json. keeps. Qed.
#[local] Hint Resolve keeps__request_json : keeps.

Lemma keeps__token_expiring : keeps_cache _token_expiring.
Proof. unfold _token_expiring. keeps. Qed.
#[local] Hint Resolve keeps__token_expiring : keeps.

Lemma keeps_token_valid : keeps_cache token_valid.
Proof. unfold token_valid. keeps. Qed.
#[local] Hint Resolve keeps_token_valid : keeps.

Lemma keeps__store_tokens : forall data, keeps_cache (_store_tokens data).
Proof. intro data. unfold _store_tokens. keeps. Qed.
#[local] Hint Resolve keeps__store_tokens : keeps.

Lemma keeps_login_once : keeps_cache login_once.
Proof. unfold login_once. keeps. Qed.
#[local] Hint Resolve keeps_login_once : keeps.

Lemma keeps_login_loop : forall attempts, keeps_cache (login_loop attempts).
Proof. induction attempts; cbn [login_loop]; keeps. Qed.
#[local] Hint Resolve keeps_login_loop : keeps.

Lemma keeps_login : keeps_cache login.
Proof. unfold login. keeps. Qed.
#[local] Hint Resolve keeps_login : keeps.

Lemma keeps__refresh : keeps_cache _refresh.
Proof. unfold _refresh. keeps. Qed.
#[local] Hint Resolve keeps__refresh : keeps.

Lemma keeps_ensure_token : keeps_cache ensure_token.
Proof. unfold ensure_token. keeps. Qed.
#[local] Hint Resolve keeps_ensure_token : keeps.

Lemma keeps_get_homesdata : keeps_cache get_homesdata.
Proof. unfold get_homesdata. keeps. Qed.
#[local] Hint Resolve keeps_get_homesdata : keeps.

Lemma keeps_post_homestatus : forall hid, keeps_cache (post_homestatus hid).
Proof. intro. unfold post_homestatus. keeps. Qed.

Lemma keeps_post_getconfigs : keeps_cache post_getconfigs.
Proof. unfold post_getconfigs. keeps. Qed.

Lemma keeps_post_gethomemeasure : forall hid scale offset limit rtype,
  keeps_cache (post_gethomemeasure hid scale offset limit rtype).
Proof. intros. unfold post_gethomemeasure. keeps. Qed.

Lemma keeps_post_setroomthermpoint : forall hid rid mode temp endtime,
  keeps_cache (post_setroomthermpoint hid rid mode temp endtime).
Proof. intros. unfold post_setroomthermpoint. keeps. Qed.

Lemma keeps_post_setstate_rooms : forall hid rid mode temp endtime,
  keeps_cache (post_setstate_rooms hid rid mode temp endtime).
Proof. intros. unfold post_setstate_rooms. keeps. Qed.

Lemma keeps_post_switchhomeschedule : forall hid sid,
  keeps_cache (post_switchhomeschedule hid sid).
Proof. intros. unfold post_switchhomeschedule. keeps. Qed.

#[local] Hint Resolve keeps_post_homestatus keeps_post_getconfigs
  keeps_post_gethomemeasure keeps_post_setroomthermpoint
  keeps_post_setstate_rooms keeps_post_switchhomeschedule : keeps.

Lemma lookup_dict_set : forall k v d, lookup k (dict_set k v d) = Some v.
Proof.
  intros k v d. induction d as [|[k' v'] d IH]; cbn.
  - now rewrite String.eqb_refl.
  - destruct (String.eqb k k') eqn:E; cbn; rewrite E; [reflexivity|exact IH].
Qed.

(** What the cache holds: nothing, or a dict whose [id] is a non-empty string
    (already stripped). *)
Definition cache_ok (c : pyval) : Prop :=
  c = PNone
  \/ exists d hid,
       c = PDict d /\ lookup "id" d = Some (PStr hid)
       /\ hid <> "" /\ strip hid = hid.

(** The calls of [IntuisApi]. *)
Inductive api_call : Type :=
| CallAuthenticate
| CallLogin
| CallGetHomeId
| CallGetHome
| CallHomestatus (home_id : pyval)
| CallGetHomeMeasure (home_id scale offset limit rtype : pyval)
| CallSetRoomSetpoint (home_id room_id temp duration : pyval)
| CallSetRoomMode (home_id room_id mode temp endtime : pyval) (use_setstate : bool)
| CallSwitchHomeSchedule (home_id schedule_id : pyval).

(** The world a call leaves, returned or raised. *)
Definition run_call (c : api_call) (w : World) : World :=
  match c with
  | CallAuthenticate => snd (async_authenticate w)
  | CallLogin => snd (api_login w)
  | CallGetHomeId => snd (get_home_id w)
  | CallGetHome => snd (get_home w)
  | CallHomestatus h => snd (homestatus h w)
  | CallGetHomeMeasure h s o l r => snd (gethomemeasure h s o l r w)
  | CallSetRoomSetpoint h r t d => snd (set_room_setpoint h r t d w)
  | CallSetRoomMode h r m t e u => snd (set_room_mode h r m t e u w)
  | CallSwitchHomeSchedule h s => snd (switch_home_schedule h s w)
  end.

Definition run_calls (calls : list api_call) (w : World) : World :=
  fold_left (fun w c => run_call c w) calls w.

Lemma cached_id_readback : forall d hid,
  lookup "id" d = Some (PStr hid) -> hid <> "" -> strip hid = hid ->
  str_nonempty (strip (py_str (get_default "id" (PStr "") d))) = true
  /\ home_id_of d = hid.
Proof.
  intros d hid Hl Hne Hs.
  assert (str_nonempty hid = true) as Ht by now apply str_nonempty_true.
  split.
  - unfold get_default. rewrite Hl. cbn. rewrite Hs. exact Ht.
  - unfold home_id_of, id_candidate, get, get_default. rewrite Hl.
    unfold py_or. do 3 (cbn [py_truthy py_str]; rewrite ?Ht). exact Hs.
Qed.

(** With a good cache, [get_home] and [get_home_id] answer from it and touch
    nothing. *)
Lemma get_home_cached : forall w d hid,
  home_cache w = PDict d ->
  lookup "id" d = Some (PStr hid) -> hid <> "" -> strip hid = hid ->
  get_home w = (Ok (PDict d), w) /\ get_home_id w = (Ok hid, w).
Proof.
  intros w d hid Hc Hl Hne Hs.
  destruct (cached_id_readback d hid Hl Hne Hs) as [H1 H2]. split.
  - unfold get_home, bind, get_cache. rewrite Hc, H1. reflexivity.
  - rewrite <- H2. apply get_home_id_cached; [assumption|].
    rewrite H2. now apply str_nonempty_true.
Qed.

Lemma get_home_uncached : forall w,
  home_cache w = PNone -> get_home w = fetch_home w.
Proof.
  intros w Hn. unfold get_home, bind, get_cache. now rewrite Hn.
Qed.

(** [get_home] writes the cache only when it returns, and then with a dict
    whose [id] is the stripped, non-empty home id. *)
Lemma fetch_home_cache : forall w,
  (forall v w', fetch_home w = (Ok v, w') -> cache_ok (home_cache w'))
  /\ (forall e w', fetch_home w = (Raise e, w') -> home_cache w' = home_cache w).
Proof.
  intro w. unfold fetch_home, bind. pose proof (keeps_get_homesdata w) as Hk.
  destruct (get_homesdata w) as [[payload|e] w1]; cbn in Hk.
  2:{ split; intros; [discriminate|]. inversion H; subst. exact Hk. }
  unfold lift.
  destruct (_extract_home_from_homesdata payload) as [home|e].
  2:{ split; intros; [discriminate|]. inversion H; subst. exact Hk. }
  unfold cache_home.
  destruct home; try (split; intros v w' H; [discriminate|];
                      inversion H; subst; exact Hk).
  destruct (str_nonempty (home_id_of entries)) eqn:E; cbn.
  - split; intros v w' H; [|discriminate]. inversion H; subst. cbn.
    right. exists (dict_set "id" (PStr (home_id_of entries)) entries),
             (home_id_of entries).
    repeat split.
    + apply lookup_dict_set.
    + now apply str_nonempty_true.
    + unfold home_id_of. apply strip_idem.
  - split; intros v w' H; [discriminate|]. inversion H; subst. exact Hk.
Qed.

Lemma get_home_cache : forall w,
  cache_ok (home_cache w) ->
  cache_ok (home_cache (snd (get_home w)))
  /\ (forall e, fst (get_home w) = Raise e ->
                home_cache (snd (get_home w)) = home_cache w)
  /\ (forall d, home_cache w = PDict d -> snd (get_home w) = w).
Proof.
  intros w Hok.
  destruct Hok as [Hn|[d [hid [Hc [Hl [Hne Hs]]]]]].
  2:{ destruct (get_home_cached w d hid Hc Hl Hne Hs) as [H _]. rewrite H. cbn.
      repeat split; try discriminate; auto.
      right. exists d, hid. auto. }
  rewrite (get_home_uncached w Hn).
  destruct (fetch_home_cache w) as [Hv He].
  destruct (fetch_home w) as [[v|e] w'] eqn:E; cbn; (split; [|split]).
  - eapply Hv; reflexivity.
  - discriminate.
  - intros d Hd; congruence.
  - left. rewrite (He e w' eq_refl). exact Hn.
  - intros e0 _. now apply He with e.
  - intros d Hd; congruence.
Qed.

Lemma keeps_home_id_or_cached_ok : forall h w,
  cache_ok (home_cache w) ->
  cache_ok (home_cache (snd (get_home_id w))) ->
  cache_ok (home_cache (snd (home_id_or_cached h w))).
Proof.
  intros h w Hok Hid. unfold home_id_or_cached.
  destruct (py_truthy h); [exact Hok|].
  unfold bind. destruct (get_home_id w) as [[hid|e] w1]; cbn in *; assumption.
Qed.

Lemma get_home_id_cache : forall w,
  cache_ok (home_cache w) ->
  cache_ok (home_cache (snd (get_home_id w)))
  /\ (forall d, home_cache w = PDict d -> snd (get_home_id w) = w).
Proof.
  intros w Hok.
  destruct Hok as [Hn|[d [hid [Hc [Hl [Hne Hs]]]]]].
  2:{ destruct (get_home_cached w d hid Hc Hl Hne Hs) as [_ H]. rewrite H. cbn.
      split; [|auto]. right. exists d, hid. auto. }
  split; [|intros d Hd; congruence].
  unfold get_home_id, bind at 1, get_cache. rewrite Hn. cbn [py_truthy].
  unfold bind at 1, ret. cbn [str_nonempty].
  destruct (get_home_cache w (or_introl Hn)) as [H _].
  unfold bind. destruct (get_home w) as [[home|e] w1]; cbn in *; [|exact H].
  destruct home; try exact H.
  destruct (str_nonempty (home_id_of entries)); exact H.
Qed.

(** A call that keeps the cache good, and keeps a cached home as it is. *)
Definition good_call {A} (c : M A) : Prop :=
  forall w, cache_ok (home_cache w) ->
    cache_ok (home_cache (snd (c w)))
    /\ (forall d, home_cache w = PDict d -> home_cache (snd (c w)) = PDict d).

Lemma good_of_keeps : forall A (c : M A), keeps_cache c -> good_call c.
Proof.
  intros A c Hk w Hok. rewrite (Hk w). auto.
Qed.

Lemma good_bind_keeps : forall A B (c : M A) (k : A -> M B),
  good_call c -> (forall a, keeps_cache (k a)) -> good_call (bind c k).
Proof.
  intros A B c k Hc Hk w Hok. destruct (Hc w Hok) as [H1 H2]. unfold bind.
  destruct (c w) as [[a|e] w1]; cbn in *; [|auto].
  rewrite (Hk a w1). auto.
Qed.

Lemma good_get_home : good_call get_home.
Proof.
  intros w Hok. destruct (get_home_cache w Hok) as [H1 [_ H3]].
  split; [exact H1|]. intros d Hd. now rewrite (H3 d Hd).
Qed.

Lemma good_get_home_id : good_call get_home_id.
Proof.
  intros w Hok. destruct (get_home_id_cache w Hok) as [H1 H2].
  split; [exact H1|]. intros d Hd. now rewrite (H2 d Hd).
Qed.

Lemma good_home_id_or_cached : forall h, good_call (home_id_or_cached h).
Proof.
  intro h. unfold home_id_or_cached. destruct (py_truthy h).
  - apply good_of_keeps. keeps.
  - apply good_bind_keeps; [apply good_get_home_id|]. intro. keeps.
Qed.

Lemma run_call_good : forall c w,
  cache_ok (home_cache w) ->
  cache_ok (home_cache (run_call c w))
  /\ (forall d, home_cache w = PDict d -> home_cache (run_call c w) = PDict d).
Proof.
  intros c w Hok. destruct c; cbn [run_call].
  - apply (good_of_keeps _ _ keeps_ensure_token w Hok).
  - apply (good_of_keeps _ _ keeps_login w Hok).
  - apply (good_get_home_id w Hok).
  - apply (good_get_home w Hok).
  - refine (good_bind_keeps _ _ _ _ (good_home_id_or_cached _) _ w Hok).
    intro. keeps.
  - refine (good_bind_keeps _ _ _ _ (good_home_id_or_cached _) _ w Hok).
    intro. keeps.
  - refine (good_of_keeps _ _ _ w Hok). unfold set_room_setpoint. keeps.
  - refine (good_of_keeps _ _ _ w Hok). unfold set_room_mode. keeps.
  - refine (good_of_keeps _ _ _ w Hok). unfold switch_home_schedule. keeps.
Qed.

Lemma run_calls_good : forall calls w,
  cache_ok (home_cache w) ->
  cache_ok (home_cache (run_calls calls w))
  /\ (forall d, home_cache w = PDict d -> home_cache (run_calls calls w) = PDict d).
Proof.
  induction calls as [|c calls IH]; intros w Hok; [auto|].
  cbn [run_calls fold_left]. destruct (run_call_good c w Hok) as [H1 H2].
  destruct (IH _ H1) as [H3 H4]. split; [exact H3|].
  intros d Hd. apply H4. now apply H2.
Qed.

(** C9. After any calls of [IntuisApi] on a new client, the cache is unset or
    a dict whose [id] is a non-empty string; once a home is cached,
    [get_home] returns that dict and [get_home_id] that id with the world
    untouched (no request), whatever calls follow; and a [get_home] that
    raises leaves the cache as it was, unset when it was unset. *)
Theorem home_cache_invariant : forall net0 clock0 calls,
  let w := run_calls calls (world_init net0 clock0) in
  cache_ok (home_cache w)
  /\ (forall d, home_cache w = PDict d ->
        exists hid,
          lookup "id" d = Some (PStr hid) /\ hid <> ""
          /\ forall later,
               let w' := run_calls later w in
               home_cache w' = PDict d
               /\ get_home w' = (Ok (PDict d), w')
               /\ get_home_id w' = (Ok hid, w'))
  /\ (forall e w', get_home w = (Raise e, w') -> home_cache w' = home_cache w).
Proof.
  intros net0 clock0 calls w.
  assert (Hok : cache_ok (home_cache w)).
  { apply run_calls_good. now left. }
  split; [exact Hok|]. split.
  - intros d Hd. destruct Hok as [Hn|[d' [hid [Hc [Hl [Hne Hs]]]]]]; [congruence|].
    assert (d' = d) by congruence. subst d'.
    exists hid. repeat split; auto.
    + apply run_calls_good; [right; exists d, hid; auto|exact Hd].
    + apply (get_home_cached _ d hid); auto.
      apply run_calls_good; [right; exists d, hid; auto|exact Hd].
    + apply (get_home_cached _ d hid); auto.
      apply run_calls_good; [right; exists d, hid; auto|exact Hd].
  - intros e w' H. destruct (get_home_cache w Hok) as [_ [H2 _]].
    specialize (H2 e). rewrite H in H2. now apply H2.
Qed.

Local Close Scope m_scope.
Local Open Scope res_scope.

(* ===================================================================== *)
(** * The platforms: what a room exposes *)
(* ===================================================================== *)

(** [climate._find_room_in_payload] returns the first record of
    [body.home.rooms] whose [id] reads as the room id. *)
Lemma climate_for_first_found : forall rid before r after,
  Forall (fun x => exists d, x = PDict d /\ py_str (get "id" d) <> rid) before ->
  py_str (get "id" r) = rid ->
  for_first (climate_room_matches (PStr rid)) (before ++ PDict r :: after)%list
  = Ok (Some (PDict r)).
Proof.
  intros rid before r after Hb Hr. induction Hb as [|x l [d [Hx Hd]] _ IH]; cbn.
  - unfold climate_room_matches. cbn. rewrite Hr, String.eqb_refl. reflexivity.
  - subst x. unfold climate_room_matches at 1. cbn.
    apply String.eqb_neq in Hd. rewrite Hd. exact IH.
Qed.

Lemma climate_find_room_in_status : forall st body home rid before r after,
  get "body" st = PDict body ->
  get "home" body = PDict home ->
  lookup "rooms" home = Some (PList (before ++ PDict r :: after)%list) ->
  Forall (fun x => exists d, x = PDict d /\ py_str (get "id" d) <> rid) before ->
  py_str (get "id" r) = rid ->
  climate_find_room_in_payload (PDict st) (PStr rid) = Ok (PDict r).
Proof.
  intros st body home rid before r after Hb Hh Hl Hbefore Hr.
  unfold climate_find_room_in_payload. rewrite Hb, Hh.
  unfold get_default. rewrite Hl. cbn [py_iter rbind].
  now rewrite (climate_for_first_found rid before r after Hbefore Hr).
Qed.

(** The room id [sensor.py] reads off a room record. *)
Definition sensor_room_id (r : list (string * pyval)) : string :=
  py_str (py_or (py_or (get "id" r) (get "_id" r)) (PStr "")).

Lemma sensor_for_first_found : forall rid before r after,
  Forall (fun x => exists d, x = PDict d /\ sensor_room_id d <> rid) before ->
  sensor_room_id r = rid ->
  for_first (sensor_room_matches rid) (before ++ PDict r :: after)%list
  = Ok (Some (PDict r)).
Proof.
  intros rid before r after Hb Hr. induction Hb as [|x l [d [Hx Hd]] _ IH]; cbn.
  - unfold sensor_room_matches. cbn. fold (sensor_room_id r).
    rewrite Hr, String.eqb_refl. reflexivity.
  - subst x. unfold sensor_room_matches at 1. cbn. fold (sensor_room_id d).
    apply String.eqb_neq in Hd. rewrite Hd. exact IH.
Qed.

Lemma sensor_find_room_in_status : forall st body home rid before r after,
  get "body" st = PDict body ->
  get "home" body = PDict home ->
  get "rooms" home = PList (before ++ PDict r :: after)%list ->
  Forall (fun x => exists d, x = PDict d /\ sensor_room_id d <> rid) before ->
  sensor_room_id r = rid ->
  sensor_find_room_in_payload (PDict st) rid = Ok (PDict r).
Proof.
  intros st body home rid before r after Hb Hh Hl Hbefore Hr.
  unfold sensor_find_room_in_payload. rewrite Hb, Hh, Hl. cbn [rbind].
  now rewrite (sensor_for_first_found rid before r after Hbefore Hr).
Qed.



Definition room_temp_sensor (home_id : pyval) (rid : string) (room_name : pyval)
    (suffix label : string) (f : float) : SensorEntity :=
  mkSensor IntuisRoomTempSensor
    ("intuis_" ++ py_str home_id ++ "_" ++ rid ++ suffix)
    (py_str room_name ++ label) (PFloat f)
    (device_info_room (py_or home_id (PStr "home")) (PStr rid) room_name).

Definition room_text_sensor (home_id : pyval) (rid : string) (room_name : pyval)
    (md : string) : SensorEntity :=
  mkSensor IntuisRoomTextSensor
    ("intuis_" ++ py_str home_id ++ "_" ++ rid ++ "_mode")
    (py_str room_name ++ " Mode") (PStr md)
    (device_info_room (py_or home_id (PStr "home")) (PStr rid) room_name).

(** The name [sensor.py] and [climate.py] give a room. *)
Definition room_name_of (rm : list (string * pyval)) (rid : string) : pyval :=
  py_or (get "name" rm) (PStr ("Room " ++ rid)).



(* ===================================================================== *)
(** * The platforms: the entities set up from the coordinator's data *)
(* ===================================================================== *)

Lemma py_or_dict_empty : forall d, py_or (PDict d) (PDict []) = PDict d.
Proof. now intros [|x d]. Qed.

Lemma rbind_ok_inv : forall A B (r : result A) (k : A -> result B) b,
  rbind r k = Ok b -> exists a, r = Ok a /\ k a = Ok b.
Proof. intros A B [a|e] k b H; [eauto|discriminate]. Qed.

Lemma for_collect_map_dict :
  forall A (body : pyval -> result (list A)) f rms,
    (forall rm, body (PDict rm) = Ok (f rm)) ->
    for_collect body (map PDict rms) = Ok (flat_map f rms).
Proof.
  intros A body f rms H. induction rms as [|rm rms IH]; [reflexivity|].
  cbn. now rewrite H, IH.
Qed.

Lemma for_collect_ok_inv : forall X A (body : X -> result (list A)) xs out,
  for_collect body xs = Ok out ->
  exists ls, out = List.concat ls /\ Forall2 (fun x l => body x = Ok l) xs ls.
Proof.
  intros X A body xs. induction xs as [|x xs IH]; cbn; intros out H.
  - inversion H. exists []. split; [reflexivity|constructor].
  - apply rbind_ok_inv in H as [here [Hx H]].
    apply rbind_ok_inv in H as [rest [Hr H]]. inversion H; subst.
    destruct (IH rest Hr) as [ls [Hc Hf]]. subst rest.
    exists (here :: ls). split; [reflexivity|now constructor].
Qed.

(** The room id [climate.py] reads off a room record. *)
Definition climate_room_id (rm : list (string * pyval)) : string :=
  py_str (py_or (get "id" rm) (PStr "")).

(** The climate entities of one room record. *)
Definition climate_of_room (home_id : pyval) (rm : list (string * pyval))
  : list IntuisRoomClimate :=
  if str_nonempty (climate_room_id rm)
  then [new_climate home_id (PStr (climate_room_id rm))
          (room_name_of rm (climate_room_id rm))]
  else [].

Lemma climate_setup_rooms : forall dd home rms,
  get "home" dd = PDict home ->
  get_default "rooms" (PList []) home = PList (map PDict rms) ->
  climate_async_setup_entry (PDict dd)
  = Ok (flat_map (climate_of_room (get "home_id" dd)) rms).
Proof.
  intros dd home rms Hh Hr. unfold climate_async_setup_entry.
  rewrite py_or_dict_empty. cbn [py_get rbind]. rewrite Hh, py_or_dict_empty, Hr.
  cbn [py_iter rbind]. apply for_collect_map_dict. intro rm.
  cbn [py_get rbind]. fold (climate_room_id rm). unfold climate_of_room.
  now destruct (str_nonempty (climate_room_id rm)).
Qed.

Lemma climate_of_room_ids : forall home_id rms,
  map c_room_id (flat_map (climate_of_room home_id) rms)
  = filter str_nonempty (map climate_room_id rms).
Proof.
  intros home_id rms. induction rms as [|rm rms IH]; [reflexivity|].
  cbn [flat_map map filter]. rewrite map_app, IH. unfold climate_of_room.
  now destruct (str_nonempty (climate_room_id rm)).
Qed.

(** The sensors on the gateway device. *)
Definition on_gateway (home_id : pyval) (s : SensorEntity) : Prop :=
  s_device s = device_info_gateway (py_or home_id (PStr "home")).

Lemma sensor_setup_rooms : forall dd home rms ents,
  get "home" dd = PDict home ->
  get_default "rooms" (PList []) home = PList (map PDict rms) ->
  sensor_async_setup_entry (PDict dd) = Ok ents ->
  exists gateway per_room,
    ents = (gateway ++ List.concat per_room)%list
    /\ Forall (on_gateway (get "home_id" dd)) gateway
    /\ Forall2 (fun rm l =>
                  room_sensors (get "home_id" dd)
                    (py_or (get "status" dd) (PDict []))
                    (py_or (get "configs" dd) (PDict [])) (PDict rm) = Ok l)
         rms per_room.
Proof.
  intros dd home rms ents Hh Hr H. unfold sensor_async_setup_entry in H.
  rewrite py_or_dict_empty in H. cbn [py_get rbind] in H.
  rewrite Hh, py_or_dict_empty, Hr in H. cbn [py_get rbind] in H.
  apply rbind_ok_inv in H as [val [_ H]].
  apply rbind_ok_inv in H as [n_rooms [_ H]].
  apply rbind_ok_inv in H as [n_modules [_ H]].
  cbn [py_iter rbind] in H.
  apply rbind_ok_inv in H as [per_room [Hp H]]. inversion H; subst; clear H.
  apply for_collect_ok_inv in Hp as [ls [Hc Hf]]. subst per_room.
  match goal with
  | |- exists g p, (?a ++ ?x :: ?y :: ?m ++ _)%list = _ /\ _ =>
      exists (a ++ x :: y :: m)%list, ls
  end.
  split; [now rewrite <- app_assoc|]. split.
  - apply Forall_app; split.
    + destruct val; constructor; try constructor; reflexivity.
    + do 2 (constructor; [reflexivity|]).
      destruct (get "therm_mode" home); constructor; try constructor; reflexivity.
  - clear - Hf. remember (map PDict rms) as xs eqn:E.
    revert rms E. induction Hf; intros [|rm rms] E; try discriminate;
      constructor; inversion E; subst; auto.
Qed.

Lemma room_sensors_no_id : forall home_id status configs rm,
  sensor_room_id rm = "" ->
  room_sensors home_id status configs (PDict rm) = Ok [].
Proof.
  intros home_id status configs rm H. unfold room_sensors.
  cbn [py_get rbind]. fold (sensor_room_id rm). now rewrite H.
Qed.







(** Every sensor class returns the value its [__init__] stored: the
    coordinator's current data plays no part in [native_value]. *)
Lemma native_value_captured : forall e data data',
  native_value e data = native_value e data'.
Proof. reflexivity. Qed.

Local Close Scope res_scope.

(* ===================================================================== *)
(** * api.py: the search for the home *)
(* ===================================================================== *)

Local Open Scope nat_scope.
Local Open Scope list_scope.

(** The [i]-th value held by a container, and the value at a position. *)
Definition child (v : pyval) (i : nat) : option pyval :=
  match v with
  | PList l => nth_error l i
  | PDict d => nth_error (values d) i
  | _ => None
  end.

Fixpoint at_path (v : pyval) (p : path) : option pyval :=
  match p with
  | [] => Some v
  | i :: p' => match child v i with
               | Some c => at_path c p'
               | None => None
               end
  end.

Lemma at_path_app : forall p q v,
  at_path v (p ++ q)
  = match at_path v p with Some u => at_path u q | None => None end.
Proof.
  induction p as [|i p IH]; intros q v; cbn; [reflexivity|].
  destruct (child v i); [apply IH|reflexivity].
Qed.

Lemma child_container : forall v i c, child v i = Some c -> is_container v = true.
Proof. intros [] i c H; try discriminate; reflexivity. Qed.

Lemma at_path_below_scalar : forall v r u,
  is_container v = false -> at_path v r = Some u -> r = [].
Proof.
  intros v [|i r] u Hv H; [reflexivity|]. cbn in H.
  destruct (child v i) eqn:E; [|discriminate].
  apply child_container in E. congruence.
Qed.

Lemma weight_pos : forall v, 1 <= weight v.
Proof. destruct v; cbn; lia. Qed.

Lemma list_sum_In : forall (l : list nat) x, In x l -> x <= list_sum l.
Proof.
  induction l as [|a l IH]; intros x H; [destruct H|].
  change (x <= a + list_sum l).
  destruct H as [->|H]; [lia|]. specialize (IH x H). lia.
Qed.

(** The weights of the values a container holds. *)
Definition children_weight (v : pyval) : nat :=
  match v with
  | PList l => list_sum (map weight l)
  | PDict d => list_sum (map weight (values d))
  | _ => 0
  end.

Lemma weight_container : forall v,
  is_container v = true -> weight v = S (6 * children_weight v).
Proof.
  intros [] H; try discriminate; cbn; [reflexivity|].
  unfold values. now rewrite map_map.
Qed.

Lemma child_weight : forall v i c,
  child v i = Some c -> weight c <= children_weight v.
Proof.
  intros v i c H. destruct v; try discriminate; cbn in *;
    apply nth_error_In in H; apply list_sum_In; now apply in_map.
Qed.

Lemma find_entry_nth : forall k d i0 i v,
  find_entry k i0 d = Some (i, v) ->
  exists j, i = i0 + j /\ nth_error (values d) j = Some v.
Proof.
  intros k d. induction d as [|[k' v'] d IH]; intros i0 i v H; [discriminate|].
  cbn in H. destruct (String.eqb k k').
  - inversion H; subst. exists 0. split; [lia|reflexivity].
  - destruct (IH _ _ _ H) as [j [Hi Hj]]. exists (S j). split; [lia|exact Hj].
Qed.

Lemma find_entry_child : forall k d i v,
  find_entry k 0 d = Some (i, v) -> child (PDict d) i = Some v.
Proof.
  intros k d i v H. destruct (find_entry_nth _ _ _ _ _ H) as [j [-> Hj]].
  exact Hj.
Qed.

Lemma children_from_In : forall p items i0 q c,
  In (q, c) (children_from p i0 items) <->
  exists j, q = (p ++ [i0 + j])%list /\ nth_error items j = Some c
            /\ is_container c = true.
Proof. clear_vars.
  intros p items. induction items as [|v items IH]; intros i0 q c; cbn.
  - split; [tauto|]. intros [[|j] [_ [H _]]]; discriminate.
  - destruct (is_container v) eqn:Ev; cbn; rewrite IH; split.
    + intros [H|[j [Hq [Hn Hc]]]].
      * inversion H; subst. exists 0. rewrite Nat.add_0_r. auto.
      * exists (S j). rewrite Nat.add_succ_r. auto.
    + intros [[|j] [Hq [Hn Hc]]].
      * left. cbn in Hn. inversion Hn; subst. now rewrite Nat.add_0_r.
      * right. exists j. rewrite Nat.add_succ_r in Hq. auto.
    + intros [j [Hq [Hn Hc]]]. exists (S j). rewrite Nat.add_succ_r. auto.
    + intros [[|j] [Hq [Hn Hc]]].
      * cbn in Hn. inversion Hn; subst. congruence.
      * exists j. rewrite Nat.add_succ_r in Hq. auto.
Qed.

(** What a queue entry can still cost: one iteration when its container was
    seen, at most its weight otherwise. *)
Definition cost (seen : list path) (e : path * pyval) : nat :=
  if path_mem (fst e) seen then 1 else weight (snd e).

Definition queue_cost (seen : list path) (q : list (path * pyval)) : nat :=
  list_sum (map (cost seen) q).

Lemma cost_le_weight : forall seen e, cost seen e <= weight (snd e).
Proof.
  intros seen e. unfold cost. destruct (path_mem (fst e) seen); [|lia].
  apply weight_pos.
Qed.

Lemma cost_pos : forall seen e, 1 <= cost seen e.
Proof.
  intros seen e. unfold cost. destruct (path_mem (fst e) seen); [lia|].
  apply weight_pos.
Qed.

Lemma cost_cons_seen : forall p0 seen e, cost (p0 :: seen) e <= cost seen e.
Proof.
  intros p0 seen e. unfold cost, path_mem. cbn [existsb].
  destruct (existsb (path_eqb (fst e)) seen); [now rewrite orb_true_r|].
  destruct (path_eqb (fst e) p0); cbn; [apply weight_pos|lia].
Qed.

Lemma queue_cost_app : forall seen a b,
  queue_cost seen (a ++ b) = queue_cost seen a + queue_cost seen b.
Proof.
  intros seen a b. unfold queue_cost. now rewrite map_app, list_sum_app.
Qed.

Lemma queue_cost_cons : forall seen e q,
  queue_cost seen (e :: q) = cost seen e + queue_cost seen q.
Proof. reflexivity. Qed.

Lemma queue_cost_cons_seen : forall p0 seen q,
  queue_cost (p0 :: seen) q <= queue_cost seen q.
Proof.
  intros p0 seen q. induction q as [|e q IH]; [apply le_n|].
  rewrite !queue_cost_cons. pose proof (cost_cons_seen p0 seen e). lia.
Qed.

Lemma queue_cost_children : forall seen p items i0,
  queue_cost seen (children_from p i0 items) <= list_sum (map weight items).
Proof.
  intros seen p items. induction items as [|v items IH]; intro i0; [apply le_n|].
  cbn [children_from map]. change (list_sum (weight v :: map weight items))
    with (weight v + list_sum (map weight items)).
  specialize (IH (S i0)). destruct (is_container v); [|lia].
  rewrite queue_cost_cons.
  pose proof (cost_le_weight seen (p ++ [i0], v)). cbn [snd] in H. lia.
Qed.

(** One turn of the loop over the wrapper keys. *)
Definition push_key (p : path) (d : list (string * pyval))
    (q : list (path * pyval)) (key : string) : list (path * pyval) :=
  match find_entry key 0 d with
  | Some (i, v) => if is_container v then (p ++ [i], v) :: q else q
  | None => q
  end.

Lemma push_wrappers_fold : forall p d q,
  push_wrappers p d q = fold_left (push_key p d) wrapper_keys q.
Proof. reflexivity. Qed.

Lemma push_keys_cost : forall seen p d ks q,
  queue_cost seen (fold_left (push_key p d) ks q)
  <= List.length ks * children_weight (PDict d) + queue_cost seen q.
Proof.
  intros seen p d ks. induction ks as [|k ks IH]; intro q;
    [cbn [fold_left List.length]; lia|].
  cbn [fold_left List.length]. specialize (IH (push_key p d q k)).
  assert (queue_cost seen (push_key p d q k)
          <= children_weight (PDict d) + queue_cost seen q).
  { unfold push_key. destruct (find_entry k 0 d) as [[i v]|] eqn:E; [|lia].
    destruct (is_container v); [|lia].
    rewrite queue_cost_cons.
    pose proof (cost_le_weight seen (p ++ [i], v)). cbn [snd] in H.
    pose proof (child_weight _ _ _ (find_entry_child _ _ _ _ E)). lia. }
  lia.
Qed.

Lemma push_keys_keep : forall p d ks q e,
  In e q -> In e (fold_left (push_key p d) ks q).
Proof.
  intros p d ks. induction ks as [|k ks IH]; intros q e H; [exact H|].
  cbn [fold_left]. apply IH. unfold push_key.
  destruct (find_entry k 0 d) as [[i v]|]; [|exact H].
  destruct (is_container v); [now right|exact H].
Qed.

Lemma push_keys_In : forall p d ks q e,
  In e (fold_left (push_key p d) ks q) ->
  In e q
  \/ exists i v, e = (p ++ [i], v) /\ child (PDict d) i = Some v
                 /\ is_container v = true.
Proof.
  intros p d ks. induction ks as [|k ks IH]; intros q e H; [now left|].
  cbn [fold_left] in H. apply IH in H as [H|H]; [|now right].
  unfold push_key in H. destruct (find_entry k 0 d) as [[i v]|] eqn:E; [|now left].
  destruct (is_container v) eqn:Ev; [|now left].
  destruct H as [<-|H]; [|now left].
  right. exists i, v. split; [reflexivity|]. split; [|exact Ev].
  now apply find_entry_child with k.
Qed.

(** Scores are never negative. *)
Lemma hint_gain_nonneg : forall obj hint,
  (0 <= snd hint)%Z -> (0 <= hint_gain obj hint)%Z.
Proof.
  intros obj hint H. unfold hint_gain.
  destruct (lookup (fst hint) obj) as [v|]; [|lia].
  destruct (is_container v); [destruct (py_truthy v)|destruct (not_none_or_empty v)];
    lia.
Qed.

Lemma fold_gain_nonneg : forall obj hs acc,
  Forall (fun h => (0 <= snd h)%Z) hs -> (0 <= acc)%Z ->
  (0 <= fold_left (fun score hint => (score + hint_gain obj hint)%Z) hs acc)%Z.
Proof.
  intros obj hs. induction hs as [|h hs IH]; intros acc Hf Ha; [exact Ha|].
  inversion Hf; subst. cbn [fold_left]. apply IH; [assumption|].
  pose proof (hint_gain_nonneg obj h H1). lia.
Qed.

Lemma _score_candidate_nonneg : forall obj, (0 <= _score_candidate obj)%Z.
Proof.
  intro obj. unfold _score_candidate.
  assert (0 <= fold_left (fun score hint => score + hint_gain obj hint) hints 0)%Z.
  { apply fold_gain_nonneg; [|lia]. unfold hints.
    repeat constructor; cbn; lia. }
  destruct (lookup "rooms" obj) as [[]|]; lia.
Qed.

(** What [consider] leaves as best. *)
Lemma consider_spec : forall d best bs best' bs',
  consider d best bs = (best', bs') ->
  (has_id d = false -> best' = best /\ bs' = bs)
  /\ (has_id d = true ->
      (best' = Some (PDict d) /\ bs' = _score_candidate d /\ (bs <= bs')%Z)
      \/ (best' = best /\ bs' = bs /\ (_score_candidate d <= bs)%Z)).
Proof.
  intros d best bs best' bs' H. unfold consider in H.
  destruct (has_id d).
  - split; [discriminate|]. intros _.
    destruct (Z.ltb_spec bs (_score_candidate d)) as [Hlt|Hge]; cbn [orb] in H.
    + inversion H; subst. left. repeat split. lia.
    + destruct best as [b|].
      * destruct (Z.eqb_spec (_score_candidate d) bs) as [He|Hn]; cbn [andb] in H.
        -- destruct (has_key "rooms" d && negb (key_in "rooms" b));
             inversion H; subst; [left|right]; repeat split; lia.
        -- inversion H; subst. right. repeat split. lia.
      * inversion H; subst. right. repeat split. lia.
  - split; [|discriminate]. intros _. inversion H. auto.
Qed.

Section SearchInvariant.

Variable payload : pyval.

(** The loop invariant: the queue holds positions of the payload whose parents
    were seen; every container is seen or lies below a queued, unseen one;
    [best] is a seen dict with an id whose score no seen dict with an id
    exceeds. *)
Record bfs_inv (st : bfs_state) : Prop := mkInv {
  inv_queue : forall p v, In (p, v) (bq st) -> at_path payload p = Some v;
  inv_parent_q : forall p v, In (p, v) (bq st) ->
    p = [] \/ exists q i, p = q ++ [i] /\ In q (bseen st);
  inv_parent_s : forall p, In p (bseen st) ->
    p = [] \/ exists q i, p = q ++ [i] /\ In q (bseen st);
  inv_cover : forall p v, at_path payload p = Some v -> is_container v = true ->
    In p (bseen st)
    \/ exists q r u, p = q ++ r /\ ~ In q (bseen st) /\ In (q, u) (bq st);
  inv_best : forall b, bbest st = Some b ->
    exists q d, b = PDict d /\ at_path payload q = Some b /\ has_id d = true
                /\ bscore st = _score_candidate d;
  inv_none : bbest st = None -> bscore st = (-1)%Z;
  inv_max : forall p d, In p (bseen st) -> at_path payload p = Some (PDict d) ->
    has_id d = true ->
    bbest st <> None /\ (_score_candidate d <= bscore st)%Z
}.

Lemma bfs_inv_init : bfs_inv (bfs_init payload).
Proof.
  constructor; cbn.
  - intros p v [H|[]]. now inversion H.
  - intros p v [H|[]]. inversion H. now left.
  - intros p [].
  - intros p v H Hc. right. exists [], p, payload. auto.
  - discriminate.
  - reflexivity.
  - intros p d [].
Qed.

Lemma snoc_neq : forall (q : path) i, q ++ [i] <> q.
Proof.
  intros q i H. apply (f_equal (@List.length nat)) in H.
  rewrite length_app in H. cbn in H. lia.
Qed.

(** A container met again is skipped. *)
Lemma step_skip : forall st p0 v0 q',
  bfs_inv st -> bq st = (p0, v0) :: q' -> In p0 (bseen st) ->
  bfs_inv (mkBfs q' (bseen st) (bbest st) (bscore st)).
Proof.
  intros st p0 v0 q' [Hq Hpq Hps Hc Hb Hn Hm] E Hs. rewrite E in *.
  constructor; cbn; auto.
  - intros p v H. apply Hq. now right.
  - intros p v H. apply (Hpq p v). now right.
  - intros p v H Hv. destruct (Hc p v H Hv) as [|[q [r [u [Hp [Hns [Hi|Hi]]]]]]];
      [now left| |].
    + inversion Hi; subst. contradiction.
    + right. exists q, r, u. auto.
Qed.

(** A value that is no container is dropped. *)
Lemma step_scalar : forall st p0 v0 q',
  bfs_inv st -> bq st = (p0, v0) :: q' -> is_container v0 = false ->
  bfs_inv (mkBfs q' (bseen st) (bbest st) (bscore st)).
Proof.
  intros st p0 v0 q' [Hq Hpq Hps Hc Hb Hn Hm] E Hs. rewrite E in *.
  constructor; cbn; auto.
  - intros p v H. apply Hq. now right.
  - intros p v H. apply (Hpq p v). now right.
  - intros p v H Hv. destruct (Hc p v H Hv) as [|[q [r [u [Hp [Hns [Hi|Hi]]]]]]];
      [now left| |].
    + injection Hi as Hiq Hiu. subst q u p. exfalso.
      rewrite at_path_app, (Hq p0 v0 (or_introl eq_refl)) in H.
      pose proof (at_path_below_scalar _ _ _ Hs H). subst r.
      cbn in H. inversion H; subst. congruence.
    + right. exists q, r, u. auto.
Qed.

(** The queue after a visit keeps the old entries and gains children of the
    visited container only. *)
Lemma visit_queue : forall p0 v0 st,
  is_container v0 = true ->
  (forall e, In e (bq st) -> In e (bq (bfs_visit p0 v0 st)))
  /\ (forall e, In e (bq (bfs_visit p0 v0 st)) ->
        In e (bq st)
        \/ exists i c, e = (p0 ++ [i], c) /\ child v0 i = Some c
                       /\ is_container c = true)
  /\ (forall i c, child v0 i = Some c -> is_container c = true ->
        In (p0 ++ [i], c) (bq (bfs_visit p0 v0 st)))
  /\ bseen (bfs_visit p0 v0 st) = p0 :: bseen st.
Proof.
  intros p0 v0 st Hv. destruct v0; try discriminate; cbn [bfs_visit].
  - (* list *)
    cbn [bq bseen]. repeat split.
    + intros e H. apply in_or_app. now left.
    + intros [q c] H. apply in_app_or in H as [H|H]; [now left|].
      apply children_from_In in H as [j [Hq [Hn Hc]]].
      right. exists j, c. now subst.
    + intros i c Hc Hcc. apply in_or_app. right.
      apply children_from_In. exists i. auto.
  - (* dict *)
    destruct (consider entries (bbest st) (bscore st)) as [best score].
    cbn [bq bseen]. rewrite push_wrappers_fold. repeat split.
    + intros e H. apply in_or_app. left. now apply push_keys_keep.
    + intros [q c] H. apply in_app_or in H as [H|H].
      * apply push_keys_In in H as [H|[i [v [He [Hc Hcc]]]]]; [now left|].
        right. exists i, v. auto.
      * apply children_from_In in H as [j [Hq [Hn Hc]]].
        right. exists j, c. now subst.
    + intros i c Hc Hcc. apply in_or_app. right.
      apply children_from_In. exists i. auto.
Qed.

(** What a visit leaves as best. *)
Lemma visit_best : forall p0 v0 st,
  match v0 with
  | PDict d => consider d (bbest st) (bscore st)
               = (bbest (bfs_visit p0 v0 st), bscore (bfs_visit p0 v0 st))
  | _ => bbest (bfs_visit p0 v0 st) = bbest st
         /\ bscore (bfs_visit p0 v0 st) = bscore st
  end.
Proof.
  intros p0 v0 st. destruct v0; cbn [bfs_visit]; auto.
  now destruct (consider entries (bbest st) (bscore st)).
Qed.

(** A container met for the first time is visited. *)
Lemma step_visit : forall st p0 v0 q',
  bfs_inv st -> bq st = (p0, v0) :: q' ->
  is_container v0 = true -> ~ In p0 (bseen st) ->
  bfs_inv (bfs_visit p0 v0 (mkBfs q' (bseen st) (bbest st) (bscore st))).
Proof.
  intros st p0 v0 q' [Hq Hpq Hps Hc Hb Hn Hm] E Hv Hns. rewrite E in *.
  set (st1 := mkBfs q' (bseen st) (bbest st) (bscore st)).
  destruct (visit_queue p0 v0 st1 Hv) as [Hkeep [Hnew [Hchild Hseen]]].
  pose proof (Hq p0 v0 (or_introl eq_refl)) as Hp0.
  assert (Hbest :
    (bbest (bfs_visit p0 v0 st1) = bbest st /\ bscore (bfs_visit p0 v0 st1) = bscore st
     /\ forall d, v0 = PDict d -> has_id d = true ->
                  (_score_candidate d <= bscore st)%Z)
    \/ (exists d, v0 = PDict d /\ has_id d = true
                  /\ bbest (bfs_visit p0 v0 st1) = Some v0
                  /\ bscore (bfs_visit p0 v0 st1) = _score_candidate d
                  /\ (bscore st <= _score_candidate d)%Z)).
  { pose proof (visit_best p0 v0 st1) as Hvb. destruct v0; try discriminate.
    - left. destruct Hvb. repeat split; auto. discriminate.
    - cbn [bbest bscore st1] in Hvb.
      destruct (consider_spec _ _ _ _ _ Hvb) as [Hno Hyes].
      destruct (has_id entries) eqn:Hid.
      + destruct (Hyes eq_refl) as [[H1 [H2 H3]]|[H1 [H2 H3]]].
        * right. exists entries. rewrite H2 in H3. auto.
        * left. repeat split; auto. intros d Hd _. now inversion Hd; subst.
      + destruct (Hno eq_refl) as [H1 H2]. left. repeat split; auto.
        intros d Hd Hd'. inversion Hd; subst. congruence. }
  constructor.
  - (* queue entries are positions *)
    intros p v H. apply Hnew in H as [H|[i [c [He [Hc' _]]]]].
    + apply Hq. now right.
    + inversion He; subst. rewrite at_path_app, Hp0. cbn. now rewrite Hc'.
  - (* parents of queue entries *)
    intros p v H. rewrite Hseen. apply Hnew in H as [H|[i [c [He _]]]].
    + destruct (Hpq p v (or_intror H)) as [|[q [i [Hp Hi]]]]; [now left|].
      right. exists q, i. split; [exact Hp|now right].
    + inversion He; subst. right. exists p0, i. split; [reflexivity|now left].
  - (* parents of seen positions *)
    intros p H. rewrite Hseen in *. destruct H as [<-|H].
    + destruct (Hpq p0 v0 (or_introl eq_refl)) as [|[q [i [Hp Hi]]]]; [now left|].
      right. exists q, i. split; [exact Hp|now right].
    + destruct (Hps p H) as [|[q [i [Hp Hi]]]]; [now left|].
      right. exists q, i. split; [exact Hp|now right].
  - (* cover *)
    intros p v H Hcv. rewrite Hseen.
    destruct (Hc p v H Hcv) as [Hin|[q [r [u [Hp [Hnq Hi]]]]]];
      [left; now right|].
    destruct (list_eq_dec Nat.eq_dec q p0) as [->|Hne].
    + destruct r as [|i r].
      * left. left. now rewrite app_nil_r in Hp.
      * right. rewrite Hp, at_path_app, Hp0 in H. cbn in H.
        destruct (child v0 i) as [c|] eqn:Ec; [|discriminate].
        assert (is_container c = true) as Hcc.
        { destruct r; [cbn in H; now inversion H; subst|].
          cbn in H. destruct (child c n) eqn:En; [|discriminate].
          now apply child_container in En. }
        exists (p0 ++ [i]), r, c. split; [|split].
        -- rewrite Hp, <- app_assoc. reflexivity.
        -- intros [Heq|Hin]; [symmetry in Heq; now apply snoc_neq in Heq|].
           destruct (Hps _ Hin) as [Hnil|[q [j [Hqj Hqin]]]].
           ++ destruct p0; discriminate.
           ++ apply app_inj_tail in Hqj as [-> _]. contradiction.
        -- now apply Hchild.
    + right. exists q, r, u. split; [exact Hp|]. split.
      * intros [Heq|Hin]; [congruence|contradiction].
      * apply Hkeep. destruct Hi as [Hi|Hi]; [|exact Hi].
        injection Hi as Hiq Hiu. congruence.
  - (* best is a seen dict with an id *)
    intros b Hbb. destruct Hbest as [[H1 [H2 _]]|[d [Hd [Hid [H1 [H2 _]]]]]].
    + rewrite H1 in Hbb. rewrite H2. now apply Hb.
    + rewrite H1 in Hbb. inversion Hbb; subst b. exists p0, d. rewrite H2. auto.
  - (* no best, score -1 *)
    intro Hnone. destruct Hbest as [[H1 [H2 _]]|[d [Hd [Hid [H1 _]]]]].
    + rewrite H2. apply Hn. now rewrite <- H1.
    + congruence.
  - (* best is maximal among the seen *)
    intros p d Hin Hp Hid. rewrite Hseen in Hin.
    pose proof (_score_candidate_nonneg d) as Hnn.
    destruct Hin as [<-|Hin].
    + assert (v0 = PDict d) by congruence.
      destruct Hbest as [[H1 [H2 H3]]|[d' [Hd [_ [H1 [H2 _]]]]]].
      * specialize (H3 d H Hid). rewrite H1, H2. split; [|exact H3].
        intro Hnone. apply Hn in Hnone. lia.
      * assert (d' = d) by congruence. subst d'. rewrite H1, H2.
        split; [discriminate|lia].
    + destruct (Hm p d Hin Hp Hid) as [Hsome Hle].
      destruct Hbest as [[H1 [H2 _]]|[d' [_ [_ [H1 [H2 H3]]]]]].
      * now rewrite H1, H2.
      * rewrite H1, H2. split; [discriminate|lia].
Qed.

Lemma visit_cost : forall p0 v0 q' seen best score,
  is_container v0 = true ->
  queue_cost (p0 :: seen) (bq (bfs_visit p0 v0 (mkBfs q' seen best score)))
  <= 6 * children_weight v0 + queue_cost seen q'.
Proof.
  intros p0 v0 q' seen best score Hv.
  pose proof (queue_cost_cons_seen p0 seen q') as Hmono.
  destruct v0; try discriminate; cbn [bfs_visit bq bseen bbest bscore].
  - rewrite queue_cost_app.
    pose proof (queue_cost_children (p0 :: seen) p0 items 0) as Hch.
    cbn [children_weight]. lia.
  - destruct (consider entries best score) as [b s]. cbn [bq].
    rewrite queue_cost_app, push_wrappers_fold.
    pose proof (push_keys_cost (p0 :: seen) p0 entries wrapper_keys q') as Hw.
    pose proof (queue_cost_children (p0 :: seen) p0 (values entries) 0) as Hch.
    cbn [List.length wrapper_keys] in Hw. cbn [children_weight] in *. lia.
Qed.

Lemma visit_scalar : forall p0 v0 st,
  is_container v0 = false -> bfs_visit p0 v0 st = st.
Proof. intros p0 [] st H; try reflexivity; discriminate. Qed.

(** The loop ends within the fuel the queue's cost allows, with an empty queue
    and the invariant. *)
Lemma bfs_loop_terminates : forall fuel st,
  bfs_inv st ->
  queue_cost (bseen st) (bq st) <= fuel ->
  exists st', bfs_loop fuel st = Some st' /\ bfs_inv st' /\ bq st' = [].
Proof.
  induction fuel as [|fuel IH]; intros [q seen best score] Hinv Hcost;
    destruct q as [|[p0 v0] q']; cbn [bq bseen] in Hcost.
  - exists (mkBfs [] seen best score). auto.
  - rewrite queue_cost_cons in Hcost. pose proof (cost_pos seen (p0, v0)). lia.
  - exists (mkBfs [] seen best score). auto.
  - rewrite queue_cost_cons in Hcost. cbn [bfs_loop bq bseen bbest bscore].
    destruct (is_container v0) eqn:Hv; cbn [andb].
    + destruct (path_mem p0 seen) eqn:Hs.
      * apply IH.
        -- apply (step_skip (mkBfs ((p0, v0) :: q') seen best score) p0 v0 q');
             [exact Hinv|reflexivity|now apply path_mem_In].
        -- pose proof (cost_pos seen (p0, v0)). cbn [bq bseen]. lia.
      * apply IH.
        -- apply (step_visit (mkBfs ((p0, v0) :: q') seen best score) p0 v0 q');
             [exact Hinv|reflexivity|exact Hv|].
           intro Hin. cbn [bseen] in Hin. apply path_mem_In in Hin. congruence.
        -- pose proof (visit_cost p0 v0 q' seen best score Hv) as Hvc.
           destruct (visit_queue p0 v0 (mkBfs q' seen best score) Hv)
             as [_ [_ [_ Hseen]]].
           rewrite Hseen. cbn [bseen].
           unfold cost in Hcost. cbn [fst snd] in Hcost. rewrite Hs in Hcost.
           rewrite (weight_container v0 Hv) in Hcost. lia.
    + rewrite visit_scalar by exact Hv. apply IH.
      * apply (step_scalar (mkBfs ((p0, v0) :: q') seen best score) p0 v0 q');
          [exact Hinv|reflexivity|exact Hv].
      * pose proof (cost_pos seen (p0, v0)). cbn [bq bseen]. lia.
Qed.

(** The search on the payload: it ends, every container was seen, and [best]
    is a dict of the payload with an id and the highest score among those. *)
Lemma bfs_result :
  exists st,
    bfs_loop (weight payload) (bfs_init payload) = Some st
    /\ (forall b, bbest st = Some b ->
          exists q d, b = PDict d /\ at_path payload q = Some b
                      /\ has_id d = true /\ bscore st = _score_candidate d)
    /\ (forall p d, at_path payload p = Some (PDict d) -> has_id d = true ->
          bbest st <> None /\ (_score_candidate d <= bscore st)%Z).
Proof.
  destruct (bfs_loop_terminates (weight payload) (bfs_init payload) bfs_inv_init)
    as [st [Hrun [Hinv Hq]]].
  { cbn. unfold cost. cbn. lia. }
  exists st. split; [exact Hrun|]. destruct Hinv as [_ _ _ Hc Hb _ Hm].
  split; [exact Hb|]. intros p d Hp Hid.
  destruct (Hc p (PDict d) Hp eq_refl) as [Hin|[q [r [u [_ [_ Hi]]]]]].
  - now apply Hm with p.
  - rewrite Hq in Hi. destruct Hi.
Qed.

End SearchInvariant.

(** Without a dict that has an id, the second search finds nothing either. *)
Lemma first_found_none : forall search l,
  (forall x, In x l -> search x = None) -> first_found search l = None.
Proof.
  intros search l H. induction l as [|x l IH]; [reflexivity|].
  cbn. rewrite (H x (or_introl eq_refl)). apply IH. intros y Hy. apply H. now right.
Qed.

Definition no_id_below (v : pyval) : Prop :=
  forall p d, at_path v p = Some (PDict d) -> has_id d = false.

Lemma no_id_below_child : forall v i c,
  no_id_below v -> child v i = Some c -> no_id_below c.
Proof.
  intros v i c H Hc p d Hp. apply (H (i :: p) d). cbn. now rewrite Hc.
Qed.

Lemma In_values_child : forall d x,
  In x (values d) -> exists i, child (PDict d) i = Some x.
Proof. intros d x H. cbn. now apply In_nth_error. Qed.

Lemma lookup_In_values : forall k d v, lookup k d = Some v -> In v (values d).
Proof.
  intros k d v. induction d as [|[k' v'] d IH]; cbn; [discriminate|].
  destruct (String.eqb k k'); intro H; [inversion H; now left|right; auto].
Qed.

Lemma _looks_like_home_has_id : forall d,
  _looks_like_home d = true -> has_id d = true.
Proof.
  intros d H. unfold _looks_like_home in H. unfold has_id.
  destruct (negb _); [discriminate|].
  destruct (is_none (id_candidate d)); [discriminate|exact H].
Qed.

Lemma _search_home_none : forall levels v,
  no_id_below v -> _search_home levels v = None.
Proof.
  induction levels as [|levels IH]; intros v Hv; [reflexivity|].
  destruct v; try reflexivity; cbn [_search_home].
  - apply first_found_none. intros x Hx. apply IH.
    apply In_nth_error in Hx as [i Hi]. now apply no_id_below_child with (PList items) i.
  - destruct (_looks_like_home entries) eqn:El.
    { apply _looks_like_home_has_id in El.
      rewrite (Hv [] entries eq_refl) in El. discriminate. }
    assert (Hvals : forall x, In x (values entries) -> no_id_below x).
    { intros x Hx. apply In_values_child in Hx as [i Hi].
      now apply no_id_below_child with (PDict entries) i. }
    rewrite first_found_none.
    2:{ intros x Hx. apply IH, Hvals. unfold present_values in Hx.
        apply in_flat_map in Hx as [k [_ Hk]].
        destruct (lookup k entries) eqn:E; [|destruct Hk].
        destruct Hk as [<-|[]]. now apply lookup_In_values with k. }
    rewrite first_found_none.
    2:{ intros x Hx. apply IH. unfold get, get_default in Hx.
        destruct (lookup "homes" entries) as [h|] eqn:E; [|destruct Hx].
        destruct h; try destruct Hx.
        apply In_nth_error in Hx as [i Hi].
        apply no_id_below_child with (PList items) i; [|exact Hi].
        apply Hvals. now apply lookup_In_values with "homes"%string. }
    apply first_found_none. intros x Hx. now apply IH, Hvals.
Qed.

(** The bound on the loop is never reached: the function returns a dict of
    the payload or raises [IntuisApiError]. *)
Lemma _extract_home_from_homesdata_total : forall payload,
  (exists home, _extract_home_from_homesdata payload = Ok home)
  \/ _extract_home_from_homesdata payload = Raise IntuisApiError.
Proof.
  intro payload. destruct (bfs_result payload) as [st [Hrun _]].
  unfold _extract_home_from_homesdata. rewrite Hrun.
  destruct (bbest st); [left; eauto|].
  destruct (_search_home 33 payload); [left; eauto|now right].
Qed.

Lemma fold_gain_ge : forall obj hs acc,
  Forall (fun h => (0 <= snd h)%Z) hs ->
  (acc <= fold_left (fun score hint => (score + hint_gain obj hint)%Z) hs acc)%Z.
Proof.
  intros obj hs. induction hs as [|h hs IH]; intros acc Hf; [cbn; lia|].
  inversion Hf; subst. cbn [fold_left].
  specialize (IH (acc + hint_gain obj h)%Z H2).
  pose proof (hint_gain_nonneg obj h H1). lia.
Qed.

(** A non-empty [rooms] list alone is worth 9, more than any other hint. *)
Lemma score_rooms_list : forall d x l,
  lookup "rooms" d = Some (PList (x :: l)) -> (9 <= _score_candidate d)%Z.
Proof.
  intros d x l H. unfold _score_candidate. rewrite H. unfold hints.
  cbn [fold_left].
  assert (Hr : hint_gain d ("rooms", 4%Z) = 4%Z).
  { unfold hint_gain. cbn [fst snd]. now rewrite H. }
  rewrite Hr.
  repeat match goal with
         | |- context [hint_gain d ?h] =>
             generalize (hint_gain_nonneg d h); generalize (hint_gain d h);
             cbn [snd]; intros ? ?
         end.
  lia.
Qed.

Lemma lookup_child : forall k d v,
  lookup k d = Some v -> exists i, child (PDict d) i = Some v.
Proof.
  intros k d v H. apply In_values_child. now apply lookup_In_values with k.
Qed.

(** C1, as the code has it.  A dict counts as a home candidate when the first
    truthy value among its [id], [_id] and [home_id] (else the last of them)
    is not [None] and its text, stripped, is not empty.  When some dict of the
    payload is a candidate, at the root, under [home], under [body.home], in a
    [homes] list or anywhere else, [_extract_home_from_homesdata] returns a
    candidate dict of the payload whose hint score no candidate of the payload
    exceeds; a non-empty [rooms] list alone is worth 9.  When no dict of the
    payload is a candidate it raises [IntuisApiError]. *)
Theorem _extract_home_from_homesdata_finds_best : forall payload,
  (forall p d,
      at_path payload p = Some (PDict d) -> has_id d = true ->
      exists best q,
        _extract_home_from_homesdata payload = Ok (PDict best)
        /\ at_path payload q = Some (PDict best)
        /\ has_id best = true
        /\ forall p' d', at_path payload p' = Some (PDict d') ->
                         has_id d' = true ->
                         (_score_candidate d' <= _score_candidate best)%Z)
  /\ (no_id_below payload ->
      _extract_home_from_homesdata payload = Raise IntuisApiError)
  /\ (forall d h, payload = PDict d -> lookup "home" d = Some h ->
        exists i, at_path payload [i] = Some h)
  /\ (forall d b h, payload = PDict d -> lookup "body" d = Some (PDict b) ->
        lookup "home" b = Some h ->
        exists i j, at_path payload [i; j] = Some h)
  /\ (forall d l h, payload = PDict d -> lookup "homes" d = Some (PList l) ->
        In h l -> exists i j, at_path payload [i; j] = Some h)
  /\ (forall d x l, lookup "rooms" d = Some (PList (x :: l)) ->
        (9 <= _score_candidate d)%Z).
Proof.
  intro payload.
  destruct (bfs_result payload) as [st [Hrun [Hb Hmax]]].
  unfold _extract_home_from_homesdata. rewrite Hrun.
  split; [|split; [|split; [|split; [|split]]]].
  - intros p d Hp Hid. destruct (Hmax p d Hp Hid) as [Hsome _].
    destruct (bbest st) as [b|] eqn:Eb; [|congruence].
    destruct (Hb b eq_refl) as [q [best [-> [Hq [Hbid Hsc]]]]].
    exists best, q. repeat split; auto.
    intros p' d' Hp' Hid'. destruct (Hmax p' d' Hp' Hid') as [_ Hle]. lia.
  - intro Hno. destruct (bbest st) as [b|] eqn:Eb.
    + destruct (Hb b eq_refl) as [q [best [-> [Hq [Hbid _]]]]].
      rewrite (Hno q best Hq) in Hbid. discriminate.
    + now rewrite _search_home_none.
  - intros d h -> Hl. destruct (lookup_child _ _ _ Hl) as [i Hi].
    exists i. cbn [at_path]. now rewrite Hi.
  - intros d b h -> Hl Hh. destruct (lookup_child _ _ _ Hl) as [i Hi].
    destruct (lookup_child _ _ _ Hh) as [j Hj].
    exists i, j. cbn [at_path]. rewrite Hi, Hj. reflexivity.
  - intros d l h -> Hl Hh. destruct (lookup_child _ _ _ Hl) as [i Hi].
    apply In_nth_error in Hh as [j Hj].
    exists i, j. cbn [at_path]. rewrite Hi. cbn [child]. now rewrite Hj.
  - apply score_rooms_list.
Qed.


(* ===================================================================== *)
(** * Further properties of the client *)
(* ===================================================================== *)

Local Close Scope nat_scope.
Local Open Scope string_scope.
Local Open Scope Z_scope.
Local Open Scope m_scope.

(** ** [login] and [ensure_token] *)

Lemma _store_tokens_requests : forall data w,
  n_requests (snd (_store_tokens data w)) = n_requests w
  /\ trace (snd (_store_tokens data w)) = trace w.
Proof.
  intros data w. destruct data; try (split; reflexivity).
  unfold _store_tokens, bind, lift, get_auth, put_auth, time_time. cbn.
  destruct (is_number (get "expires_in" entries)); cbn;
    [destruct (float_of_number (get "expires_in" entries))|]; cbn;
    split; reflexivity.
Qed.

Lemma login_once_requests : forall w,
  n_requests (snd (login_once w)) = S (n_requests w).
Proof.
  intro w. unfold login_once, bind. rewrite _request_json_run.
  destruct (request_outcome (net w (n_requests w))) as [data|e]; [|reflexivity].
  pose proof (_store_tokens_requests data
                (record_request (login_request (auth w)) w)) as [H _].
  unfold login_request in H.
  destruct (_store_tokens data _) as [[u|e] w1]; cbn in *; exact H.
Qed.

Lemma login_loop_requests : forall attempts w,
  (n_requests w <= n_requests (snd (login_loop attempts w)))%nat.
Proof.
  induction attempts as [|a rest IH]; intro w; [apply le_n|].
  cbn [login_loop]. unfold try_except.
  pose proof (login_once_requests w) as H1.
  destruct (login_once w) as [[data|e] w1]; cbn [snd] in *; [lia|].
  destruct (is_api_error e); cbn [snd]; [|lia].
  unfold bind, sleep. specialize (IH (slept (1500 * a) w1)).
  cbn [n_requests slept] in IH. lia.
Qed.

Lemma login_requests : forall w,
  (S (n_requests w) <= n_requests (snd (login w)))%nat.
Proof.
  intro w. unfold login.
  change (login_loop [1; 2; 3])
    with (try_except login_once is_api_error
            (sleep (1500 * 1) ;;; login_loop [2; 3])).
  unfold try_except.
  pose proof (login_once_requests w) as H1.
  destruct (login_once w) as [[data|e] w1]; cbn [snd] in *; [lia|].
  destruct (is_api_error e); cbn [snd]; [|lia].
  unfold bind, sleep.
  pose proof (login_loop_requests [2; 3] (slept (1500 * 1) w1)) as H2.
  cbn [n_requests slept] in H2. lia.
Qed.

Lemma then_ret_requests : forall A (c : M A) w,
  n_requests (snd ((c ;;; ret tt) w)) = n_requests (snd (c w)).
Proof.
  intros A c w. unfold bind, ret. now destruct (c w) as [[a|e] w1].
Qed.

Lemma _refresh_requests : forall w,
  py_truthy (refresh_token (auth w)) = true ->
  n_requests (snd (_refresh w)) = S (n_requests w).
Proof.
  intros w Hr. unfold _refresh. rewrite bind_get_auth, Hr. cbn [negb].
  unfold bind. rewrite _request_json_run.
  destruct (request_outcome (net w (n_requests w))) as [data|e]; [|reflexivity].
  match goal with
  | |- context [_store_tokens data ?w0] =>
      pose proof (_store_tokens_requests data w0) as [H _];
      destruct (_store_tokens data w0) as [[u|e] w1]; cbn in *; exact H
  end.
Qed.

(** Without an access token, [ensure_token] asks the token endpoint. *)
Lemma ensure_token_requests : forall w,
  py_truthy (access_token (auth w)) = false ->
  (S (n_requests w) <= n_requests (snd (ensure_token w)))%nat.
Proof.
  intros w Ha. unfold ensure_token.
  rewrite (bind_ok _ _ _ _ _ _ _ (token_valid_no_access w Ha)), bind_get_auth.
  destruct (py_truthy (refresh_token (auth w))) eqn:Hr.
  - unfold try_except.
    pose proof (then_ret_requests _ _refresh w) as H1.
    rewrite (_refresh_requests w Hr) in H1.
    destruct ((_refresh ;;; ret tt) w) as [[u|e] w1]; cbn [snd] in *; [lia|].
    destruct (is_api_error e); cbn [snd]; [|lia].
    rewrite then_ret_requests. pose proof (login_requests w1). lia.
  - rewrite then_ret_requests. apply login_requests.
Qed.

Lemma login_loop_escape : forall attempt rest w e w1,
  login_once w = (Raise e, w1) -> is_api_error e = false ->
  login_loop (attempt :: rest) w = (Raise e, w1).
Proof.
  intros attempt rest w e w1 H He. cbn [login_loop]. unfold try_except.
  now rewrite H, He.
Qed.

(** X1. [login] tries again after an [IntuisApiError] only.  When the
    exchange itself fails ([session.request] raises) the error leaves [login]
    from the first attempt; so does the [AttributeError] of [_store_tokens]
    when the token endpoint answers with JSON that is no object.  In both
    cases one request was sent, nothing was slept and the tokens held are
    untouched. *)
Theorem login_retries_only_api_errors : forall w,
  (forall ex, net w (n_requests w) = NoResponse ex ->
     login w = (Raise (External ex), record_request (login_request (auth w)) w))
  /\ (forall status v t,
        net w (n_requests w) = Resp status (Got v) t -> status < 400 ->
        is_dict v = false ->
        login w = (Raise AttributeError,
                   record_request (login_request (auth w)) w)).
Proof.
  intro w. split.
  - intros ex Hn. unfold login. apply login_loop_escape; [|reflexivity].
    unfold login_once. apply bind_raise.
    rewrite _request_json_run, Hn. reflexivity.
  - intros status v t Hn Hs Hv. unfold login.
    apply login_loop_escape; [|reflexivity]. unfold login_once.
    erewrite bind_ok;
      [|rewrite _request_json_run, Hn, request_outcome_ok by assumption;
        reflexivity].
    unfold bind.
    destruct v; try discriminate; reflexivity.
Qed.

(** X2. [login] returns on any JSON object the token endpoint sends with a
    status below 400, also on one that carries no access token (an error
    object, say): the access token held is then the object's missing or empty
    one, and the next [ensure_token] goes back to the token endpoint. *)
Theorem login_without_access_token : forall w status d t delta,
  net w (n_requests w) = Resp status (Got (PDict d)) t ->
  status < 400 ->
  expiry_delta d = Ok delta ->
  py_truthy (get "access_token" d) = false ->
  exists w1,
    login w = (Ok (PDict d), w1)
    /\ access_token (auth w1) = get "access_token" d
    /\ token_valid w1 = (Ok false, w1)
    /\ (S (n_requests w1) <= n_requests (snd (ensure_token w1)))%nat.
Proof.
  intros w status d t delta Hn Hs Hd Ha.
  eexists. split; [eapply login_first_ok; eassumption|].
  split; [reflexivity|].
  split; [apply token_valid_no_access; exact Ha|].
  apply ensure_token_requests. exact Ha.
Qed.

(** X3. After a [login] that stored an access token, [ensure_token] sends
    nothing as long as the clock reads more than 60 seconds before the stored
    expiry (the login's clock reading plus the granted lifetime): it reads
    the clock once and returns. *)
Theorem ensure_token_after_login : forall w status d t delta,
  net w (n_requests w) = Resp status (Got (PDict d)) t ->
  status < 400 ->
  expiry_delta d = Ok delta ->
  py_truthy (get "access_token" d) = true ->
  py_truthy (PFloat (float_add (clock w (n_clock w)) delta)) = true ->
  float_ge (clock w (S (n_clock w)))
    (float_sub (float_add (clock w (n_clock w)) delta) (float_lit 60)) = false ->
  exists w1,
    login w = (Ok (PDict d), w1)
    /\ ensure_token w1 = (Ok tt, tick w1)
    /\ n_requests (tick w1) = S (n_requests w).
Proof.
  intros w status d t delta Hn Hs Hd Ha Hz Hge.
  eexists. split; [eapply login_first_ok; eassumption|].
  split; [|reflexivity].
  apply ensure_token_valid.
  apply token_valid_true
    with (e := float_add (clock w (n_clock w)) delta); auto.
Qed.

(** ** The data calls *)

(** X4. [get_homesdata] returns a dict or a list and nothing else: a body
    that parses to a number, a boolean or null, or a JSON string that does
    not hold a dict or a list itself, never comes back to the caller. *)
Theorem get_homesdata_returns_container : forall w v w',
  get_homesdata w = (Ok v, w') -> is_container v = true.
Proof.
  intros w v w' H. unfold get_homesdata in H.
  apply bind_ok_inv in H as [u [w1 [_ H]]].
  apply bind_ok_inv in H as [raw [w2 [_ H]]].
  apply bind_ok_inv in H as [raw' [w3 [_ H]]].
  destruct (is_container raw') eqn:E; [|discriminate].
  inversion H; subst. exact E.
Qed.

Lemma post_setroomthermpoint_run : forall home_id room_id mode temp endtime t e w,
  token_fresh w ->
  temp_entry "temp" temp = Ok t ->
  endtime_entry "endtime" endtime = Ok e ->
  post_setroomthermpoint home_id room_id mode temp endtime w
  = (request_outcome (net w (n_requests w)),
     record_request
       (build_request (auth w) "POST" (BASE_HOST ++ "/api/setroomthermpoint") None
          (Some ([("home_id", home_id); ("room_id", room_id); ("mode", mode)]
                 ++ t ++ e)%list) form_ct true) (tick w)).
Proof.
  intros home_id room_id mode temp endtime t e w Hf Ht He.
  unfold post_setroomthermpoint.
  erewrite bind_ok; [|apply ensure_token_fresh; assumption].
  rewrite Ht, He. unfold bind at 1, lift. unfold bind at 1.
  now rewrite _request_json_run.
Qed.

Lemma post_setstate_rooms_run : forall home_id room_id mode temp endtime t e w,
  token_fresh w ->
  temp_entry "therm_setpoint_temperature" temp = Ok t ->
  endtime_entry "therm_setpoint_end_time" endtime = Ok e ->
  post_setstate_rooms home_id room_id mode temp endtime w
  = (request_outcome (net w (n_requests w)),
     record_request
       (build_request (auth w) "POST" (BASE_HOST ++ "/syncapi/v1/setstate")
          (Some (PDict [("home",
                         PDict [("id", home_id);
                                ("rooms",
                                 PList [PDict ([("id", room_id);
                                                ("therm_setpoint_mode", mode)]
                                               ++ t ++ e)%list])])]))
          None None true) (tick w)).
Proof.
  intros home_id room_id mode temp endtime t e w Hf Ht He.
  unfold post_setstate_rooms.
  erewrite bind_ok; [|apply ensure_token_fresh; assumption].
  rewrite Ht, He. unfold bind at 1, lift. unfold bind at 1.
  now rewrite _request_json_run.
Qed.

Lemma set_room_setpoint_run : forall home_id room_id temp duration f w,
  token_fresh w ->
  py_float temp = Ok f ->
  is_number duration && number_positive duration = false ->
  set_room_setpoint home_id room_id temp duration w
  = (request_outcome (net w (n_requests w)),
     record_request
       (mkRequest "POST" (BASE_HOST ++ "/api/setroomthermpoint")
          (_auth_headers (auth w)
           ++ [("Content-Type", "application/x-www-form-urlencoded")])%list
          None
          (Some (form_fields [("home_id", home_id); ("room_id", room_id);
                              ("mode", PStr "manual"); ("temp", PFloat f)])))
       (tick w)).
Proof.
  intros home_id room_id temp duration f w Hf Ht Hd.
  unfold set_room_setpoint. rewrite Hd, Ht.
  unfold bind at 1, ret. unfold bind at 1, lift.
  rewrite (post_setroomthermpoint_run _ _ _ _ _ [("temp", PFloat f)] [] w Hf);
    reflexivity.
Qed.

(** X5. [set_room_setpoint] without a positive duration: under a valid token
    it sends one form to [/api/setroomthermpoint] whose fields are the home,
    the room, the mode [manual] and the temperature as a float, and no end
    time; the call's outcome is that exchange's, and nothing but the clock
    reading of the token check and the request is left in the world. *)
Theorem set_room_setpoint_request : forall home_id room_id temp duration f w,
  token_fresh w ->
  py_float temp = Ok f ->
  is_number duration && number_positive duration = false ->
  exists rq,
    set_room_setpoint home_id room_id temp duration w
    = (request_outcome (net w (n_requests w)), record_request rq (tick w))
    /\ rq_method rq = "POST"
    /\ rq_url rq = BASE_HOST ++ "/api/setroomthermpoint"
    /\ rq_json rq = None
    /\ rq_form rq
       = Some (form_fields [("home_id", home_id); ("room_id", room_id)]
               ++ [("mode", "manual"); ("temp", py_repr (PFloat f))])%list.
Proof.
  intros home_id room_id temp duration f w Hf Ht Hd.
  eexists. split; [apply set_room_setpoint_run; eassumption|].
  repeat split. cbn [rq_form].
  destruct home_id, room_id; reflexivity.
Qed.

(** X6. A temperature [float()] rejects leaves [set_room_setpoint] by its
    exception before anything is sent: no request, no change of the tokens or
    of the cached home (the clock at most was read for the duration). *)
Theorem set_room_setpoint_bad_temperature :
  forall home_id room_id temp duration e w,
    py_float temp = Raise e ->
    exists e' w',
      set_room_setpoint home_id room_id temp duration w = (Raise e', w')
      /\ trace w' = trace w /\ n_requests w' = n_requests w
      /\ auth w' = auth w /\ home_cache w' = home_cache w.
Proof.
  intros home_id room_id temp duration e w Ht.
  unfold set_room_setpoint. rewrite Ht.
  destruct (is_number duration && number_positive duration).
  - unfold bind, time_time, lift, ret.
    destruct (float_of_number duration) as [m|e1]; cbn.
    + destruct (int_of_float _) as [z|e2]; cbn;
        do 2 eexists; repeat split; reflexivity.
    + do 2 eexists; repeat split; reflexivity.
  - unfold bind, ret, lift. do 2 eexists; repeat split; reflexivity.
Qed.

(** X7. With a positive duration, the end time [set_room_setpoint] sends is
    the clock read at the call plus the duration in minutes times 60, cut to
    an integer; the request is the same form with [endtime] added. *)
Theorem set_room_setpoint_endtime :
  forall home_id room_id temp duration f minutes z w,
    token_fresh w ->
    py_float temp = Ok f ->
    is_number duration && number_positive duration = true ->
    float_of_number duration = Ok minutes ->
    int_of_float (float_add (clock w (n_clock w))
                    (float_mul minutes (float_lit 60))) = Ok z ->
    set_room_setpoint home_id room_id temp duration w
    = (request_outcome (net w (n_requests w)),
       record_request
         (mkRequest "POST" (BASE_HOST ++ "/api/setroomthermpoint")
            (_auth_headers (auth w)
             ++ [("Content-Type", "application/x-www-form-urlencoded")])%list
            None
            (Some (form_fields [("home_id", home_id); ("room_id", room_id);
                                ("mode", PStr "manual"); ("temp", PFloat f);
                                ("endtime", PInt z)])))
         (tick (tick w))).
Proof.
  intros home_id room_id temp duration f minutes z w Hf Ht Hd Hm Hz.
  unfold set_room_setpoint. rewrite Hd, Ht.
  unfold bind at 1. unfold bind at 1, time_time.
  rewrite Hm. unfold bind at 1, lift. rewrite Hz.
  unfold bind at 1, ret. unfold bind at 1.
  rewrite (post_setroomthermpoint_run _ _ _ _ _ [("temp", PFloat f)]
             [("endtime", PInt z)] (tick w) (token_fresh_tick w Hf));
    reflexivity.
Qed.

(** X8. A poll with a cached home and a valid token is two requests, the
    status then the day's energy measure, both for the cached home's id; it
    returns the two bodies under [status] and [measures] and leaves the tokens
    and the cached home as they were. *)
Theorem poll_with_cached_home : forall w d status measures st1 t1 st2 t2,
  token_fresh w ->
  home_cache w = PDict d ->
  str_nonempty (home_id_of d) = true ->
  net w (n_requests w) = Resp st1 (Got status) t1 -> st1 < 400 ->
  net w (S (n_requests w)) = Resp st2 (Got measures) t2 -> st2 < 400 ->
  exists w' rq1 rq2,
    _async_update_data w
    = (Ok (PDict [("home_id", PStr (home_id_of d)); ("status", status);
                  ("measures", measures)]), w')
    /\ trace w' = (EvRequest rq2 :: EvRequest rq1 :: trace w)%list
    /\ rq_url rq1 = BASE_HOST ++ "/syncapi/v1/homestatus"
    /\ rq_form rq1 = Some [("home_id", home_id_of d)]
    /\ rq_url rq2 = BASE_HOST ++ "/api/gethomemeasure"
    /\ rq_form rq2 = Some (measure_form (home_id_of d) true)
    /\ auth w' = auth w /\ home_cache w' = home_cache w.
Proof.
  intros w d status measures st1 t1 st2 t2 Hf Hc Hid H1 Hs1 H2 Hs2.
  unfold _async_update_data, try_except at 1, update_body, async_authenticate.
  erewrite bind_ok; [|apply ensure_token_fresh; assumption].
  erewrite bind_ok; [|apply get_home_id_cached; [exact Hc|exact Hid]].
  set (w1 := tick w). assert (Hf1 : token_fresh w1) by now apply token_fresh_tick.
  erewrite bind_ok.
  2:{ rewrite homestatus_run by assumption. cbn [net n_requests w1 tick].
      rewrite H1, request_outcome_ok by assumption. reflexivity. }
  set (w2 := record_request _ (tick w1)).
  assert (Hf2 : token_fresh w2)
    by now apply token_fresh_record, token_fresh_tick.
  erewrite bind_ok.
  2:{ unfold try_except. rewrite gethomemeasure_run by assumption.
      cbn [net n_requests w2 w1 tick record_request].
      rewrite H2, request_outcome_ok by assumption. reflexivity. }
  do 3 eexists. split; [reflexivity|].
  cbn. repeat split; reflexivity.
Qed.

(* ===================================================================== *)
(** * Further properties of the home discovery *)
(* ===================================================================== *)

(** X9. [_extract_home_from_homesdata] raises [IntuisApiError] exactly when
    no dict of the payload has a usable id, and raises nothing else; what it
    returns is a dict of the payload with a usable id. *)
Theorem _extract_home_from_homesdata_fails_iff : forall payload,
  (_extract_home_from_homesdata payload = Raise IntuisApiError
   <-> no_id_below payload)
  /\ (forall e, _extract_home_from_homesdata payload = Raise e ->
                e = IntuisApiError)
  /\ (forall home, _extract_home_from_homesdata payload = Ok home ->
        exists q d, home = PDict d /\ at_path payload q = Some home
                    /\ has_id d = true).
Proof.
  intro payload.
  destruct (bfs_result payload) as [st [Hrun [Hb Hmax]]].
  assert (Hnone : bbest st = None -> no_id_below payload).
  { intros Hn p d Hp. destruct (has_id d) eqn:E; [|reflexivity].
    destruct (Hmax p d Hp E) as [H _]. congruence. }
  unfold _extract_home_from_homesdata. rewrite Hrun.
  destruct (bbest st) as [b|] eqn:Eb.
  - destruct (Hb b eq_refl) as [q [d [-> [Hq [Hid _]]]]].
    split; [split; [discriminate|]|split; [discriminate|]].
    + intro Hno. rewrite (Hno q d Hq) in Hid. discriminate.
    + intros home H. inversion H; subst. eauto.
  - rewrite (_search_home_none 33 payload (Hnone eq_refl)).
    split; [split; [intros _; now apply Hnone|reflexivity]|].
    split; [intros e H; now inversion H|discriminate].
Qed.

(** X10. Whenever the recursive fallback [_search_home] would find a home,
    the breadth-first search before it has ended with a best candidate: the
    fallback is never what [_extract_home_from_homesdata] returns. *)
Theorem _search_home_adds_nothing : forall payload levels home,
  _search_home levels payload = Some home ->
  exists st best,
    bfs_loop (weight payload) (bfs_init payload) = Some st
    /\ bbest st = Some best
    /\ _extract_home_from_homesdata payload = Ok best.
Proof.
  intros payload levels home H.
  destruct (bfs_result payload) as [st [Hrun [Hb Hmax]]].
  destruct (bbest st) as [b|] eqn:Eb.
  - exists st, b. unfold _extract_home_from_homesdata. rewrite Hrun, Eb. auto.
  - rewrite _search_home_none in H; [discriminate|].
    intros p d Hp. destruct (has_id d) eqn:E; [|reflexivity].
    destruct (Hmax p d Hp E) as [Hne _]. congruence.
Qed.

(** X11. A home at the root of the payload is the one returned when it has a
    usable id and scores higher than every dict with a usable id below it
    (its rooms, modules and schedules, say). *)
Theorem root_home_preferred : forall d,
  has_id d = true ->
  (forall p d', p <> [] -> at_path (PDict d) p = Some (PDict d') ->
                has_id d' = true -> _score_candidate d' < _score_candidate d) ->
  _extract_home_from_homesdata (PDict d) = Ok (PDict d).
Proof.
  intros d Hid Hlow.
  destruct (bfs_result (PDict d)) as [st [Hrun [Hb Hmax]]].
  unfold _extract_home_from_homesdata. rewrite Hrun.
  destruct (Hmax [] d eq_refl Hid) as [Hne Hle].
  destruct (bbest st) as [b|] eqn:Eb; [|congruence].
  destruct (Hb b eq_refl) as [q [d0 [-> [Hq [Hid0 Hsc]]]]].
  destruct q as [|i q].
  - cbn in Hq. now inversion Hq.
  - assert (i :: q <> []) as Hnil by discriminate.
    specialize (Hlow (i :: q) d0 Hnil Hq Hid0). lia.
Qed.

Lemma lookup_dict_set_other : forall k k' v d,
  k' <> k -> lookup k' (dict_set k v d) = lookup k' d.
Proof.
  intros k k' v d Hne. induction d as [|[k0 v0] d IH]; cbn.
  - apply String.eqb_neq in Hne. now rewrite Hne.
  - destruct (String.eqb k k0) eqn:E; cbn.
    + apply String.eqb_eq in E. subst k0.
      apply String.eqb_neq in Hne. now rewrite Hne.
    + now rewrite IH.
Qed.

(** X12. The home [get_home] fetches is returned and cached with its id
    normalised: ["id"] holds the stripped text of the id found under [id],
    [_id] or [home_id], and every other key reads as in the extracted home. *)
Theorem get_home_normalises_id : forall w payload w1 d,
  home_cache w = PNone ->
  get_homesdata w = (Ok payload, w1) ->
  _extract_home_from_homesdata payload = Ok (PDict d) ->
  str_nonempty (home_id_of d) = true ->
  exists d',
    get_home w = (Ok (PDict d'), set_home_cache (PDict d') w1)
    /\ lookup "id" d' = Some (PStr (home_id_of d))
    /\ (forall k, k <> "id" -> lookup k d' = lookup k d)
    /\ strip (home_id_of d) = home_id_of d.
Proof.
  intros w payload w1 d Hc Hg He Hid.
  exists (dict_set "id" (PStr (home_id_of d)) d).
  split; [|split; [apply lookup_dict_set|split]].
  - rewrite (get_home_uncached w Hc). unfold fetch_home.
    rewrite (bind_ok _ _ _ _ _ _ _ Hg). rewrite He.
    unfold bind at 1, lift. unfold cache_home. rewrite Hid. reflexivity.
  - intros k Hk. now apply lookup_dict_set_other.
  - unfold home_id_of. apply strip_idem.
Qed.

(** X13. The id [get_home_id] returns is never empty and carries no blank at
    either end, whatever the cache holds and whatever the server sent. *)
Theorem get_home_id_not_blank : forall w hid w',
  get_home_id w = (Ok hid, w') -> hid <> "" /\ strip hid = hid.
Proof.
  intros w hid w' H. unfold get_home_id in H.
  apply bind_ok_inv in H as [cached [w1 [_ H]]].
  apply bind_ok_inv in H as [from_cache [w2 [Hfc H]]].
  destruct (str_nonempty from_cache) eqn:Ef.
  - inversion H; subst.
    split; [now apply str_nonempty_true|].
    destruct (py_truthy cached); [|inversion Hfc; subst; discriminate].
    destruct cached; try discriminate.
    inversion Hfc; subst. unfold home_id_of. apply strip_idem.
  - apply bind_ok_inv in H as [home [w3 [_ H]]].
    destruct home; try discriminate.
    destruct (str_nonempty (home_id_of entries)) eqn:Eh; [|discriminate].
    inversion H; subst.
    split; [now apply str_nonempty_true|].
    unfold home_id_of. apply strip_idem.
Qed.

(* ===================================================================== *)
(** * Further properties of the climate entity *)
(* ===================================================================== *)

(** The JSON request [set_room_mode] sends for a room's mode alone. *)
Definition setstate_request (a : AuthState) (home_id room_id mode : string)
  : Request :=
  mkRequest "POST" (BASE_HOST ++ "/syncapi/v1/setstate") (_auth_headers a)
    (Some (PDict [("home",
                   PDict [("id", PStr home_id);
                          ("rooms",
                           PList [PDict [("id", PStr room_id);
                                         ("therm_setpoint_mode", PStr mode)]])])]))
    None.

(** A command made of one request and, when it returned, the refresh. *)
Definition request_then_refresh (rq : Request) (w : World) : result unit * World :=
  let w1 := record_request rq (tick w) in
  match request_outcome (net w (n_requests w)) with
  | Ok _ => async_request_refresh w1
  | Raise ex => (Raise ex, w1)
  end.

Lemma climate_set_room_mode_run : forall e mode w,
  token_fresh w ->
  climate_set_room_mode e mode w
  = (request_outcome (net w (n_requests w)),
     record_request
       (setstate_request (auth w) (c_home_id e) (c_room_id e) mode) (tick w)).
Proof.
  intros e mode w Hf. unfold climate_set_room_mode, set_room_mode.
  rewrite (post_setstate_rooms_run _ _ _ _ _ [] [] w Hf) by reflexivity.
  unfold build_request, setstate_request. cbn [option_map app].
  now rewrite app_nil_r.
Qed.

Lemma mode_then_refresh : forall e mode w,
  token_fresh w ->
  (climate_set_room_mode e mode ;;; async_request_refresh) w
  = request_then_refresh
      (setstate_request (auth w) (c_home_id e) (c_room_id e) mode) w.
Proof.
  intros e mode w Hf. unfold bind, request_then_refresh.
  rewrite (climate_set_room_mode_run e mode w Hf).
  now destruct (request_outcome (net w (n_requests w))).
Qed.

(** The room mode [async_set_hvac_mode] sends for a mode. *)
Definition hvac_room_mode (m : HVACMode) : string :=
  match m with
  | HVAC_OFF => "off"
  | HVAC_HEAT => "manual"
  | HVAC_AUTO => "home"
  end.

(** Whether [async_set_preset_mode] knows the preset. *)
Definition known_preset (p : string) : bool :=
  String.eqb p "home" || String.eqb p "away" || String.eqb p "hg".

(** X14. The mode commands.  Under a valid token, [async_set_hvac_mode]
    sends one JSON request to [/syncapi/v1/setstate] that sets the room's
    [therm_setpoint_mode] to [off] for OFF, [manual] for HEAT and [home] for
    AUTO, with no temperature and no end time, and asks for a refresh when
    the request returned; when it raised, the exception leaves the command
    and no refresh is asked.  [async_set_preset_mode] does the same with the
    preset's own name for [home], [away] and [hg]; for any other preset it
    sends nothing and only asks for the refresh. *)
Theorem mode_commands : forall e w,
  token_fresh w ->
  (forall m,
     async_set_hvac_mode e m w
     = request_then_refresh
         (setstate_request (auth w) (c_home_id e) (c_room_id e)
            (hvac_room_mode m)) w)
  /\ (forall p, known_preset p = true ->
        async_set_preset_mode e p w
        = request_then_refresh
            (setstate_request (auth w) (c_home_id e) (c_room_id e) p) w)
  /\ (forall p, known_preset p = false ->
        async_set_preset_mode e p w = async_request_refresh w).
Proof.
  intros e w Hf. split; [|split].
  - intros []; unfold async_set_hvac_mode; now rewrite mode_then_refresh.
  - intros p Hp. unfold async_set_preset_mode, known_preset in *.
    unfold PRESET_HOME, PRESET_AWAY, PRESET_HG.
    assert (Hthen : forall mode,
               ((climate_set_room_mode e mode ;;; ret tt) ;;; async_request_refresh) w
               = request_then_refresh
                   (setstate_request (auth w) (c_home_id e) (c_room_id e) mode) w).
    { intro mode. rewrite <- mode_then_refresh by assumption.
      unfold bind, ret. now destruct (climate_set_room_mode e mode w) as [[u|ex] w1]. }
    destruct (String.eqb_spec p "home") as [E|_]; [rewrite E; apply Hthen|].
    destruct (String.eqb_spec p "away") as [E|_]; [rewrite E; apply Hthen|].
    destruct (String.eqb_spec p "hg") as [E|_];
      [rewrite E; apply Hthen|discriminate].
  - intros p Hp. unfold async_set_preset_mode, known_preset in *.
    unfold PRESET_HOME, PRESET_AWAY, PRESET_HG.
    destruct (String.eqb p "home"); [discriminate|].
    destruct (String.eqb p "away"); [discriminate|].
    destruct (String.eqb p "hg"); [discriminate|]. reflexivity.
Qed.


(** The form [set_room_setpoint] sends for a temperature alone. *)
Definition setpoint_request (a : AuthState) (home_id room_id : string)
    (f : float) : Request :=
  mkRequest "POST" (BASE_HOST ++ "/api/setroomthermpoint")
    (_auth_headers a ++ [("Content-Type", "application/x-www-form-urlencoded")])%list
    None
    (Some [("home_id", home_id); ("room_id", room_id); ("mode", "manual");
           ("temp", py_repr (PFloat f))]).

(** X15. [async_set_temperature].  Without a temperature among the keyword
    arguments, or with [None], nothing is sent and no refresh is asked.  A
    temperature [float()] rejects raises before anything is sent.  Otherwise,
    under a valid token, the room is first put in [manual] mode by a JSON
    request to [/syncapi/v1/setstate]; only when that returned is the
    temperature sent, as a form to [/api/setroomthermpoint] with the mode
    [manual] and no end time, and only when that returned too is the refresh
    asked. *)
Theorem set_temperature_command : forall e kwargs w,
  (get ATTR_TEMPERATURE kwargs = PNone ->
   async_set_temperature e kwargs w = (Ok tt, w))
  /\ (forall v ex,
        lookup ATTR_TEMPERATURE kwargs = Some v -> v <> PNone ->
        py_float v = Raise ex ->
        async_set_temperature e kwargs w = (Raise ex, w))
  /\ (forall v f,
        lookup ATTR_TEMPERATURE kwargs = Some v ->
        py_float v = Ok f ->
        token_fresh w ->
        let w1 := record_request
                    (setstate_request (auth w) (c_home_id e) (c_room_id e)
                       "manual") (tick w) in
        async_set_temperature e kwargs w
        = match request_outcome (net w (n_requests w)) with
          | Ok _ =>
              request_then_refresh
                (setpoint_request (auth w) (c_home_id e) (c_room_id e) f) w1
          | Raise ex => (Raise ex, w1)
          end).
Proof.
  intros e kwargs w. split; [|split].
  - unfold async_set_temperature, get, get_default.
    destruct (lookup ATTR_TEMPERATURE kwargs) as [v|]; [|reflexivity].
    intros ->. reflexivity.
  - intros v ex Hl Hv Hf. unfold async_set_temperature. rewrite Hl.
    destruct v; try congruence; rewrite Hf; reflexivity.
  - intros v f Hl Hf Hw w1. unfold async_set_temperature. rewrite Hl.
    assert (Hrun : (temp <- lift (py_float v) ;;
                    climate_set_room_mode e "manual" ;;;
                    set_room_setpoint (PStr (c_home_id e)) (PStr (c_room_id e))
                      (PFloat temp) PNone ;;;
                    async_request_refresh) w
                   = match request_outcome (net w (n_requests w)) with
                     | Ok _ =>
                         request_then_refresh
                           (setpoint_request (auth w) (c_home_id e)
                              (c_room_id e) f) w1
                     | Raise ex => (Raise ex, w1)
                     end).
    { rewrite Hf. unfold bind at 1, lift. unfold bind at 1.
      rewrite (climate_set_room_mode_run e "manual" w Hw). fold w1.
      destruct (request_outcome (net w (n_requests w))) as [u|ex]; [|reflexivity].
      assert (Hw1 : token_fresh w1)
        by (apply token_fresh_record, token_fresh_tick; exact Hw).
      unfold bind at 1.
      rewrite (set_room_setpoint_run (PStr (c_home_id e))
                 (PStr (c_room_id e)) (PFloat f) PNone f w1 Hw1)
        by reflexivity.
      unfold request_then_refresh, setpoint_request. cbn [form_fields is_none py_str].
      now destruct (request_outcome (net w1 (n_requests w1))). }
    destruct v; try exact Hrun. discriminate.
Qed.

(** ** The schedule select *)





Local Close Scope m_scope.
Local Open Scope res_scope.

(** The home mode read off a status payload is [None], [home], [away] or
    [hg]. *)
Lemma _extract_home_mode_from_status_range : forall status hm,
  _extract_home_mode_from_status status = Ok hm ->
  hm = PNone \/ hm = PStr "home" \/ hm = PStr "away" \/ hm = PStr "hg".
Proof.
  intros status hm H. unfold _extract_home_mode_from_status in H.
  destruct status; try (inversion H; now left).
  apply rbind_ok_inv in H as [bh [_ H]].
  apply rbind_ok_inv in H as [mode [_ H]].
  destruct mode; try (inversion H; now left).
  destruct (String.eqb_spec (lower s) "home") as [E|_]; cbn [orb] in H.
  { inversion H. rewrite E. auto. }
  destruct (String.eqb_spec (lower s) "away") as [E|_]; cbn [orb] in H.
  { inversion H. rewrite E. auto. }
  destruct (String.eqb_spec (lower s) "hg") as [E|_]; cbn [orb] in H.
  { inversion H. rewrite E. auto. }
  inversion H. now left.
Qed.

(** What [hvac_mode] makes of a room whose record carries the mode [m]. *)
Lemma hvac_mode_of_room_mode : forall e data status r m,
  data_status data = Ok status ->
  climate_find_room_in_payload status (PStr (c_room_id e)) = Ok (PDict r) ->
  get "therm_setpoint_mode" r = PStr m ->
  hvac_mode e data
  = (home_mode <- _extract_home_mode_from_status status ;;
     hp <- room_mode_to_hvac_and_preset (PStr (lower m)) home_mode ;;
     Ok (fst hp,
         mkClimate (c_home_id e) (c_room_id e) (c_room_name e) (c_name e)
           (c_unique_id e) (snd hp))).
Proof.
  intros e data status r m Hs Hf Hm. unfold hvac_mode.
  rewrite Hs; cbn [rbind]; rewrite Hf. cbn [rbind]. rewrite Hm.
  assert (Hl : py_lower (py_or (PStr m) (PStr "")) = Ok (lower m))
    by now destruct m.
  now rewrite Hl.
Qed.

(** X17. Reading back a mode command.  Once the status carries for the room
    the mode [async_set_hvac_mode] sent, [hvac_mode] reports the mode that was
    set: always for OFF and HEAT, and for AUTO unless the home is in frost
    guard ([hg]), where the room set to AUTO reads as HEAT. *)
Theorem hvac_mode_reads_back : forall e data status r m hm,
  data_status data = Ok status ->
  climate_find_room_in_payload status (PStr (c_room_id e)) = Ok (PDict r) ->
  get "therm_setpoint_mode" r = PStr (hvac_room_mode m) ->
  _extract_home_mode_from_status status = Ok hm ->
  exists e',
    hvac_mode e data
    = Ok (match m with
          | HVAC_AUTO => if str_eq "hg" hm then HVAC_HEAT else HVAC_AUTO
          | _ => m
          end, e').
Proof.
  intros e data status r m hm Hs Hf Hm Hh.
  rewrite (hvac_mode_of_room_mode e data status r _ Hs Hf Hm), Hh. cbn [rbind].
  destruct (_extract_home_mode_from_status_range status hm Hh)
    as [-> | [-> | [-> | ->]]];
    destruct m; eexists; reflexivity.
Qed.

(** X18. Reading back a preset command.  Once the status carries for the
    room the mode [async_set_preset_mode] sent, reading [hvac_mode] leaves
    [preset_mode] at the preset that was set for [away] and [hg]; for [home]
    it is the home's own mode when that is [away] or [hg], and [home]
    otherwise. *)
Theorem preset_mode_reads_back : forall e data status r p hm,
  known_preset p = true ->
  data_status data = Ok status ->
  climate_find_room_in_payload status (PStr (c_room_id e)) = Ok (PDict r) ->
  get "therm_setpoint_mode" r = PStr p ->
  _extract_home_mode_from_status status = Ok hm ->
  exists h e',
    hvac_mode e data = Ok (h, e')
    /\ preset_mode e'
       = Some (if String.eqb p "home"
               then (if str_eq "hg" hm then "hg"
                     else if str_eq "away" hm then "away" else "home")
               else p).
Proof.
  intros e data status r p hm Hp Hs Hf Hm Hh.
  rewrite (hvac_mode_of_room_mode e data status r _ Hs Hf Hm), Hh. cbn [rbind].
  unfold known_preset in Hp.
  destruct (String.eqb_spec p "home") as [E|_];
    [|destruct (String.eqb_spec p "away") as [E|_];
      [|destruct (String.eqb_spec p "hg") as [E|_]; [|discriminate]]];
    rewrite E;
    destruct (_extract_home_mode_from_status_range status hm Hh)
      as [-> | [-> | [-> | ->]]];
    do 2 eexists; split; reflexivity.
Qed.

(** X19. A room that the status does not hold: the entity reports no current
    temperature, and the mode AUTO with no preset. *)
Theorem missing_room_reads : forall e data status hm,
  data_status data = Ok status ->
  climate_find_room_in_payload status (PStr (c_room_id e)) = Ok PNone ->
  _extract_home_mode_from_status status = Ok hm ->
  current_temperature e data = Ok PNone
  /\ exists e', hvac_mode e data = Ok (HVAC_AUTO, e') /\ preset_mode e' = None.
Proof.
  intros e data status hm Hs Hf Hh. split.
  - unfold current_temperature. rewrite Hs; cbn [rbind]; rewrite Hf. reflexivity.
  - unfold hvac_mode. rewrite Hs; cbn [rbind]; rewrite Hf. cbn [rbind].
    rewrite Hh. cbn [rbind].
    destruct (_extract_home_mode_from_status_range status hm Hh)
      as [-> | [-> | [-> | ->]]]; eexists; split; reflexivity.
Qed.

Lemma no_configs_no_setpoint : forall room_id,
  climate_get_room_setpoint_from_configs (PDict []) room_id = Ok PNone.
Proof. reflexivity. Qed.

(** X20. The schedule fallback of the setpoint never answers on the dict the
    coordinator returns, which has no [configs]: when the room's record in
    the status carries no numeric setpoint, [target_temperature] is [None];
    and the fallback of [sensor.py] gives [None] for every room. *)
Theorem target_temperature_without_configs : forall w d w' e status room,
  (_async_update_data w = (Ok d, w'))%type ->
  data_status d = Ok status ->
  climate_find_room_in_payload status (PStr (c_room_id e)) = Ok room ->
  is_number (room_field room "therm_setpoint_temperature") = false ->
  target_temperature e d = Ok PNone
  /\ forall rid dd, d = PDict dd ->
       sensor_get_room_setpoint_from_configs
         (py_or (get "configs" dd) (PDict [])) rid = Ok PNone.
Proof.
  intros w d w' e status room Hu Hs Hf Hn.
  destruct (_async_update_data_shape w d w' Hu) as [hid [st [ms ->]]].
  split.
  - unfold target_temperature. rewrite Hs; cbn [rbind]; rewrite Hf.
    cbn [rbind]. rewrite Hn. reflexivity.
  - intros rid dd Hd. inversion Hd; subst. reflexivity.
Qed.

(** ** The schedule select: the current option *)

Lemma current_option_in_fields : forall items found,
  for_first
    (fun s =>
       sel <- py_get s "selected" ;;
       if py_truthy sel
       then (name <- py_get s "name" ;; Ok (Some name))
       else Ok None) items = Ok (Some found) ->
  In found (dict_fields "name" items).
Proof.
  induction items as [|s items IH]; intros found H; [discriminate|].
  cbn [for_first] in H.
  destruct s; try discriminate. cbn [py_get rbind] in H.
  cbn [dict_fields flat_map app].
  destruct (py_truthy (get "selected" entries)).
  - inversion H. now left.
  - right. now apply IH.
Qed.

(** X21. What [current_option] returns on the entity the set-up creates is
    [None] or one of the entity's [options]: the name of the first schedule
    marked [selected]. *)
Theorem current_option_is_an_option : forall data e v,
  select_async_setup_entry data = Ok [e] ->
  current_option e = Ok v ->
  v = PNone \/ In v (options e).
Proof.
  intros data e v Hs Hc.
  unfold select_async_setup_entry in Hs.
  apply rbind_ok_inv in Hs as [home [_ Hs]].
  apply rbind_ok_inv in Hs as [home_id [_ Hs]].
  apply rbind_ok_inv in Hs as [ts [_ Hs]].
  apply rbind_ok_inv in Hs as [ss [_ Hs]].
  apply rbind_ok_inv in Hs as [items [Hi Hs]].
  inversion Hs; subst; clear Hs.
  unfold current_option in Hc. cbn [sel_schedules] in Hc. rewrite Hi in Hc.
  cbn [rbind] in Hc.
  apply rbind_ok_inv in Hc as [found [Hf Hc]]. inversion Hc; subst.
  destruct found as [name|]; [right|now left].
  unfold options. cbn [sel_options]. now apply current_option_in_fields.
Qed.

(* ===================================================================== *)
(** * Further properties of the entities' identities *)
(* ===================================================================== *)

Lemma append_inj_l : forall a x y : string, (a ++ x = a ++ y)%string -> x = y.
Proof.
  induction a as [|c a IH]; intros x y H; [exact H|].
  cbn in H. injection H as H. now apply IH.
Qed.

Lemma length_append : forall a b : string,
  String.length (a ++ b) = (String.length a + String.length b)%nat.
Proof.
  induction a as [|c a IH]; intro b; [reflexivity|]. cbn. now rewrite IH.
Qed.

Lemma append_inj_r : forall s x y : string, (x ++ s = y ++ s)%string -> x = y.
Proof.
  intros s x. induction x as [|c x IH]; intros [|c' y] H.
  - reflexivity.
  - apply (f_equal String.length) in H. cbn in H. rewrite length_append in H. lia.
  - apply (f_equal String.length) in H. cbn in H. rewrite length_append in H. lia.
  - cbn in H. injection H as Hc H. subst c'. f_equal. now apply IH.
Qed.

Lemma NoDup_map_injective : forall A B (f : A -> B) l,
  (forall x y, f x = f y -> x = y) -> NoDup l -> NoDup (map f l).
Proof.
  intros A B f l Hinj H. induction H as [|x l Hx _ IH]; cbn; constructor; auto.
  intro Hin. apply in_map_iff in Hin as [y [Hy Hin]].
  apply Hinj in Hy. now subst.
Qed.

(** The unique id and the device identifier of a room's climate entity. *)
Definition climate_unique_id_of (home_id : pyval) (rid : string) : string :=
  "intuis_" ++ py_str home_id ++ "_" ++ rid ++ "_climate".
Definition room_device_id_of (home_id rid : string) : string :=
  "room_" ++ home_id ++ "_" ++ rid.

Lemma climate_of_room_unique_ids : forall home_id rms,
  map c_unique_id (flat_map (climate_of_room home_id) rms)
  = map (climate_unique_id_of home_id)
      (filter str_nonempty (map climate_room_id rms)).
Proof.
  intros home_id rms. induction rms as [|rm rms IH]; [reflexivity|].
  cbn [flat_map map filter]. rewrite map_app, IH. unfold climate_of_room.
  now destruct (str_nonempty (climate_room_id rm)).
Qed.

Lemma climate_of_room_device_ids : forall home_id rms,
  map (fun e => snd (dev_identifier (climate_device_info e)))
    (flat_map (climate_of_room home_id) rms)
  = map (room_device_id_of (py_str home_id))
      (filter str_nonempty (map climate_room_id rms)).
Proof.
  intros home_id rms. induction rms as [|rm rms IH]; [reflexivity|].
  cbn [flat_map map filter]. rewrite map_app, IH. unfold climate_of_room.
  now destruct (str_nonempty (climate_room_id rm)).
Qed.

(** X22. The climate entities set up for rooms whose ids are pairwise
    different have pairwise different unique ids, and pairwise different
    device identifiers. *)
Theorem climate_unique_ids : forall dd home rms,
  get "home" dd = PDict home ->
  get_default "rooms" (PList []) home = PList (map PDict rms) ->
  NoDup (filter str_nonempty (map climate_room_id rms)) ->
  exists ents,
    climate_async_setup_entry (PDict dd) = Ok ents
    /\ map c_room_id ents = filter str_nonempty (map climate_room_id rms)
    /\ NoDup (map c_unique_id ents)
    /\ NoDup (map (fun e => snd (dev_identifier (climate_device_info e))) ents).
Proof.
  intros dd home rms Hh Hr Hnd.
  exists (flat_map (climate_of_room (get "home_id" dd)) rms).
  split; [exact (climate_setup_rooms dd home rms Hh Hr)|].
  split; [apply climate_of_room_ids|]. split.
  - rewrite climate_of_room_unique_ids.
    apply NoDup_map_injective; [|exact Hnd].
    intros x y H. unfold climate_unique_id_of in H.
    apply append_inj_l in H. apply append_inj_l in H. apply append_inj_l in H.
    now apply append_inj_r in H.
  - rewrite climate_of_room_device_ids.
    apply NoDup_map_injective; [|exact Hnd].
    intros x y H. unfold room_device_id_of in H.
    apply append_inj_l in H. apply append_inj_l in H.
    now apply append_inj_l in H.
Qed.

(** The sensors of a room with an id: at most one per value, in this order. *)
Lemma room_sensors_shape : forall home_id status configs rm l,
  room_sensors home_id status configs (PDict rm) = Ok l ->
  str_nonempty (sensor_room_id rm) = true ->
  exists a b c,
    l = (a ++ b ++ c)%list
    /\ (a = [] \/ exists f,
          a = [room_temp_sensor home_id (sensor_room_id rm)
                 (room_name_of rm (sensor_room_id rm)) "_measured" " Measured" f])
    /\ (b = [] \/ exists f,
          b = [room_temp_sensor home_id (sensor_room_id rm)
                 (room_name_of rm (sensor_room_id rm)) "_setpoint" " Setpoint" f])
    /\ (c = [] \/ exists md,
          c = [room_text_sensor home_id (sensor_room_id rm)
                 (room_name_of rm (sensor_room_id rm)) md]).
Proof.
  intros home_id status configs rm l H Hid. unfold room_sensors in H.
  cbn [py_get rbind] in H. fold (sensor_room_id rm) in H.
  rewrite Hid in H. cbn [negb] in H.
  fold (room_name_of rm (sensor_room_id rm)) in H.
  apply rbind_ok_inv in H as [m [_ H]].
  apply rbind_ok_inv in H as [m' [_ H]].
  apply rbind_ok_inv in H as [a [Ha H]].
  apply rbind_ok_inv in H as [sp [_ H]].
  apply rbind_ok_inv in H as [sp' [_ H]].
  apply rbind_ok_inv in H as [b [Hb H]].
  apply rbind_ok_inv in H as [mode [_ H]].
  inversion H; subst l; clear H.
  exists a, b.
  eexists. split; [reflexivity|]. split; [|split].
  - destruct (is_number m'); [|inversion Ha; now left].
    apply rbind_ok_inv in Ha as [f [_ Ha]]. inversion Ha. right. now exists f.
  - destruct (is_number sp'); [|inversion Hb; now left].
    apply rbind_ok_inv in Hb as [f [_ Hb]]. inversion Hb. right. now exists f.
  - destruct mode; try now left. right. now eexists.
Qed.

(** X23. A room's sensors sit on the device of the room's climate entity:
    for a home id that is a non-empty string and a room whose [id] is set,
    every sensor [sensor.py] creates for the room carries the device
    [climate.py] gives the room's climate entity. *)
Theorem room_sensors_share_climate_device :
  forall hid status configs rm l s c,
    str_nonempty hid = true ->
    py_truthy (get "id" rm) = true ->
    room_sensors (PStr hid) status configs (PDict rm) = Ok l ->
    In s l ->
    In c (climate_of_room (PStr hid) rm) ->
    s_device s = climate_device_info c.
Proof.
  intros hid status configs rm l s c Hh Hi Hr Hs Hc.
  assert (Hsame : sensor_room_id rm = climate_room_id rm).
  { unfold sensor_room_id, climate_room_id, py_or. rewrite Hi. now rewrite Hi. }
  unfold climate_of_room in Hc.
  destruct (str_nonempty (climate_room_id rm)) eqn:Hne; [|destruct Hc].
  destruct Hc as [<-|[]].
  assert (Hdev : s_device s
                 = device_info_room (PStr hid) (PStr (climate_room_id rm))
                     (room_name_of rm (climate_room_id rm))).
  { rewrite <- Hsame in Hne.
    destruct (room_sensors_shape _ _ _ _ _ Hr Hne)
      as [a [b [c0 [-> [Ha [Hb Hc0]]]]]].
    assert (Hor : py_or (PStr hid) (PStr "home") = PStr hid).
    { unfold py_or. cbn [py_truthy]. now rewrite Hh. }
    rewrite <- Hsame.
    apply in_app_or in Hs as [Hs|Hs]; [|apply in_app_or in Hs as [Hs|Hs]].
    - destruct Ha as [->|[f ->]]; [destruct Hs|].
      destruct Hs as [<-|[]]. cbn [s_device room_temp_sensor]. now rewrite Hor.
    - destruct Hb as [->|[f ->]]; [destruct Hs|].
      destruct Hs as [<-|[]]. cbn [s_device room_temp_sensor]. now rewrite Hor.
    - destruct Hc0 as [->|[md ->]]; [destruct Hs|].
      destruct Hs as [<-|[]]. cbn [s_device room_text_sensor]. now rewrite Hor. }
  rewrite Hdev. reflexivity.
Qed.

Fixpoint last_char (s : string) : option ascii :=
  match s with
  | EmptyString => None
  | String c r => match last_char r with
                  | None => Some c
                  | Some l => Some l
                  end
  end.

Lemma last_char_append : forall a b : string,
  b <> ""%string -> last_char (a ++ b) = last_char b.
Proof.
  intros a b Hb. induction a as [|c a IH]; [reflexivity|].
  cbn. rewrite IH. destruct b as [|c' b]; [congruence|].
  cbn. now destruct (last_char b).
Qed.

(** The suffixes of the unique ids [sensor.py] gives a room's sensors. *)
Definition room_suffixes : list string := ["_measured"; "_setpoint"; "_mode"].

Definition room_unique_id (home_id : pyval) (rid suffix : string) : string :=
  "intuis_" ++ py_str home_id ++ "_" ++ rid ++ suffix.

Lemma room_unique_id_inj : forall home_id rid1 rid2 s1 s2,
  In s1 room_suffixes -> In s2 room_suffixes ->
  room_unique_id home_id rid1 s1 = room_unique_id home_id rid2 s2 ->
  rid1 = rid2 /\ s1 = s2.
Proof.
  intros home_id rid1 rid2 s1 s2 H1 H2 H. unfold room_unique_id in H.
  apply append_inj_l in H. apply append_inj_l in H. apply append_inj_l in H.
  assert (Hl := f_equal last_char H).
  unfold room_suffixes in H1, H2. cbn [In] in H1, H2.
  destruct H1 as [<-|[<-|[<-|[]]]]; destruct H2 as [<-|[<-|[<-|[]]]];
    try (split; [now apply append_inj_r in H|reflexivity]);
    rewrite !last_char_append in Hl by discriminate; discriminate.
Qed.

(** The unique ids of a room's sensors. *)
Lemma room_sensors_unique_ids : forall home_id status configs rm l,
  room_sensors home_id status configs (PDict rm) = Ok l ->
  NoDup (map s_unique_id l)
  /\ forall u, In u (map s_unique_id l) ->
       str_nonempty (sensor_room_id rm) = true
       /\ exists suffix, In suffix room_suffixes
                         /\ u = room_unique_id home_id (sensor_room_id rm) suffix.
Proof.
  intros home_id status configs rm l H.
  destruct (str_nonempty (sensor_room_id rm)) eqn:Hid.
  2:{ assert (sensor_room_id rm = ""%string) as He
        by (destruct (sensor_room_id rm); [reflexivity|discriminate]).
      rewrite (room_sensors_no_id home_id status configs rm He) in H.
      inversion H. split; [constructor|intros u []]. }
  destruct (room_sensors_shape _ _ _ _ _ H Hid) as [a [b [c [-> [Ha [Hb Hc]]]]]].
  assert (Hin : forall u, In u (map s_unique_id (a ++ b ++ c)) ->
                  exists suffix, In suffix room_suffixes
                    /\ u = room_unique_id home_id (sensor_room_id rm) suffix).
  { intros u Hu. rewrite !map_app in Hu.
    apply in_app_or in Hu as [Hu|Hu]; [|apply in_app_or in Hu as [Hu|Hu]].
    - destruct Ha as [->|[f ->]]; [destruct Hu|]. destruct Hu as [<-|[]].
      exists "_measured"%string. split; [cbn; auto|reflexivity].
    - destruct Hb as [->|[f ->]]; [destruct Hu|]. destruct Hu as [<-|[]].
      exists "_setpoint"%string. split; [cbn; auto|reflexivity].
    - destruct Hc as [->|[md ->]]; [destruct Hu|]. destruct Hu as [<-|[]].
      exists "_mode"%string. split; [cbn; auto|reflexivity]. }
  split; [|intros u Hu; split; [reflexivity|now apply Hin]].
  assert (Hneq : forall s1 s2, In s1 room_suffixes -> In s2 room_suffixes ->
                   s1 <> s2 ->
                   room_unique_id home_id (sensor_room_id rm) s1
                   <> room_unique_id home_id (sensor_room_id rm) s2).
  { intros s1 s2 H1 H2 Hne Heq.
    destruct (room_unique_id_inj _ _ _ _ _ H1 H2 Heq) as [_ Hs]. contradiction. }
  assert (Hms : room_unique_id home_id (sensor_room_id rm) "_measured"
                <> room_unique_id home_id (sensor_room_id rm) "_setpoint")
    by (apply Hneq; cbn; auto; discriminate).
  assert (Hmm : room_unique_id home_id (sensor_room_id rm) "_measured"
                <> room_unique_id home_id (sensor_room_id rm) "_mode")
    by (apply Hneq; cbn; auto; discriminate).
  assert (Hsm : room_unique_id home_id (sensor_room_id rm) "_setpoint"
                <> room_unique_id home_id (sensor_room_id rm) "_mode")
    by (apply Hneq; cbn; auto; discriminate).
  destruct Ha as [->|[fa ->]], Hb as [->|[fb ->]], Hc as [->|[md ->]];
    cbn [app map s_unique_id room_temp_sensor room_text_sensor];
    fold (room_unique_id home_id (sensor_room_id rm) "_measured");
    fold (room_unique_id home_id (sensor_room_id rm) "_setpoint");
    fold (room_unique_id home_id (sensor_room_id rm) "_mode");
    repeat constructor; cbn [In]; intro H0;
    repeat (destruct H0 as [H0|H0]; [congruence|]); exact H0.
Qed.

Lemma rooms_sensors_unique_ids : forall home_id status configs rms per_room,
  Forall2 (fun rm l => room_sensors home_id status configs (PDict rm) = Ok l)
    rms per_room ->
  NoDup (filter str_nonempty (map sensor_room_id rms)) ->
  NoDup (map s_unique_id (List.concat per_room))
  /\ forall u, In u (map s_unique_id (List.concat per_room)) ->
       exists rid suffix,
         In rid (filter str_nonempty (map sensor_room_id rms))
         /\ In suffix room_suffixes
         /\ u = room_unique_id home_id rid suffix.
Proof.
  intros home_id status configs rms per_room H.
  induction H as [|rm l rms per_room Hl _ IH]; intro Hnd.
  - split; [constructor|intros u []].
  - destruct (room_sensors_unique_ids _ _ _ _ _ Hl) as [Hnl Hul].
    cbn [map filter] in Hnd |- *.
    assert (Hnd' : NoDup (filter str_nonempty (map sensor_room_id rms))).
    { destruct (str_nonempty (sensor_room_id rm)); [now inversion Hnd|exact Hnd]. }
    destruct (IH Hnd') as [Hnr Hur].
    cbn [List.concat]. rewrite map_app. split.
    + apply NoDup_app; [exact Hnl|exact Hnr|].
      intros u Hu1 Hu2.
      destruct (Hul u Hu1) as [Hid [s1 [Hs1 ->]]].
      destruct (Hur _ Hu2) as [rid [s2 [Hrid [Hs2 Heq]]]].
      destruct (room_unique_id_inj _ _ _ _ _ Hs1 Hs2 Heq) as [<- _].
      rewrite Hid in Hnd. inversion Hnd. contradiction.
    + intros u Hu. apply in_app_or in Hu as [Hu|Hu].
      * destruct (Hul u Hu) as [Hid [s1 [Hs1 ->]]].
        exists (sensor_room_id rm), s1. rewrite Hid. split; [now left|auto].
      * destruct (Hur u Hu) as [rid [s2 [Hrid [Hs2 ->]]]].
        exists rid, s2. split; [|auto].
        destruct (str_nonempty (sensor_room_id rm)); [now right|exact Hrid].
Qed.

(** X24. The sensors the set-up creates are the gateway's followed by the
    rooms'; when the rooms' ids are pairwise different, the unique ids of the
    rooms' sensors are pairwise different. *)
Theorem room_sensor_unique_ids : forall dd home rms ents,
  get "home" dd = PDict home ->
  get_default "rooms" (PList []) home = PList (map PDict rms) ->
  sensor_async_setup_entry (PDict dd) = Ok ents ->
  NoDup (filter str_nonempty (map sensor_room_id rms)) ->
  exists gateway room_ents,
    ents = (gateway ++ room_ents)%list
    /\ Forall (on_gateway (get "home_id" dd)) gateway
    /\ NoDup (map s_unique_id room_ents).
Proof.
  intros dd home rms ents Hh Hr Hs Hnd.
  destruct (sensor_setup_rooms dd home rms ents Hh Hr Hs)
    as [gateway [per_room [-> [Hg Hf]]]].
  exists gateway, (List.concat per_room). split; [reflexivity|].
  split; [exact Hg|].
  now destruct (rooms_sensors_unique_ids _ _ _ _ _ Hf Hnd).
Qed.

(* ===================================================================== *)
(** * Further properties of the sign-in form *)
(* ===================================================================== *)

(** X25. A sign-in that fails with [login]'s [IntuisApiError] is always
    shown as [invalid_auth], never as [cannot_connect], whatever the status
    (a 5xx of the server too) and whatever the body: the error's text names
    the token URL, whose [oauth2] holds the key [auth] the form looks for.
    [cannot_connect] is shown for a text that holds none of the four keys. *)
Theorem login_failure_is_invalid_auth : forall status reason err_text e text,
  error_base
    (login_failed_message
       (http_error_message "POST" token_url status reason err_text))
  = "invalid_auth"
  /\ error_base (login_failed_message (invalid_json_message token_url e text))
     = "invalid_auth"
  /\ (forall msg,
        (forall k, In k ["invalid_grant"; "auth"; "401"; "403"] ->
                   str_contains k (lower msg) = false) ->
        error_base msg = "cannot_connect").
Proof.
  intros status reason err_text e text.
  assert (Hyes : forall msg,
             str_contains "auth" (lower msg) = true ->
             error_base msg = "invalid_auth").
  { intros msg H. unfold error_base.
    assert (existsb (fun k => str_contains k (lower msg))
              ["invalid_grant"; "auth"; "401"; "403"] = true) as ->;
      [|reflexivity].
    apply existsb_exists. exists "auth". split; [cbn; auto|exact H]. }
  split; [|split].
  - apply Hyes. vm_compute. reflexivity.
  - apply Hyes. vm_compute. reflexivity.
  - intros msg H. unfold error_base. cbn [existsb].
    rewrite !H by (cbn; auto). reflexivity.
Qed.


(* ===================================================================== *)
(** * Further properties of the room lookups and the binary sensors *)
(* ===================================================================== *)

Lemma room_matches_agree : forall rid rms,
  Forall (fun rm => py_truthy (get "id" rm) = true) rms ->
  for_first (climate_room_matches (PStr rid)) (map PDict rms)
  = for_first (sensor_room_matches rid) (map PDict rms).
Proof.
  intros rid rms H. induction H as [|rm rms Hid _ IH]; [reflexivity|].
  cbn [map for_first]. unfold climate_room_matches at 1, sensor_room_matches at 1.
  cbn [py_get rbind py_str]. unfold py_or. rewrite Hid, Hid.
  destruct (String.eqb (py_str (get "id" rm)) rid); [reflexivity|exact IH].
Qed.

(** X26. The two [_find_room_in_payload], of [climate.py] and of
    [sensor.py], find the same record (or both none) in a status payload
    whose rooms, under [body.home.rooms], all carry a set [id] and which has
    no [rooms] of its own: the climate entity and the sensors of a room read
    the same record. *)
Theorem find_room_agrees : forall st body home rms rid,
  get "body" st = PDict body ->
  get "home" body = PDict home ->
  lookup "rooms" home = Some (PList (map PDict rms)) ->
  Forall (fun rm => py_truthy (get "id" rm) = true) rms ->
  lookup "rooms" st = None ->
  climate_find_room_in_payload (PDict st) (PStr rid)
  = sensor_find_room_in_payload (PDict st) rid.
Proof.
  intros st body home rms rid Hb Hh Hr Hids Hn.
  unfold climate_find_room_in_payload, sensor_find_room_in_payload.
  rewrite Hb, Hh. unfold get_default, get, get_default. rewrite Hr, Hn.
  cbn [py_iter rbind]. rewrite (room_matches_agree rid rms Hids).
  destruct (for_first (sensor_room_matches rid) (map PDict rms)) as [[r|]|e];
    reflexivity.
Qed.




End Credentials.
End Intuis.


(* ===================================================================== *)
(** * Concrete runs *)
(* ===================================================================== *)

(** The runs below use the sample text conversions and these credentials. *)
Definition s_client_id : string := "client".
Definition s_client_secret : string := "secret".
Definition s_scope : string := "read_muller write_muller".
Definition s_user_prefix : string := "muller".
Definition s_username : string := "user@example.org".
Definition s_password : string := "password".
Definition s_domain : string := "intuis_connect".

Definition s_login : M pyval :=
  login sample_repr s_client_id s_client_secret s_scope s_user_prefix
    s_username s_password.
Definition s_ensure_token : M unit :=
  ensure_token sample_repr s_client_id s_client_secret s_scope s_user_prefix
    s_username s_password.
Definition s_update : M pyval :=
  _async_update_data sample_repr sample_json_loads s_client_id s_client_secret
    s_scope s_user_prefix s_username s_password.
Definition s_get_home : M pyval :=
  get_home sample_repr sample_json_loads s_client_id s_client_secret
    s_scope s_user_prefix s_username s_password.

(** A response with status 200 and the JSON body [v]. *)
Definition ok_json (v : pyval) : Response := Resp 200 (Got v) (Got "").
(** A response with status 500 and a body that is no JSON. *)
Definition server_error : Response :=
  Resp 500 (Failed JSONDecodeError) (Got "Internal Server Error").

Definition s_clock (n : nat) : float := float_lit 1000.

Definition s_tokens : pyval :=
  PDict [("access_token", PStr "tok1"); ("refresh_token", PStr "ref1");
         ("expires_in", PInt 10800)].

Definition s_room : pyval :=
  PDict [("id", PStr "r1"); ("name", PStr "Salon")].

Definition s_home : pyval :=
  PDict [("id", PStr "h1"); ("name", PStr "Maison");
         ("rooms", PList [s_room])].

Definition s_homesdata : pyval := PDict [("body", PDict [("home", s_home)])].

Definition s_status_room : list (string * pyval) :=
  [("id", PStr "r1"); ("therm_measured_temperature", PInt 19);
   ("therm_setpoint_temperature", PInt 20);
   ("therm_setpoint_mode", PStr "manual")].

Definition s_status : pyval :=
  PDict [("body", PDict [("home", PDict [("id", PStr "h1");
                                          ("rooms", PList [PDict s_status_room])])])].

Definition s_measures (kwh : Z) : pyval :=
  PDict [("body", PDict [("measures", PList [PDict [("value", PInt kwh)]])])].

(** A healthy server: the token, the homes data, the status, the measures. *)
Definition s_net (kwh : Z) (n : nat) : Response :=
  match n with
  | 0%nat => ok_json s_tokens
  | 1%nat => ok_json s_homesdata
  | 2%nat => ok_json s_status
  | _ => ok_json (s_measures kwh)
  end.

(** What the first poll of a new client returns from that server. *)
Definition s_poll_data (kwh : Z) : pyval :=
  PDict [("home_id", PStr "h1"); ("status", s_status);
         ("measures", s_measures kwh)].

Example s_poll_run : forall kwh,
  fst (s_update (world_init (s_net kwh) s_clock)) = Ok (s_poll_data kwh).
Proof. intro kwh. vm_compute. reflexivity. Qed.

(* --------------------------------------------------------------------- *)
(** ** The search for the home *)

(** C1 fails as stated on a home whose id is a blank string: the dict at the
    root carries ['id'] with a non-empty string value, and no home is found;
    and a dict with a blank id is passed over whatever its score. *)
Lemma blank_id_is_no_home :
  str_nonempty " " = true
  /\ _extract_home_from_homesdata sample_repr
       (PDict [("id", PStr " "); ("name", PStr "Maison")])
     = Raise IntuisApiError
  /\ _extract_home_from_homesdata sample_repr
       (PDict [("id", PStr "x");
               ("home", PDict [("id", PStr " "); ("rooms", PList [PInt 1])])])
     = Ok (PDict [("id", PStr "x");
                  ("home", PDict [("id", PStr " "); ("rooms", PList [PInt 1])])])
  /\ _score_candidate
       [("id", PStr "x");
        ("home", PDict [("id", PStr " "); ("rooms", PList [PInt 1])])] = 0
  /\ _score_candidate [("id", PStr " "); ("rooms", PList [PInt 1])] = 9.
Proof. vm_compute. repeat split; reflexivity. Qed.

Definition s_home_entries : list (string * pyval) :=
  [("id", PStr "h1"); ("name", PStr "Maison"); ("rooms", PList [s_room])].

(** The home under [body.home] is found, and it is the best candidate. *)
Lemma extract_home_witness :
  exists best q,
    _extract_home_from_homesdata sample_repr s_homesdata = Ok (PDict best)
    /\ at_path s_homesdata q = Some (PDict best)
    /\ has_id sample_repr best = true
    /\ forall p' d', at_path s_homesdata p' = Some (PDict d') ->
                     has_id sample_repr d' = true ->
                     _score_candidate d' <= _score_candidate best.
Proof.
  apply (proj1 (_extract_home_from_homesdata_finds_best sample_repr s_homesdata)
           [0%nat; 0%nat] s_home_entries); reflexivity.
Defined.

Example extract_home_under_body :
  _extract_home_from_homesdata sample_repr s_homesdata = Ok s_home.
Proof. vm_compute. reflexivity. Qed.

Example extract_home_in_homes_list :
  _extract_home_from_homesdata sample_repr
    (PDict [("status", PStr "ok"); ("homes", PList [s_home])]) = Ok s_home.
Proof. vm_compute. reflexivity. Qed.

Example extract_numeric_id :
  _extract_home_from_homesdata sample_repr (PDict [("id", PInt 5)])
  = Ok (PDict [("id", PInt 5)]).
Proof. vm_compute. reflexivity. Qed.

Example extract_nothing :
  _extract_home_from_homesdata sample_repr
    (PDict [("error", PDict [("code", PInt 3)])]) = Raise IntuisApiError.
Proof. vm_compute. reflexivity. Qed.

(* --------------------------------------------------------------------- *)
(** ** The coordinator's data *)

(** C2, at a successful poll: the dict the coordinator returns holds the home's
    id, the status and the measures; the home record, which [get_home] has
    just cached, is not in it, and the platforms that read its ["home"] key
    find no room. *)
Theorem poll_data_has_no_home :
  fst (s_update (world_init (s_net 12) s_clock))
  = Ok (PDict [("home_id", PStr "h1"); ("status", s_status);
               ("measures", s_measures 12)])
  /\ home_cache (snd (s_update (world_init (s_net 12) s_clock))) = s_home
  /\ py_get (s_poll_data 12) "home" = Ok PNone
  /\ climate_async_setup_entry sample_repr (s_poll_data 12) = Ok []
  /\ (exists ents,
        sensor_async_setup_entry sample_repr s_domain (s_poll_data 12) = Ok ents
        /\ map s_name ents = ["Energy Today"; "Rooms Count"; "Modules Count"]
        /\ map s_value ents = [PFloat (float_lit 12); PInt 0; PInt 0]).
Proof.
  vm_compute. repeat split. eexists. repeat split; reflexivity.
Qed.

(** C6, at a second poll: the energy sensor set up from the first poll's data
    keeps reporting 12 when the coordinator's data has moved on to 15. *)
Theorem sensor_value_is_captured :
  exists e rest,
    sensor_async_setup_entry sample_repr s_domain (s_poll_data 12) = Ok (e :: rest)
    /\ s_class e = IntuisEnergyHomeSensor
    /\ native_value e (s_poll_data 12) = PFloat (float_lit 12)
    /\ native_value e (s_poll_data 15) = PFloat (float_lit 12)
    /\ _extract_energy_day_value (s_measures 15) = Ok (PFloat (float_lit 15)).
Proof.
  vm_compute. do 2 eexists. repeat split; reflexivity.
Qed.

(** The climate entity, for its part, reads the current data at each access. *)
Example climate_reads_current_data :
  let e := new_climate sample_repr (PStr "h1") (PStr "r1") (PStr "Salon") in
  current_temperature sample_repr e (s_poll_data 12) = Ok (PFloat (float_lit 19))
  /\ current_temperature sample_repr e PNone = Ok PNone.
Proof. vm_compute. split; reflexivity. Qed.

(* --------------------------------------------------------------------- *)
(** ** The platforms *)

Definition s_two_rooms_entries : list (string * pyval) :=
  [("home", PDict [("id", PStr "h1");
                   ("rooms", PList [s_room; PDict [("name", PStr "Cave")]])]);
   ("home_id", PStr "h1"); ("status", PDict []); ("measures", PDict [])].



(** A room the status describes gets its three sensors. *)
Example room_sensors_from_status :
  exists ents,
    room_sensors sample_repr s_domain (PStr "h1") s_status (PDict []) s_room
    = Ok ents
    /\ map s_name ents = ["Salon Measured"; "Salon Setpoint"; "Salon Mode"]
    /\ map s_value ents
       = [PFloat (float_lit 19); PFloat (float_lit 20); PStr "manual"].
Proof. vm_compute. eexists. repeat split; reflexivity. Qed.

Definition s_schedule (name : string) (selected : bool) (temp : Z) : pyval :=
  PDict [("name", PStr name); ("selected", PBool selected);
         ("zones",
          PList [PDict [("rooms_temp",
                         PList [PDict [("room_id", PStr "r1");
                                       ("temp", PInt temp)]])]])].

Definition s_configs : pyval :=
  PDict [("body",
          PDict [("home",
                  PDict [("therm_schedules",
                          PList [s_schedule "Hiver" false 16;
                                 s_schedule "Ete" true 21])])])].

(** The setpoint comes from the selected schedule when the status has none. *)
Example setpoint_from_selected_schedule :
  sensor_get_room_setpoint_from_configs sample_repr s_configs "r1"
  = Ok (PFloat (float_lit 21))
  /\ climate_get_room_setpoint_from_configs sample_repr sample_float_of_str
       s_configs (PStr "r1")
     = Ok (PFloat (float_lit 21)).
Proof. vm_compute. split; reflexivity. Qed.


(* --------------------------------------------------------------------- *)
(** ** Tokens and failures *)

(** A server whose first answer is an error and that is healthy afterwards. *)
Definition s_net_flaky (n : nat) : Response :=
  match n with
  | 0%nat => server_error
  | _ => ok_json s_tokens
  end.

(** C4 fails as stated on a token request that fails once: [login] does not
    raise, it asks again and returns the tokens of the second exchange. *)
Lemma login_retries_after_failure :
  api_failure (s_net_flaky 0)
  /\ fst (s_login (world_init s_net_flaky s_clock)) = Ok s_tokens
  /\ n_requests (snd (s_login (world_init s_net_flaky s_clock))) = 2%nat
  /\ trace (snd (s_login (world_init s_net_flaky s_clock)))
     = [EvRequest (login_request sample_repr s_client_id s_client_secret s_scope
                     s_user_prefix s_username s_password auth_init);
        EvSleep 1500;
        EvRequest (login_request sample_repr s_client_id s_client_secret s_scope
                     s_user_prefix s_username s_password auth_init)].
Proof.
  split; [simpl; left; lia|]. vm_compute. repeat split; reflexivity.
Qed.

(** A server that is down: [login] gives up after the third exchange. *)
Lemma failure_handling_witness :
  s_login (world_init (fun _ => server_error) s_clock)
  = (Raise IntuisApiError,
     failed_attempt sample_repr s_client_id s_client_secret s_scope
       s_user_prefix s_username s_password 3
       (failed_attempt sample_repr s_client_id s_client_secret s_scope
          s_user_prefix s_username s_password 2
          (failed_attempt sample_repr s_client_id s_client_secret s_scope
             s_user_prefix s_username s_password 1
             (world_init (fun _ => server_error) s_clock)))).
Proof.
  apply (proj1 (proj2 (proj2 (proj2
           (failure_handling sample_repr sample_json_loads s_client_id
              s_client_secret s_scope s_user_prefix s_username s_password
              (world_init (fun _ => server_error) s_clock))))));
    simpl; left; lia.
Defined.

(** A client that holds a refresh token and no access token. *)
Definition s_world_refresh : World :=
  mkWorld (mkAuth PNone (PStr "ref0") None) PNone
    (fun _ => ok_json (PDict [("access_token", PStr "tok1");
                              ("expires_in", PInt 3600)]))
    s_clock 0 0 [].




(** The refresh grant is what a client with an expired token sends first. *)
Example refresh_grant_is_sent :
  map rq_form (requests_of (trace (snd (s_ensure_token s_world_refresh))))
  = [Some [("client_id", "client"); ("user_prefix", "muller");
           ("client_secret", "secret"); ("grant_type", "refresh_token");
           ("refresh_token", "ref0")]].
Proof. vm_compute. reflexivity. Qed.

(** The expiry stored is the clock plus the response's [expires_in]. *)
Example expiry_is_stored :
  expires_at (auth (snd (s_ensure_token s_world_refresh)))
  = Some (float_lit 4600).
Proof. vm_compute. reflexivity. Qed.

(* --------------------------------------------------------------------- *)
(** ** The cached home *)

(** After a first [get_home] the cache holds the home with its id, and a
    failing server then changes nothing. *)
Example home_is_cached :
  let w := snd (s_get_home (world_init (s_net 12) s_clock)) in
  home_cache w = s_home
  /\ n_requests w = 2%nat
  /\ s_get_home w = (Ok s_home, w).
Proof. vm_compute. repeat split; reflexivity. Qed.

Example failed_extraction_leaves_cache_unset :
  let w := world_init (fun n => match n with
                                | 0%nat => ok_json s_tokens
                                | _ => ok_json (PDict [("error", PStr "none")])
                                end) s_clock in
  fst (s_get_home w) = Raise IntuisApiError
  /\ home_cache (snd (s_get_home w)) = PNone.
Proof. vm_compute. split; reflexivity. Qed.

(* --------------------------------------------------------------------- *)
(** ** The mode table *)

Lemma room_mode_table_witness :
  room_mode_to_hvac_and_preset (PStr "Home") (PStr "AWAY")
  = Ok (HVAC_AUTO, Some "away").
Proof.
  destruct (room_mode_to_hvac_and_preset_table (Some "Home") (Some "AWAY"))
    as [r [Hr [_ [_ [_ [_ [_ [Haway _]]]]]]]].
  cbn [str_or_none] in Hr. rewrite Hr. f_equal. apply Haway; reflexivity.
Defined.

Lemma home_cache_witness :
  cache_ok
    (home_cache
       (run_calls sample_repr sample_float_of_str sample_json_loads
          s_client_id s_client_secret s_scope s_user_prefix s_username
          s_password
          [CallAuthenticate; CallGetHome; CallHomestatus PNone]
          (world_init (s_net 12) s_clock))).
Proof.
  apply (proj1 (home_cache_invariant sample_repr sample_float_of_str
                  sample_json_loads s_client_id s_client_secret s_scope
                  s_user_prefix s_username s_password (s_net 12) s_clock
                  [CallAuthenticate; CallGetHome; CallHomestatus PNone])).
Defined.

Example home_cache_after_calls :
  home_cache
    (run_calls sample_repr sample_float_of_str sample_json_loads
       s_client_id s_client_secret s_scope s_user_prefix s_username
       s_password
       [CallAuthenticate; CallGetHome; CallHomestatus PNone]
       (world_init (s_net 12) s_clock))
  = s_home.
Proof. vm_compute. reflexivity. Qed.

(* --------------------------------------------------------------------- *)
(** ** Runs for the further properties *)

(** A refresh that leaves the client alone. *)
Definition s_refresh : M unit := ret tt.

Definition s_get_homesdata : M pyval :=
  get_homesdata sample_repr sample_json_loads s_client_id s_client_secret
    s_scope s_user_prefix s_username s_password.
Definition s_get_home_id : M string :=
  get_home_id sample_repr sample_json_loads s_client_id s_client_secret
    s_scope s_user_prefix s_username s_password.
Definition s_set_room_setpoint (home_id room_id temp duration : pyval) : M pyval :=
  set_room_setpoint sample_repr sample_float_of_str s_client_id s_client_secret
    s_scope s_user_prefix s_username s_password home_id room_id temp duration.
Definition s_set_hvac_mode (e : IntuisRoomClimate) (m : HVACMode) : M unit :=
  async_set_hvac_mode sample_repr s_client_id s_client_secret s_scope
    s_user_prefix s_username s_password s_refresh e m.
Definition s_set_temperature (e : IntuisRoomClimate)
    (kwargs : list (string * pyval)) : M unit :=
  async_set_temperature sample_repr sample_float_of_str s_client_id
    s_client_secret s_scope s_user_prefix s_username s_password s_refresh
    e kwargs.
Definition s_select_option (e : IntuisScheduleSelect) (choice : string) : M unit :=
  async_select_option sample_repr s_client_id s_client_secret s_scope
    s_user_prefix s_username s_password s_refresh e choice.

(** The climate entity of the room [r1], and one of a room the status does
    not hold. *)
Definition s_climate : IntuisRoomClimate :=
  new_climate sample_repr (PStr "h1") (PStr "r1") (PStr "Salon").
Definition s_climate_gone : IntuisRoomClimate :=
  new_climate sample_repr (PStr "h1") (PStr "r9") (PStr "Cave").

(** A client with a valid token and the home cached, in front of a server
    that answers every request with an empty object. *)
Definition s_world_ready : World :=
  mkWorld (mkAuth (PStr "tok0") (PStr "ref0") (Some (float_lit 5000))) s_home
    (fun _ => ok_json (PDict [])) s_clock 0 0 [].

Lemma s_world_ready_fresh : token_fresh s_world_ready.
Proof.
  exists (float_lit 5000). repeat split.
Qed.

(** The same client in front of a server that sends the status, then the
    measures. *)
Definition s_world_polling : World :=
  mkWorld (mkAuth (PStr "tok0") (PStr "ref0") (Some (float_lit 5000))) s_home
    (fun n => match n with
              | 0%nat => ok_json s_status
              | _ => ok_json (s_measures 12)
              end) s_clock 0 0 [].

Lemma s_world_polling_fresh : token_fresh s_world_polling.
Proof.
  exists (float_lit 5000). repeat split.
Qed.

Lemma login_retries_witness :
  s_login (world_init (fun _ => NoResponse ClientError) s_clock)
  = (Raise (External ClientError),
     record_request
       (login_request sample_repr s_client_id s_client_secret s_scope
          s_user_prefix s_username s_password auth_init)
       (world_init (fun _ => NoResponse ClientError) s_clock)).
Proof.
  apply (proj1 (login_retries_only_api_errors sample_repr s_client_id
                  s_client_secret s_scope s_user_prefix s_username s_password
                  (world_init (fun _ => NoResponse ClientError) s_clock))).
  reflexivity.
Defined.

(** A token endpoint that answers 200 with an error object. *)
Definition s_error_object : list (string * pyval) :=
  [("error", PStr "invalid_grant")].

Lemma login_without_access_token_witness :
  exists w1,
    s_login (world_init (fun _ => ok_json (PDict s_error_object)) s_clock)
    = (Ok (PDict s_error_object), w1)
    /\ access_token (auth w1) = get "access_token" s_error_object
    /\ token_valid w1 = (Ok false, w1)
    /\ (S (n_requests w1) <= n_requests (snd (s_ensure_token w1)))%nat.
Proof.
  apply (login_without_access_token sample_repr s_client_id s_client_secret
           s_scope s_user_prefix s_username s_password
           (world_init (fun _ => ok_json (PDict s_error_object)) s_clock)
           200 s_error_object (Got "") (float_lit 3600));
    [reflexivity|lia|reflexivity|reflexivity].
Defined.

Definition s_tokens_entries : list (string * pyval) :=
  [("access_token", PStr "tok1"); ("refresh_token", PStr "ref1");
   ("expires_in", PInt 10800)].

Lemma ensure_token_after_login_witness :
  exists w1,
    s_login (world_init (s_net 12) s_clock) = (Ok (PDict s_tokens_entries), w1)
    /\ s_ensure_token w1 = (Ok tt, tick w1)
    /\ n_requests (tick w1) = 1%nat.
Proof.
  apply (ensure_token_after_login sample_repr s_client_id s_client_secret
           s_scope s_user_prefix s_username s_password
           (world_init (s_net 12) s_clock) 200 s_tokens_entries (Got "")
           (float_lit 10800));
    [reflexivity|lia|reflexivity|reflexivity|reflexivity|reflexivity].
Defined.

Lemma get_homesdata_witness : is_container s_homesdata = true.
Proof.
  apply (get_homesdata_returns_container sample_repr sample_json_loads
           s_client_id s_client_secret s_scope s_user_prefix s_username
           s_password (world_init (s_net 12) s_clock) s_homesdata
           (snd (s_get_homesdata (world_init (s_net 12) s_clock)))).
  vm_compute. reflexivity.
Defined.

Lemma set_room_setpoint_witness :
  exists rq,
    s_set_room_setpoint (PStr "h1") (PStr "r1") (PInt 21) PNone s_world_ready
    = (Ok (PDict []), record_request rq (tick s_world_ready))
    /\ rq_method rq = "POST"
    /\ rq_url rq = BASE_HOST ++ "/api/setroomthermpoint"
    /\ rq_json rq = None
    /\ rq_form rq
       = Some [("home_id", "h1"); ("room_id", "r1"); ("mode", "manual");
               ("temp", sample_repr (PFloat (float_lit 21)))].
Proof.
  apply (set_room_setpoint_request sample_repr sample_float_of_str s_client_id
           s_client_secret s_scope s_user_prefix s_username s_password
           (PStr "h1") (PStr "r1") (PInt 21) PNone (float_lit 21) s_world_ready
           s_world_ready_fresh eq_refl eq_refl).
Defined.

Lemma set_room_setpoint_bad_temperature_witness :
  exists e' w',
    s_set_room_setpoint (PStr "h1") (PStr "r1") (PStr "warm") PNone s_world_ready
    = (Raise e', w')
    /\ trace w' = trace s_world_ready
    /\ n_requests w' = n_requests s_world_ready
    /\ auth w' = auth s_world_ready
    /\ home_cache w' = home_cache s_world_ready.
Proof.
  apply (set_room_setpoint_bad_temperature sample_repr sample_float_of_str
           s_client_id s_client_secret s_scope s_user_prefix s_username
           s_password (PStr "h1") (PStr "r1") (PStr "warm") PNone ValueError
           s_world_ready eq_refl).
Defined.

Lemma set_room_setpoint_endtime_witness :
  s_set_room_setpoint (PStr "h1") (PStr "r1") (PInt 21) (PInt 30) s_world_ready
  = (Ok (PDict []),
     record_request
       (mkRequest "POST" (BASE_HOST ++ "/api/setroomthermpoint")
          (_auth_headers sample_repr (auth s_world_ready)
           ++ [("Content-Type", "application/x-www-form-urlencoded")])%list
          None
          (Some (form_fields sample_repr
                   [("home_id", PStr "h1"); ("room_id", PStr "r1");
                    ("mode", PStr "manual"); ("temp", PFloat (float_lit 21));
                    ("endtime", PInt 2800)])))
       (tick (tick s_world_ready))).
Proof.
  apply (set_room_setpoint_endtime sample_repr sample_float_of_str s_client_id
           s_client_secret s_scope s_user_prefix s_username s_password
           (PStr "h1") (PStr "r1") (PInt 21) (PInt 30) (float_lit 21)
           (float_lit 30) 2800 s_world_ready s_world_ready_fresh
           eq_refl eq_refl eq_refl eq_refl).
Defined.

Lemma poll_with_cached_home_witness :
  exists w' rq1 rq2,
    s_update s_world_polling
    = (Ok (PDict [("home_id", PStr "h1"); ("status", s_status);
                  ("measures", s_measures 12)]), w')
    /\ trace w' = [EvRequest rq2; EvRequest rq1]
    /\ rq_url rq1 = BASE_HOST ++ "/syncapi/v1/homestatus"
    /\ rq_form rq1 = Some [("home_id", "h1")]
    /\ rq_url rq2 = BASE_HOST ++ "/api/gethomemeasure"
    /\ rq_form rq2 = Some (measure_form "h1" true)
    /\ auth w' = auth s_world_polling
    /\ home_cache w' = home_cache s_world_polling.
Proof.
  apply (poll_with_cached_home sample_repr sample_json_loads s_client_id
           s_client_secret s_scope s_user_prefix s_username s_password
           s_world_polling s_home_entries s_status (s_measures 12) 200 (Got "") 200 (Got "")
           s_world_polling_fresh eq_refl eq_refl eq_refl);
    [lia|reflexivity|lia].
Defined.

Lemma extract_fails_witness :
  exists q d,
    s_home = PDict d /\ at_path s_homesdata q = Some s_home
    /\ has_id sample_repr d = true.
Proof.
  apply (proj2 (proj2 (_extract_home_from_homesdata_fails_iff sample_repr
                         s_homesdata)) s_home).
  vm_compute. reflexivity.
Defined.

Example extract_raises_without_id :
  _extract_home_from_homesdata sample_repr
    (PDict [("homes", PList [PDict [("name", PStr "Maison")]])])
  = Raise IntuisApiError.
Proof. vm_compute. reflexivity. Qed.

Lemma search_home_adds_nothing_witness :
  exists st best,
    bfs_loop sample_repr (weight s_homesdata) (bfs_init s_homesdata) = Some st
    /\ bbest st = Some best
    /\ _extract_home_from_homesdata sample_repr s_homesdata = Ok best.
Proof.
  apply (_search_home_adds_nothing sample_repr s_homesdata 33 s_home).
  reflexivity.
Defined.

(** Below the sample home, the only dict with an id is the room, of score 1. *)
Lemma s_home_scores_highest : forall p d',
  p <> [] ->
  at_path (PDict s_home_entries) p = Some (PDict d') ->
  has_id sample_repr d' = true ->
  _score_candidate d' < _score_candidate s_home_entries.
Proof.
  intros p d' Hp H _.
  destruct p as [|[|[|[|i]]] p]; [congruence| | | |];
    cbn in H; try (destruct p; discriminate); try (destruct i; discriminate).
  destruct p as [|[|j] p]; cbn in H; try discriminate;
    [|destruct j; discriminate].
  destruct p as [|[|[|k]] p]; cbn in H; try (destruct p; discriminate);
    try (destruct k; discriminate).
  inversion H. reflexivity.
Qed.

Lemma root_home_preferred_witness :
  _extract_home_from_homesdata sample_repr (PDict s_home_entries)
  = Ok (PDict s_home_entries).
Proof.
  apply (root_home_preferred sample_repr s_home_entries eq_refl
           s_home_scores_highest).
Defined.

Lemma get_home_normalises_id_witness :
  exists d',
    s_get_home (world_init (s_net 12) s_clock)
    = (Ok (PDict d'),
       set_home_cache (PDict d')
         (snd (s_get_homesdata (world_init (s_net 12) s_clock))))
    /\ lookup "id" d' = Some (PStr (home_id_of sample_repr s_home_entries))
    /\ (forall k, k <> "id" -> lookup k d' = lookup k s_home_entries)
    /\ strip (home_id_of sample_repr s_home_entries)
       = home_id_of sample_repr s_home_entries.
Proof.
  apply (get_home_normalises_id sample_repr sample_json_loads s_client_id
           s_client_secret s_scope s_user_prefix s_username s_password
           (world_init (s_net 12) s_clock) s_homesdata
           (snd (s_get_homesdata (world_init (s_net 12) s_clock)))
           s_home_entries);
    [reflexivity|vm_compute; reflexivity|reflexivity|reflexivity].
Defined.

Lemma get_home_id_not_blank_witness : "h1" <> "" /\ strip "h1" = "h1".
Proof.
  apply (get_home_id_not_blank sample_repr sample_json_loads s_client_id
           s_client_secret s_scope s_user_prefix s_username s_password
           (world_init (s_net 12) s_clock) "h1"
           (snd (s_get_home_id (world_init (s_net 12) s_clock)))).
  vm_compute. reflexivity.
Defined.

Lemma mode_commands_witness :
  s_set_hvac_mode s_climate HVAC_HEAT s_world_ready
  = request_then_refresh s_refresh
      (setstate_request sample_repr (auth s_world_ready) "h1" "r1" "manual")
      s_world_ready.
Proof.
  apply (proj1 (mode_commands sample_repr s_client_id s_client_secret s_scope
                  s_user_prefix s_username s_password s_refresh s_climate
                  s_world_ready s_world_ready_fresh) HVAC_HEAT).
Defined.

Example heat_command_body :
  map rq_json (requests_of (trace (snd (s_set_hvac_mode s_climate HVAC_HEAT
                                          s_world_ready))))
  = [Some (PDict [("home",
                   PDict [("id", PStr "h1");
                          ("rooms",
                           PList [PDict [("id", PStr "r1");
                                         ("therm_setpoint_mode",
                                          PStr "manual")]])])])].
Proof. vm_compute. reflexivity. Qed.

Lemma set_temperature_witness :
  s_set_temperature s_climate [("temperature", PInt 21)] s_world_ready
  = request_then_refresh s_refresh
      (setpoint_request sample_repr (auth s_world_ready) "h1" "r1" (float_lit 21))
      (record_request
         (setstate_request sample_repr (auth s_world_ready) "h1" "r1" "manual")
         (tick s_world_ready)).
Proof.
  apply (proj2 (proj2 (set_temperature_command sample_repr sample_float_of_str
                         s_client_id s_client_secret s_scope s_user_prefix
                         s_username s_password s_refresh s_climate
                         [("temperature", PInt 21)] s_world_ready))
           (PInt 21) (float_lit 21) eq_refl eq_refl s_world_ready_fresh).
Defined.

Example set_temperature_requests :
  map rq_url (requests_of (trace (snd (s_set_temperature s_climate
                                         [("temperature", PInt 21)]
                                         s_world_ready))))
  = [BASE_HOST ++ "/syncapi/v1/setstate";
     BASE_HOST ++ "/api/setroomthermpoint"]
  /\ s_set_temperature s_climate [("temperature", PNone)] s_world_ready
     = (Ok tt, s_world_ready).
Proof. vm_compute. split; reflexivity. Qed.

(** A home with two schedules, the first one selected. *)
Definition s_plan (id name : string) (selected : bool) : pyval :=
  PDict [("id", PStr id); ("name", PStr name); ("selected", PBool selected)].

Definition s_select_data : pyval :=
  PDict [("home_id", PStr "h1");
         ("home", PDict [("id", PStr "h1");
                         ("therm_schedules",
                          PList [s_plan "p1" "Semaine" true;
                                 s_plan "p2" "Vacances" false])])].

Definition s_select : IntuisScheduleSelect :=
  mkSelect (PStr "h1")
    (PList [s_plan "p1" "Semaine" true; s_plan "p2" "Vacances" false])
    [PStr "Semaine"; PStr "Vacances"] [PStr "p1"; PStr "p2"].


Example select_option_form :
  map rq_form (requests_of (trace (snd (s_select_option s_select "Vacances"
                                          s_world_ready))))
  = [Some [("home_id", "h1"); ("schedule_id", "p2")]]
  /\ s_select_option s_select "Nuit" s_world_ready = (Ok tt, s_world_ready).
Proof. vm_compute. split; reflexivity. Qed.

Lemma hvac_mode_reads_back_witness :
  exists e', hvac_mode sample_repr s_climate (s_poll_data 12) = Ok (HVAC_HEAT, e').
Proof.
  apply (hvac_mode_reads_back sample_repr s_climate (s_poll_data 12) s_status
           s_status_room HVAC_HEAT PNone eq_refl eq_refl eq_refl eq_refl).
Defined.

(** A status in which the home is in frost guard and the room follows it. *)
Definition s_status_frost : pyval :=
  PDict [("body",
          PDict [("home",
                  PDict [("id", PStr "h1"); ("therm_mode", PStr "hg");
                         ("rooms",
                          PList [PDict [("id", PStr "r1");
                                        ("therm_setpoint_mode", PStr "home")]])])])].

Example auto_reads_as_heat_in_frost_guard :
  exists e',
    hvac_mode sample_repr s_climate (PDict [("status", s_status_frost)])
    = Ok (HVAC_HEAT, e')
    /\ preset_mode e' = Some "hg".
Proof. eexists. vm_compute. split; reflexivity. Qed.

Lemma preset_mode_reads_back_witness :
  exists h e',
    hvac_mode sample_repr s_climate (PDict [("status", s_status_frost)])
    = Ok (h, e')
    /\ preset_mode e' = Some "hg".
Proof.
  apply (preset_mode_reads_back sample_repr s_climate
           (PDict [("status", s_status_frost)]) s_status_frost
           [("id", PStr "r1"); ("therm_setpoint_mode", PStr "home")]
           "home" (PStr "hg") eq_refl eq_refl eq_refl eq_refl eq_refl).
Defined.

Lemma missing_room_witness :
  current_temperature sample_repr s_climate_gone (s_poll_data 12) = Ok PNone
  /\ exists e',
       hvac_mode sample_repr s_climate_gone (s_poll_data 12) = Ok (HVAC_AUTO, e')
       /\ preset_mode e' = None.
Proof.
  apply (missing_room_reads sample_repr s_climate_gone (s_poll_data 12) s_status
           PNone eq_refl eq_refl eq_refl).
Defined.

Lemma target_temperature_without_configs_witness :
  target_temperature sample_repr sample_float_of_str s_climate_gone
    (s_poll_data 12) = Ok PNone
  /\ forall rid dd, s_poll_data 12 = PDict dd ->
       sensor_get_room_setpoint_from_configs sample_repr
         (py_or (get "configs" dd) (PDict [])) rid = Ok PNone.
Proof.
  apply (target_temperature_without_configs sample_repr sample_float_of_str
           sample_json_loads s_client_id s_client_secret s_scope s_user_prefix
           s_username s_password (world_init (s_net 12) s_clock)
           (s_poll_data 12) (snd (s_update (world_init (s_net 12) s_clock)))
           s_climate_gone s_status PNone);
    [vm_compute; reflexivity|reflexivity|reflexivity|reflexivity].
Defined.

Lemma current_option_witness :
  PStr "Semaine" = PNone \/ In (PStr "Semaine") (options s_select).
Proof.
  apply (current_option_is_an_option s_select_data s_select (PStr "Semaine")
           eq_refl eq_refl).
Defined.

Lemma climate_unique_ids_witness :
  exists ents,
    climate_async_setup_entry sample_repr (PDict s_two_rooms_entries) = Ok ents
    /\ map c_room_id ents
       = filter str_nonempty
           (map (climate_room_id sample_repr)
              [[("id", PStr "r1"); ("name", PStr "Salon")];
               [("name", PStr "Cave")]])
    /\ NoDup (map c_unique_id ents)
    /\ NoDup (map (fun e => snd (dev_identifier
                                   (climate_device_info sample_repr s_domain e)))
                ents).
Proof.
  apply (climate_unique_ids sample_repr s_domain s_two_rooms_entries
           [("id", PStr "h1");
            ("rooms", PList [s_room; PDict [("name", PStr "Cave")]])]
           [[("id", PStr "r1"); ("name", PStr "Salon")]; [("name", PStr "Cave")]]
           eq_refl eq_refl).
  cbn. constructor; [intros []|constructor].
Defined.

(** The sensors of the room [r1], from the sample status. *)
Definition s_room_sensors : list SensorEntity :=
  match room_sensors sample_repr s_domain (PStr "h1") s_status (PDict [])
          s_room with
  | Ok l => l
  | Raise _ => []
  end.

Lemma room_sensors_share_device_witness :
  Forall (fun s => s_device s = climate_device_info sample_repr s_domain s_climate)
    s_room_sensors
  /\ List.length s_room_sensors = 3%nat.
Proof.
  split; [|reflexivity].
  apply Forall_forall. intros s Hs.
  apply (room_sensors_share_climate_device sample_repr s_domain "h1" s_status
           (PDict []) [("id", PStr "r1"); ("name", PStr "Salon")]
           s_room_sensors s s_climate eq_refl eq_refl eq_refl Hs).
  left. reflexivity.
Defined.

(** The coordinator's data as the platforms expect it, with the home in it. *)
Definition s_data_with_home : list (string * pyval) :=
  [("home_id", PStr "h1"); ("home", s_home); ("status", s_status)].

Definition s_sensors : list SensorEntity :=
  match sensor_async_setup_entry sample_repr s_domain (PDict s_data_with_home) with
  | Ok l => l
  | Raise _ => []
  end.

Lemma room_sensor_unique_ids_witness :
  exists gateway room_ents,
    s_sensors = (gateway ++ room_ents)%list
    /\ Forall (on_gateway sample_repr s_domain (get "home_id" s_data_with_home))
         gateway
    /\ NoDup (map s_unique_id room_ents).
Proof.
  apply (room_sensor_unique_ids sample_repr s_domain s_data_with_home
           s_home_entries [[("id", PStr "r1"); ("name", PStr "Salon")]]
           s_sensors eq_refl eq_refl eq_refl).
  cbn. constructor; [intros []|constructor].
Defined.

Example sample_sensor_unique_ids :
  map s_unique_id s_sensors
  = ["intuis_h1_rooms_count"; "intuis_h1_modules_count";
     "intuis_h1_r1_measured"; "intuis_h1_r1_setpoint"; "intuis_h1_r1_mode"].
Proof. vm_compute. reflexivity. Qed.

Example sign_in_errors :
  error_base
    (login_failed_message
       (http_error_message "POST" token_url 503 "Service Unavailable" ""))
  = "invalid_auth"
  /\ error_base "Cannot connect to host" = "cannot_connect".
Proof. vm_compute. split; reflexivity. Qed.

Lemma find_room_agrees_witness :
  climate_find_room_in_payload sample_repr s_status (PStr "r1")
  = sensor_find_room_in_payload sample_repr s_status "r1".
Proof.
  apply (find_room_agrees sample_repr
           [("body", PDict [("home", PDict [("id", PStr "h1");
                                             ("rooms", PList [PDict s_status_room])])])]
           [("home", PDict [("id", PStr "h1");
                            ("rooms", PList [PDict s_status_room])])]
           [("id", PStr "h1"); ("rooms", PList [PDict s_status_room])]
           [s_status_room] "r1" eq_refl eq_refl eq_refl);
    [repeat constructor|reflexivity].
Defined.

(** A room only [sensor.py] finds: its id is under [_id]. *)
Example find_room_by_other_id :
  let status :=
    PDict [("body", PDict [("home", PDict [("rooms",
             PList [PDict [("_id", PStr "r1")]])])])] in
  sensor_find_room_in_payload sample_repr status "r1"
  = Ok (PDict [("_id", PStr "r1")])
  /\ climate_find_room_in_payload sample_repr status (PStr "r1") = Ok PNone.
Proof. vm_compute. split; reflexivity. Qed.

(** Rooms as the binary sensors expect them. *)
Definition s_binary_rooms : list (list (string * pyval)) :=
  [[("id", PStr "r1"); ("name", PStr "Salon"); ("window_open", PBool false)];
   [("id", PStr "r2"); ("name", PStr "Cave"); ("presence", PBool true)]].


Example binary_sensors_values :
  match binary_sensor_async_setup_entry sample_repr s_domain
          (PDict [("rooms", PList (map PDict s_binary_rooms))]) with
  | Ok ents => map (fun e => (b_name e, is_on e)) ents
  | Raise _ => []
  end
  = [("Salon Window Open", Ok false); ("Cave Presence", Ok true)].
Proof. vm_compute. reflexivity. Qed.
